(** * ICH_Page: the detection submission and multi-model result workflow

    A shallow embedding of [frontend/js/detection.js] (the Submission
    Controller) and [frontend/js/results-multimodel.js] (the Result
    Renderer), with the properties stated about them.

    Layout. Part I holds the definitions: the JavaScript values the two
    scripts handle, the JSON text codec they call, the browser effects,
    one module per script, and the vocabulary of the statements. Part II
    holds the lemmas and theorems.

    Modelling conventions.
    - A handler is a function from the page's world to the page's world.
      The world holds the script's module variables, the DOM properties the
      script reads or writes, the session storage, and the trace of
      observable effects (alerts, console lines, network requests, storage
      writes, navigations, timers) in the order they happen. The elements
      the scripts look up by id are taken to exist.
    - An exception is an explicit outcome ([Throw]); [try]/[catch] is a
      match on it.
    - An [await] is a point where the handler returns to the event loop;
      the handler is split there and the awaited outcome is an argument of
      the second half.
    - Numbers are exact decimals (mantissa and number of decimal places):
      every finite double has such a value, and subtraction and comparison
      of doubles agree in sign with the exact ones. Rounding, infinities
      and the sign of zero are outside the model, and numerals are always
      written positionally.
    - Strings are byte strings; case folding and escapes act on ASCII.
    - An object is the list of its properties in the order
      [Object.entries] enumerates them: array indices first, ascending,
      then the other keys in insertion order. *)

From Stdlib Require Import ZArith NArith String Ascii List Lia Bool.
From stdpp Require Import gmap strings list sorting.

Open Scope string_scope.

(* ================================================================== *)
(** * Part I. Definitions *)
(* ================================================================== *)

(** ** JavaScript values and the primitives the scripts use *)

Module JS.

(** *** Strings *)

Definition is_upper (c : ascii) : bool :=
  let n := nat_of_ascii c in (65 <=? n)%nat && (n <=? 90)%nat.

Definition lower_ascii (c : ascii) : ascii :=
  if is_upper c then ascii_of_nat (nat_of_ascii c + 32) else c.

(** [String.prototype.toLowerCase], on ASCII letters. *)
Fixpoint toLowerCase (s : string) : string :=
  match s with
  | EmptyString => EmptyString
  | String c s' => String (lower_ascii c) (toLowerCase s')
  end.

(** [s.endsWith(t)]: the last [length t] characters of [s] are [t]. *)
Definition endsWith (s t : string) : bool :=
  if (String.length t <=? String.length s)%nat
  then String.eqb
         (substring (String.length s - String.length t) (String.length t) s) t
  else false.

(** [s.includes(t)]: [t] occurs in [s] at some position. *)
Fixpoint includes (s t : string) : bool :=
  String.prefix t s
  || match s with
     | EmptyString => false
     | String _ s' => includes s' t
     end.

(** [xs.join(sep)] on strings. *)
Fixpoint join (sep : string) (xs : list string) : string :=
  match xs with
  | [] => ""
  | [x] => x
  | x :: xs' => x +:+ sep +:+ join sep xs'
  end.

(** The double quote character. *)
Definition dquote : ascii := "034"%char.

(** *** Decimal digits *)

Definition digit_char (d : N) : ascii := ascii_of_N (48 + d).

Definition is_digit (c : ascii) : bool :=
  let n := N_of_ascii c in (48 <=? n)%N && (n <=? 57)%N.

Definition digit_val (c : ascii) : N := N_of_ascii c - 48.

(** The decimal digits of [n], most significant first, in front of
    [acc]. [fuel] bounds the number of digits. *)
Fixpoint digits_aux (fuel : nat) (n : N) (acc : string) : string :=
  match fuel with
  | O => acc
  | S fuel' =>
      let acc' := String (digit_char (n mod 10)) acc in
      if (n / 10 =? 0)%N then acc' else digits_aux fuel' (n / 10) acc'
  end.

Definition digits (n : N) : string :=
  digits_aux (S (N.to_nat (N.log2 n))) n "".

(** The number a string of decimal digits denotes, continuing from
    [acc]. *)
Fixpoint digits_value (acc : N) (s : string) : N :=
  match s with
  | EmptyString => acc
  | String c s' => digits_value (acc * 10 + digit_val c) s'
  end.

Fixpoint zeros (k : nat) : string :=
  match k with
  | O => ""
  | S k' => String "0" (zeros k')
  end.

(** *** Numbers *)

(** The number [mant / 10 ^ scale]. *)
Record number := Num { mant : Z; scale : nat }.

Definition pow10 (k : nat) : Z := 10 ^ Z.of_nat k.

Definition num_of_Z (z : Z) : number := Num z 0.

(** [a - b], exactly. *)
Definition num_sub (a b : number) : number :=
  Num (mant a * pow10 (scale b) - mant b * pow10 (scale a))
      (scale a + scale b).

(** [n > 0] *)
Definition num_pos (n : number) : bool := (0 <? mant n)%Z.

(** [n == 0] *)
Definition num_is_zero (n : number) : bool := (mant n =? 0)%Z.

(** [a >= b] *)
Definition num_geb (a b : number) : bool :=
  (mant b * pow10 (scale a) <=? mant a * pow10 (scale b))%Z.

(** [a == b] *)
Definition num_eqb (a b : number) : bool :=
  (mant a * pow10 (scale b) =? mant b * pow10 (scale a))%Z.

(** The representation without trailing zero decimals. *)
Fixpoint strip (k : nat) (m : Z) : number :=
  match k with
  | O => Num m 0
  | S k' => if (m mod 10 =? 0)%Z then strip k' (m / 10) else Num m (S k')
  end.

Definition normalise (n : number) : number := strip (scale n) (mant n).

Definition canonical (n : number) : Prop := normalise n = n.

(** [split_at n s]: the first [n] characters of [s], and the rest. *)
Fixpoint split_at (n : nat) (s : string) : string * string :=
  match n, s with
  | O, _ => ("", s)
  | S _, EmptyString => ("", "")
  | S n', String c s' => let (a, b) := split_at n' s' in (String c a, b)
  end.

(** The decimal numeral of a number written positionally: sign, integer
    digits and, when there are decimals, a point and exactly [scale]
    digits. *)
Definition print_number (n : number) : string :=
  let ds := digits (Z.abs_N (mant n)) in
  let k := scale n in
  (if (mant n <? 0)%Z then "-" else "")
  +:+
  (if (String.length ds <=? k)%nat then
     "0." +:+ zeros (k - String.length ds) +:+ ds
   else
     let (ip, fp) := split_at (String.length ds - k) ds in
     match k with
     | O => ip
     | S _ => ip +:+ "." +:+ fp
     end).

(** [Number::toString], on the numbers that a decimal of at most 15
    significant digits names and that are written positionally (zero,
    and the magnitudes from 1e-6 to below 1e21): there the shortest
    numeral of the double is this decimal. Other numbers the engine
    writes with fewer digits or with an exponent; the model writes all
    the digits, and the statements that show a number's text are made
    for the former. *)
Definition Number_toString (n : number) : string :=
  print_number (normalise n).

(** *** JSON values: what [JSON.parse] and [response.json()] return *)

#[warnings="-register-all"]
Inductive json :=
| JNull
| JBool (b : bool)
| JNum (n : number)
| JStr (s : string)
| JArr (items : list json)
| JObj (props : list (string * json)).

(** A value that may be [undefined], which is [None]. *)
Definition jsval := option json.

(** Own property lookup in a property list. *)
Fixpoint assoc {A} (k : string) (l : list (string * A)) : option A :=
  match l with
  | [] => None
  | (k', v) :: l' => if String.eqb k k' then Some v else assoc k l'
  end.

Definition keys {A} (l : list (string * A)) : list string := map fst l.

(** [ToBoolean]. *)
Definition truthy (v : json) : bool :=
  match v with
  | JNull => false
  | JBool b => b
  | JNum n => negb (num_is_zero n)
  | JStr s => negb (String.eqb s "")
  | JArr _ | JObj _ => true
  end.

Definition truthy_val (v : jsval) : bool :=
  match v with
  | None => false
  | Some j => truthy j
  end.

(** [a || b] where [b] cannot be [undefined]. *)
Definition or_else (a : jsval) (b : json) : json :=
  match a with
  | Some j => if truthy j then j else b
  | None => b
  end.

(** [ToString] on the values JSON can produce: what a template literal
    or [new Error(v)] makes of [v]. *)
Fixpoint ToString (v : json) : string :=
  match v with
  | JNull => "null"
  | JBool true => "true"
  | JBool false => "false"
  | JNum n => Number_toString n
  | JStr s => s
  | JArr items =>
      join ","
        ((fix each (l : list json) : list string :=
            match l with
            | [] => []
            | JNull :: l' => "" :: each l'
            | x :: l' => ToString x :: each l'
            end) items)
  | JObj _ => "[object Object]"
  end.

Definition ToString_val (v : jsval) : string :=
  match v with
  | None => "undefined"
  | Some j => ToString j
  end.

(** Outcome of an expression that may throw. *)
Inductive completion (A : Type) :=
| Normal (a : A)
| Throw (message : string).
Arguments Normal {A} a.
Arguments Throw {A} message.

Definition bind {A B} (c : completion A) (k : A -> completion B)
  : completion B :=
  match c with
  | Normal a => k a
  | Throw m => Throw m
  end.

Notation "'try!' x := c 'in' k" := (bind c (fun x => k))
  (at level 10, x name, c at level 100, k at level 200).

(** The characters a storage holds, keys and values. *)
Definition storage_size (sto : gmap string string) : N :=
  map_fold
    (fun k v acc =>
       (N.of_nat (String.length k) + N.of_nat (String.length v) + acc)%N)
    0%N sto.

(** What the platform decides and the scripts only meet: the wording of
    the exceptions the engine itself raises (the scripts show some of it
    to the user), and whether the session storage takes a write. It is a
    parameter of the model. *)
Record Engine := {
  (** reading property [p] of [null] or of [undefined] *)
  msg_read_nullish : string -> string -> string;
  (** calling something that is not a function *)
  msg_not_function : string -> string;
  (** [JSON.parse] or [response.json()] on text that is not JSON *)
  msg_json_syntax : string -> string;
  (** [sessionStorage.setItem(key, value)] on a storage that holds
      [sto]: the message of the QuotaExceededError it raises, [None]
      when the storage takes the write *)
  storage_error : gmap string string -> string -> string -> option string
}.

(** V8's wording; for text that is not JSON, the wording it uses when
    the first character is already wrong. The storage is Chrome's, with
    a quota of 5 MiB of keys and values, the amount the HTML Standard
    suggests (browsers differ in the amount and in the unit). *)
Definition V8 : Engine := {|
  msg_read_nullish base p :=
    "Cannot read properties of " +:+ base +:+ " (reading '" +:+ p +:+ "')";
  msg_not_function f := f +:+ " is not a function";
  msg_json_syntax text :=
    match text with
    | EmptyString => "Unexpected end of JSON input"
    | String c _ =>
        "Unexpected token '" +:+ String c "', " +:+ String dquote text
        +:+ String dquote " is not valid JSON"
    end;
  storage_error sto key value :=
    if (storage_size (<[key := value]> sto) <=? 5 * 1024 * 1024)%N then None
    else
      Some ("Failed to execute 'setItem' on 'Storage': Setting the value of '"
            +:+ key +:+ "' exceeded the quota.")
|}.

(** [v.p] for a property name [p] that is not an array index: own
    properties of an object, [length] of an array or a string, nothing
    else; reading from [null] throws. *)
Definition get (E : Engine) (v : json) (p : string) : completion jsval :=
  match v with
  | JNull => Throw (msg_read_nullish E "null" p)
  | JObj props => Normal (assoc p props)
  | JArr items =>
      Normal (if String.eqb p "length"
              then Some (JNum (num_of_Z (Z.of_nat (length items))))
              else None)
  | JStr s =>
      Normal (if String.eqb p "length"
              then Some (JNum (num_of_Z (Z.of_nat (String.length s))))
              else None)
  | JBool _ | JNum _ => Normal None
  end.

(** [v.p] where [v] may be [undefined]. *)
Definition get_val (E : Engine) (v : jsval) (p : string) : completion jsval :=
  match v with
  | None => Throw (msg_read_nullish E "undefined" p)
  | Some j => get E j p
  end.

(** The characters of a string, as one-character strings. *)
Fixpoint chars (s : string) : list string :=
  match s with
  | EmptyString => []
  | String c s' => String c "" :: chars s'
  end.

(** Index keys ["i"], ["i+1"], ... paired with the elements. *)
Fixpoint indexed {A} (i : N) (l : list A) : list (string * A) :=
  match l with
  | [] => []
  | x :: l' => (digits i, x) :: indexed (N.succ i) l'
  end.

(** [Object.entries(v)] for a [v] that is neither [null] nor
    [undefined]. *)
Definition Object_entries (v : json) : list (string * json) :=
  match v with
  | JObj props => props
  | JArr items => indexed 0 items
  | JStr s => indexed 0 (map JStr (chars s))
  | JNull | JBool _ | JNum _ => []
  end.

End JS.

(** ** The JSON text codec: [JSON.stringify] and [JSON.parse] *)

Module JSON.
Import JS.

Definition backslash : ascii := "092"%char.

Definition hex_digit (n : N) : ascii :=
  if (n <? 10)%N then ascii_of_N (48 + n) else ascii_of_N (87 + n).

Definition hex_val (c : ascii) : option N :=
  let n := N_of_ascii c in
  if (48 <=? n)%N && (n <=? 57)%N then Some (n - 48)%N
  else if (97 <=? n)%N && (n <=? 102)%N then Some (n - 87)%N
  else if (65 <=? n)%N && (n <=? 70)%N then Some (n - 55)%N
  else None.

(** *** Writing *)

(** One character of a quoted string (QuoteJSONString). *)
Definition escape_char (c : ascii) : string :=
  let n := N_of_ascii c in
  if Ascii.eqb c dquote then String backslash (String dquote "")
  else if Ascii.eqb c backslash then String backslash (String backslash "")
  else if (n =? 8)%N then String backslash "b"
  else if (n =? 9)%N then String backslash "t"
  else if (n =? 10)%N then String backslash "n"
  else if (n =? 12)%N then String backslash "f"
  else if (n =? 13)%N then String backslash "r"
  else if (n <? 32)%N then
    String backslash
      (String "u" (String "0" (String "0"
         (String (hex_digit (n / 16)) (String (hex_digit (n mod 16)) "")))))
  else String c "".

Fixpoint escape (s : string) : string :=
  match s with
  | EmptyString => ""
  | String c s' => escape_char c +:+ escape s'
  end.

Definition quote (s : string) : string :=
  String dquote (escape s +:+ String dquote "").

(** [JSON.stringify(v)] for a value that came out of JSON: no [undefined],
    no functions, no cycles, so the result is always a string. *)
Fixpoint stringify (v : json) : string :=
  match v with
  | JNull => "null"
  | JBool true => "true"
  | JBool false => "false"
  | JNum n => Number_toString n
  | JStr s => quote s
  | JArr items => "[" +:+ join "," (List.map stringify items) +:+ "]"
  | JObj props =>
      "{" +:+
      join ","
        (List.map (fun kv => quote (fst kv) +:+ ":" +:+ stringify (snd kv))
           props)
      +:+ "}"
  end.

(** *** Reading *)

Definition is_ws (c : ascii) : bool :=
  let n := N_of_ascii c in
  (n =? 32)%N || (n =? 9)%N || (n =? 10)%N || (n =? 13)%N.

Fixpoint skip_ws (s : string) : string :=
  match s with
  | EmptyString => ""
  | String c s' => if is_ws c then skip_ws s' else s
  end.

(** [s] without its prefix [lit], when it has it. *)
Fixpoint strip_prefix (lit s : string) : option string :=
  match lit, s with
  | EmptyString, _ => Some s
  | String _ _, EmptyString => None
  | String a lit', String b s' =>
      if Ascii.eqb a b then strip_prefix lit' s' else None
  end.

(** The longest prefix of decimal digits, and the rest. *)
Fixpoint take_digits (s : string) : string * string :=
  match s with
  | EmptyString => ("", "")
  | String c s' =>
      if is_digit c
      then let (d, r) := take_digits s' in (String c d, r)
      else ("", s)
  end.

(** UTF-8 bytes of a code point below 65536. *)
Definition utf8 (cp : N) : string :=
  if (cp <? 128)%N then String (ascii_of_N cp) ""
  else if (cp <? 2048)%N then
    String (ascii_of_N (192 + cp / 64))
      (String (ascii_of_N (128 + cp mod 64)) "")
  else
    String (ascii_of_N (224 + cp / 4096))
      (String (ascii_of_N (128 + (cp / 64) mod 64))
         (String (ascii_of_N (128 + cp mod 64)) "")).

(** The characters of a string literal after its opening quote, up to the
    closing quote, with the escapes undone. *)
Fixpoint parse_chars (s : string) : option (string * string) :=
  match s with
  | EmptyString => None
  | String c s' =>
      if Ascii.eqb c dquote then Some ("", s')
      else if Ascii.eqb c backslash then
        match s' with
        | EmptyString => None
        | String e s'' =>
            let simple (x : ascii) :=
              match parse_chars s'' with
              | Some (t, r) => Some (String x t, r)
              | None => None
              end in
            if Ascii.eqb e dquote then simple dquote
            else if Ascii.eqb e backslash then simple backslash
            else if Ascii.eqb e "/" then simple "/"%char
            else if Ascii.eqb e "b" then simple "008"%char
            else if Ascii.eqb e "t" then simple "009"%char
            else if Ascii.eqb e "n" then simple "010"%char
            else if Ascii.eqb e "f" then simple "012"%char
            else if Ascii.eqb e "r" then simple "013"%char
            else if Ascii.eqb e "u" then
              match s'' with
              | String h1 (String h2 (String h3 (String h4 s4))) =>
                  match hex_val h1, hex_val h2, hex_val h3, hex_val h4,
                        parse_chars s4 with
                  | Some a, Some b, Some c', Some d, Some (t, r) =>
                      Some (utf8 (((a * 16 + b) * 16 + c') * 16 + d) +:+ t, r)
                  | _, _, _, _, _ => None
                  end
              | _ => None
              end
            else None
        end
      else if (N_of_ascii c <? 32)%N then None
      else
        match parse_chars s' with
        | Some (t, r) => Some (String c t, r)
        | None => None
        end
  end.

(** The number with integer digits and decimals [ds] (the last [k] of
    them decimals), sign [neg] and exponent [e]. The numeral is kept as
    it is written; the engine rounds it to the nearest double, which
    shows in the text of a number only beyond 15 significant digits or
    outside the magnitudes written positionally. The statements that
    read numbers out of a text and write them again are made for the
    numbers within. *)
Definition make_number (neg : bool) (ds : string) (k : nat) (e : Z) : number :=
  let m := Z.of_N (digits_value 0 ds) in
  let m := if neg then (- m)%Z else m in
  let shift := (Z.of_nat k - e)%Z in
  normalise
    (if (shift <=? 0)%Z then Num (m * 10 ^ (- shift)) 0
     else Num m (Z.to_nat shift)).

(** [s] without its first character, when that is [c]. *)
Definition eat (c : ascii) (s : string) : option string :=
  match s with
  | EmptyString => None
  | String c' r => if Ascii.eqb c c' then Some r else None
  end.

(** A digit sequence that is not empty. *)
Definition some_digits (s : string) : option (string * string) :=
  match take_digits s with
  | (EmptyString, _) => None
  | (d, r) => Some (d, r)
  end.

(** The fraction: a point and digits, or nothing. *)
Definition parse_frac (s : string) : option (string * string) :=
  match eat "." s with
  | Some r => some_digits r
  | None => Some ("", s)
  end.

(** The exponent: e or E, a sign, digits; or nothing. *)
Definition parse_exp (s : string) : option (Z * string) :=
  match s with
  | EmptyString => Some (0%Z, s)
  | String c r =>
      if Ascii.eqb c "e" || Ascii.eqb c "E" then
        let (eneg, r1) :=
          match eat "-" r, eat "+" r with
          | Some r1, _ => (true, r1)
          | None, Some r1 => (false, r1)
          | None, None => (false, r)
          end in
        match some_digits r1 with
        | None => None
        | Some (ed, r2) =>
            let e := Z.of_N (digits_value 0 ed) in
            Some (if eneg then (- e)%Z else e, r2)
        end
      else Some (0%Z, s)
  end.

(** Integer digits without a leading zero, unless they are just "0". *)
Definition leading_zero (ip : string) : bool :=
  match ip with
  | String c (String _ _) => Ascii.eqb c "0"
  | _ => false
  end.

(** A JSON number: [-]? int frac? exp?, where int has no leading zero. *)
Definition parse_number (s : string) : option (number * string) :=
  let (neg, s1) :=
    match eat "-" s with
    | Some r => (true, r)
    | None => (false, s)
    end in
  match some_digits s1 with
  | None => None
  | Some (ip, s2) =>
      if leading_zero ip then None
      else
        match parse_frac s2 with
        | None => None
        | Some (fp, s3) =>
            match parse_exp s3 with
            | None => None
            | Some (e, s4) =>
                Some (make_number neg (ip +:+ fp) (String.length fp) e, s4)
            end
        end
  end.

(** The array index a property key spells, if it spells one: the
    numeral, without leading zeros, of a number below 2^32 - 1. *)
Definition index_of (k : string) : option N :=
  let n := digits_value 0 k in
  if String.eqb (digits n) k && (n <? 4294967295)%N then Some n else None.

Definition has_key (k : string) (l : list (string * json)) : bool :=
  existsb (String.eqb k) (keys l).

Fixpoint replace (k : string) (v : json) (l : list (string * json))
  : list (string * json) :=
  match l with
  | [] => []
  | (k', v') :: l' =>
      if String.eqb k k' then (k, v) :: l' else (k', v') :: replace k v l'
  end.

(** The place of a new index key: after the smaller indices. *)
Fixpoint insert_index (i : N) (k : string) (v : json)
    (l : list (string * json)) : list (string * json) :=
  match l with
  | [] => [(k, v)]
  | (k', v') :: l' =>
      match index_of k' with
      | Some j =>
          if (j <? i)%N then (k', v') :: insert_index i k v l'
          else (k, v) :: l
      | None => (k, v) :: l
      end
  end.

(** Defining property [k] on an object under construction. A key that
    is there keeps its place and takes the new value; a new array index
    goes among the indices, in ascending order; any other new key goes
    last. This keeps the properties in the order [Object.entries]
    enumerates them. *)
Definition obj_set (k : string) (v : json) (l : list (string * json))
  : list (string * json) :=
  if has_key k l then replace k v l
  else
    match index_of k with
    | Some i => insert_index i k v l
    | None => (l ++ [(k, v)])%list
    end.

(** A value, then the rest of the text. Each call takes one unit of
    [fuel]; a call reads at least one character before the next. *)
Fixpoint parse_value (fuel : nat) (s : string) : option (json * string) :=
  match fuel with
  | O => None
  | S fuel' =>
      match skip_ws s with
      | EmptyString => None
      | String c r =>
          if Ascii.eqb c "n" then
            option_map (pair JNull) (strip_prefix "ull" r)
          else if Ascii.eqb c "t" then
            option_map (pair (JBool true)) (strip_prefix "rue" r)
          else if Ascii.eqb c "f" then
            option_map (pair (JBool false)) (strip_prefix "alse" r)
          else if Ascii.eqb c dquote then
            match parse_chars r with
            | Some (t, r') => Some (JStr t, r')
            | None => None
            end
          else if Ascii.eqb c "[" then
            match eat "]" (skip_ws r) with
            | Some r' => Some (JArr [], r')
            | None => parse_elements fuel' r []
            end
          else if Ascii.eqb c "{" then
            match eat "}" (skip_ws r) with
            | Some r' => Some (JObj [], r')
            | None => parse_members fuel' r []
            end
          else
            match parse_number (String c r) with
            | Some (n, r') => Some (JNum n, r')
            | None => None
            end
      end
  end

(** The elements of an array after [acc] (held in reverse). *)
with parse_elements (fuel : nat) (s : string) (acc : list json)
  : option (json * string) :=
  match fuel with
  | O => None
  | S fuel' =>
      match parse_value fuel' s with
      | None => None
      | Some (v, r) =>
          match eat "," (skip_ws r), eat "]" (skip_ws r) with
          | Some r', _ => parse_elements fuel' r' (v :: acc)
          | None, Some r' => Some (JArr (rev (v :: acc)), r')
          | None, None => None
          end
      end
  end

(** The members of an object after [acc]. *)
with parse_members (fuel : nat) (s : string) (acc : list (string * json))
  : option (json * string) :=
  match fuel with
  | O => None
  | S fuel' =>
      match eat dquote (skip_ws s) with
      | None => None
      | Some r =>
          match parse_chars r with
          | None => None
          | Some (k, r1) =>
              match eat ":" (skip_ws r1) with
              | None => None
              | Some r2 =>
                  match parse_value fuel' r2 with
                  | None => None
                  | Some (v, r3) =>
                      match eat "," (skip_ws r3), eat "}" (skip_ws r3) with
                      | Some r4, _ =>
                          parse_members fuel' r4 (obj_set k v acc)
                      | None, Some r4 => Some (JObj (obj_set k v acc), r4)
                      | None, None => None
                      end
                  end
              end
          end
      end
  end.

(** [JSON.parse(text)]: the value, or [None] for a SyntaxError. *)
Definition parse (text : string) : option json :=
  match parse_value (2 * String.length text + 1) text with
  | Some (v, r) =>
      match skip_ws r with
      | EmptyString => Some v
      | _ => None
      end
  | None => None
  end.

End JSON.

(** ** The browser: files, observable effects, session storage *)

Module Browser.
Import JS.

(** A [File]: name, size in bytes, content. *)
Record File := { name : string; size : N; content : string }.

Inductive level := Log | Warn | Error.

(** An argument of a console call. *)
Inductive logarg :=
| AStr (s : string)
| AInt (z : Z)
| AJson (v : json)
| AErr (message : string).

(** What the page does that the outside can observe. *)
Inductive event :=
| Alert (message : string)
| Console (l : level) (args : list logarg)
| Fetch (method url : string) (form : list (string * File))
| SetItem (key value : string)
| Navigate (href : string)
| SetTimeout (callback : string) (delay : Z).

(** What outlives a page: the session storage; and the trace of events,
    oldest first. *)
Record env := Env { storage : gmap string string; trace : list event }.

(** A page's world contains the environment. *)
Class Page (S : Type) := {
  env_of : S -> env;
  with_env : env -> S -> S
}.

Section Effects.
Context {S : Type} `{Page S}.

Definition emit (e : event) (w : S) : S :=
  with_env (Env (storage (env_of w)) (trace (env_of w) ++ [e])) w.

Definition alert (message : string) : S -> S := emit (Alert message).

Definition console (l : level) (args : list logarg) : S -> S :=
  emit (Console l args).

(** [window.location.href = href] *)
Definition navigate (href : string) : S -> S := emit (Navigate href).

(** [setTimeout(callback, delay)] *)
Definition setTimeout (callback : string) (delay : Z) : S -> S :=
  emit (SetTimeout callback delay).

(** The write of [sessionStorage.setItem(key, value)] into a storage
    that takes it. *)
Definition setItem (key value : string) (w : S) : S :=
  emit (SetItem key value)
    (with_env (Env (<[key := value]> (storage (env_of w)))
                   (trace (env_of w))) w).

(** [sessionStorage.getItem(key)]; [None] is [null]. *)
Definition getItem (key : string) (w : S) : option string :=
  storage (env_of w) !! key.

(** Statements that change the world and may throw. *)
Definition M (A : Type) : Type := S -> S * completion A.

Definition ret {A} (a : A) : M A := fun w => (w, Normal a).

Definition throw {A} (message : string) : M A := fun w => (w, Throw message).

Definition mbind {A B} (m : M A) (k : A -> M B) : M B :=
  fun w =>
    match m w with
    | (w', Normal a) => k a w'
    | (w', Throw e) => (w', Throw e)
    end.

(** A statement that cannot throw. *)
Definition exec (f : S -> S) : M unit := fun w => (f w, Normal tt).

(** An expression that reads no state. *)
Definition eval {A} (c : completion A) : M A := fun w => (w, c).

(** [sessionStorage.setItem(key, value)]: the write, or the
    QuotaExceededError of a storage that does not take it; nothing is
    written then. *)
Definition sessionStorage_setItem (E : Engine) (key value : string) : M unit :=
  fun w =>
    match storage_error E (storage (env_of w)) key value with
    | Some message => (w, Throw message)
    | None => (setItem key value w, Normal tt)
    end.

(** [try { body } catch (error) { handler(error.message) }] *)
Definition try_catch (body : M unit) (handler : string -> S -> S) : S -> S :=
  fun w =>
    match body w with
    | (w', Normal _) => w'
    | (w', Throw e) => handler e w'
    end.

End Effects.

Notation "x <- m ;; k" := (mbind m (fun x => k))
  (at level 100, m at next level, right associativity).
Notation "m ;;; k" := (mbind m (fun _ => k))
  (at level 100, right associativity).

(** *** Reading the trace *)

Definition is_fetch (e : event) : bool :=
  match e with Fetch _ _ _ => true | _ => false end.

Definition is_setItem (e : event) : bool :=
  match e with SetItem _ _ => true | _ => false end.

Definition navigations (t : list event) : list string :=
  omap (fun e => match e with Navigate h => Some h | _ => None end) t.

Definition alerts (t : list event) : list string :=
  omap (fun e => match e with Alert m => Some m | _ => None end) t.

Definition warnings (t : list event) : list (list logarg) :=
  omap (fun e => match e with Console Warn a => Some a | _ => None end) t.

End Browser.

(** ** detection.js: the Submission Controller *)

Module Detection.
Import JS Browser.

Definition API_URL : string := "http://localhost:8000".

(** The page: the module variable [selectedFile] and the properties of
    the elements the script touches. *)
Record world := World {
  selectedFile : option File;           (* null when [None] *)
  fileNameDisplay_textContent : string;
  runButton_disabled : bool;
  loadingOverlay_active : bool;         (* class "active" *)
  uploadArea_dragover : bool;           (* class "dragover" *)
  page_env : env
}.

#[export] Instance world_page : Page world := {|
  env_of := page_env;
  with_env e w :=
    World (selectedFile w) (fileNameDisplay_textContent w)
      (runButton_disabled w) (loadingOverlay_active w)
      (uploadArea_dragover w) e
|}.

Definition set_selectedFile (f : option File) (w : world) : world :=
  World f (fileNameDisplay_textContent w) (runButton_disabled w)
    (loadingOverlay_active w) (uploadArea_dragover w) (page_env w).

Definition set_fileNameDisplay (t : string) (w : world) : world :=
  World (selectedFile w) t (runButton_disabled w)
    (loadingOverlay_active w) (uploadArea_dragover w) (page_env w).

Definition set_runButton_disabled (b : bool) (w : world) : world :=
  World (selectedFile w) (fileNameDisplay_textContent w) b
    (loadingOverlay_active w) (uploadArea_dragover w) (page_env w).

Definition set_loadingOverlay_active (b : bool) (w : world) : world :=
  World (selectedFile w) (fileNameDisplay_textContent w)
    (runButton_disabled w) b (uploadArea_dragover w) (page_env w).

Definition set_uploadArea_dragover (b : bool) (w : world) : world :=
  World (selectedFile w) (fileNameDisplay_textContent w)
    (runButton_disabled w) (loadingOverlay_active w) b (page_env w).

(** [(size / 1024 / 1024).toFixed(2)]: the two divisions are exact, and
    [toFixed] rounds the exact value, a tie going up. *)
Definition size_MB (bytes : N) : string :=
  let hundredths := ((2 * 100 * bytes + 1048576) / (2 * 1048576))%N in
  print_number (Num (Z.of_N hundredths) 2).

(** 50 MB in bytes *)
Definition maxSize : N := 50 * 1024 * 1024.

Definition validateAndDisplayFile (file : File) (w : world) : world :=
  if negb (endsWith (toLowerCase (name file)) ".dcm") then
    alert "Please select a DICOM (.dcm) file" w
  else if (maxSize <? size file)%N then
    alert "File size exceeds 50 MB limit" w
  else
    let w := set_selectedFile (Some file) w in
    let w := set_fileNameDisplay ("Selected: " +:+ name file) w in
    let w := set_runButton_disabled false w in
    console Log [AStr "File selected:"; AStr (name file);
                 AStr ("(" +:+ size_MB (size file) +:+ " MB)")] w.

(** [event.target.files] of the change event. *)
Definition handleFileSelect (files : list File) (w : world) : world :=
  match files with
  | file :: _ => validateAndDisplayFile file w
  | [] => w
  end.

Definition handleDragOver (w : world) : world :=
  set_uploadArea_dragover true w.

Definition handleDragLeave (w : world) : world :=
  set_uploadArea_dragover false w.

(** [event.dataTransfer.files] of the drop event. *)
Definition handleDrop (files : list File) (w : world) : world :=
  let w := set_uploadArea_dragover false w in
  match files with
  | file :: _ => validateAndDisplayFile file w
  | [] => w
  end.

Definition showLoading (w : world) : world :=
  set_loadingOverlay_active true w.

Definition hideLoading (w : world) : world :=
  set_loadingOverlay_active false w.

(** What the network gives back for the request. *)
Record Response := { status : Z; body : string }.

(** [response.ok] *)
Definition ok (r : Response) : bool :=
  (200 <=? status r)%Z && (status r <=? 299)%Z.

Inductive fetch_outcome :=
| Rejected (message : string)     (* the promise rejects: no response *)
| Responded (r : Response).

(** [runDetection] runs up to [await fetch(...)] and is resumed with the
    outcome. *)
Inductive step :=
| Done (w : world)
| AwaitFetch (w : world).

Definition runDetection_start (w : world) : step :=
  match selectedFile w with
  | None => Done (alert "Please select a DICOM file" w)
  | Some file =>
      let w := set_runButton_disabled true w in
      let w := showLoading w in
      let w := console Log [AStr "Sending request to API..."] w in
      AwaitFetch (emit (Fetch "POST" (API_URL +:+ "/predict")
                          [("file", file)]) w)
  end.

Section Resume.
Variable E : Engine.

(** [await response.json()] *)
Definition response_json (r : Response) : completion json :=
  match JSON.parse (body r) with
  | Some v => Normal v
  | None => Throw (msg_json_syntax E (body r))
  end.

(** The [try] block from the point where [fetch] settles. *)
Definition try_block (o : fetch_outcome) : M unit :=
  match o with
  | Rejected message => throw message
  | Responded response =>
      exec (console Log [AStr "Response status:"; AInt (status response)]) ;;;
      if negb (ok response) then
        errorData <- eval (response_json response) ;;
        detail <- eval (get E errorData "detail") ;;
        throw (ToString (or_else detail (JStr "Prediction failed")))
      else
        result <- eval (response_json response) ;;
        exec (console Log [AStr "Detection result:"; AJson result]) ;;;
        sessionStorage_setItem E "detectionResult" (JSON.stringify result) ;;;
        exec (navigate "results.html")
  end.

(** The [catch] block; [message] is [error.message]. *)
Definition catch_block (message : string) (w : world) : world :=
  let w := console Error [AStr "Error:"; AErr message] w in
  let w := hideLoading w in
  let w := set_runButton_disabled false w in
  let errorMessage := "An error occurred during detection. " in
  let errorMessage :=
    if includes message "Failed to fetch" then
      errorMessage +:+
      "Please ensure the backend server is running on http://localhost:8000"
    else errorMessage +:+ message in
  alert errorMessage w.

Definition runDetection_resume (o : fetch_outcome) (w : world) : world :=
  try_catch (try_block o) catch_block w.

(** A whole run, when nothing else happens on the page while the request
    is in flight. *)
Definition runDetection (o : fetch_outcome) (w : world) : world :=
  match runDetection_start w with
  | Done w' => w'
  | AwaitFetch w' => runDetection_resume o w'
  end.

End Resume.

End Detection.

(** ** results-multimodel.js: the Result Renderer *)

Module Results.
Import JS Browser.

Definition API_URL : string := "http://localhost:8000".
Definition DETECTION_THRESHOLD : number := num_of_Z 50.

Record config := Config {
  title : string;
  badge : string;
  description : string
}.

(** Model display configuration, as [Object.entries] enumerates it. *)
Definition MODEL_CONFIG : list (string * config) :=
  [ ("model_a", Config "EfficientNet V2" "Primary" "First detection model");
    ("model_b", Config "ConvNext" "Secondary" "Second detection model");
    ("model_c", Config "Hybrid Model" "Validation" "Third detection model") ].

(** *** What a card shows

    [renderModelCard] returns the text of an HTML template; a card is
    that template with the value of each of its holes. *)

Inductive headline :=
| HemorrhageDetected        (* class "detected", "Hemorrhage Detected" *)
| NoHemorrhageDetected.     (* class "no-detection", "No Hemorrhage
                               Detected", and the line "No significant
                               hemorrhage detected above 50% threshold" *)

Record score_row := Row {
  row_label : string;
  row_flagged : bool;       (* the warning marker and the bar's class *)
  row_width : number;       (* the bar's data-width *)
  row_value : string        (* confidence.toFixed(1) *)
}.

Record card := Card {
  card_ensemble : bool;                (* class "ensemble" *)
  card_title : string;
  card_badge : string;
  card_headline : headline;
  card_detected : list string;         (* one badge per detected label *)
  card_rows : list score_row
}.

(** The page: the properties of the three elements the script writes. *)
Record world := World {
  original_image_src : string;
  processed_image_src : string;
  model_comparison_innerHTML : list card;
  page_env : env
}.

#[export] Instance world_page : Page world := {|
  env_of := page_env;
  with_env e w :=
    World (original_image_src w) (processed_image_src w)
      (model_comparison_innerHTML w) e
|}.

Definition set_original_image_src (u : string) (w : world) : world :=
  World u (processed_image_src w) (model_comparison_innerHTML w) (page_env w).

Definition set_processed_image_src (u : string) (w : world) : world :=
  World (original_image_src w) u (model_comparison_innerHTML w) (page_env w).

Definition set_model_comparison_innerHTML (h : list card) (w : world) : world :=
  World (original_image_src w) (processed_image_src w) h (page_env w).

(** *** Sorting *)

(** [Array.prototype.sort(cmp)] for a consistent comparator: a stable
    sort, here by insertion ([sorted_stable_unique] shows that every
    stable sort returns the same list). [cmp x y > 0] asks for [y]
    before [x]. *)
Section Sort.
Context {A : Type} (cmp : A -> A -> number).

Fixpoint insert_sorted (x : A) (l : list A) : list A :=
  match l with
  | [] => [x]
  | y :: l' =>
      if num_pos (cmp x y) then y :: insert_sorted x l' else x :: y :: l'
  end.

Fixpoint sort (l : list A) : list A :=
  match l with
  | [] => []
  | x :: l' => insert_sorted x (sort l')
  end.

End Sort.

(** *** Coercions in [detected.length > 0] *)

(** [StrWhiteSpaceChar]: the white space and the line terminators of
    the language, as UTF-8 takes one, two or three bytes for them. *)
Definition ws1 (c : ascii) : bool :=
  let n := N_of_ascii c in
  (n =? 9)%N || (n =? 10)%N || (n =? 11)%N || (n =? 12)%N || (n =? 13)%N ||
  (n =? 32)%N.

(** U+00A0 *)
Definition ws2 (a b : ascii) : bool :=
  (N_of_ascii a =? 194)%N && (N_of_ascii b =? 160)%N.

(** U+1680, U+2000 to U+200A, U+2028, U+2029, U+202F, U+205F, U+3000,
    U+FEFF *)
Definition ws3 (a b c : ascii) : bool :=
  let a := N_of_ascii a in
  let b := N_of_ascii b in
  let c := N_of_ascii c in
  ((a =? 225)%N && (b =? 154)%N && (c =? 128)%N) ||
  ((a =? 226)%N && (b =? 128)%N &&
   (((128 <=? c)%N && (c <=? 138)%N) || (c =? 168)%N || (c =? 169)%N ||
    (c =? 175)%N)) ||
  ((a =? 226)%N && (b =? 129)%N && (c =? 159)%N) ||
  ((a =? 227)%N && (b =? 128)%N && (c =? 128)%N) ||
  ((a =? 239)%N && (b =? 187)%N && (c =? 191)%N).

(** [s] without the white space it starts with. *)
Fixpoint skip_str_ws (s : string) : string :=
  match s with
  | EmptyString => ""
  | String a s1 =>
      if ws1 a then skip_str_ws s1
      else
        match s1 with
        | EmptyString => s
        | String b s2 =>
            if ws2 a b then skip_str_ws s2
            else
              match s2 with
              | EmptyString => s
              | String c s3 => if ws3 a b c then skip_str_ws s3 else s
              end
        end
  end.

(** [s] without the white space it ends with. *)
Fixpoint drop_str_ws (s : string) : string :=
  match s with
  | EmptyString => ""
  | String a s' =>
      match skip_str_ws s with
      | EmptyString => ""
      | String _ _ => String a (drop_str_ws s')
      end
  end.

Definition trim (s : string) : string := drop_str_ws (skip_str_ws s).

Fixpoint all_chars (p : ascii -> bool) (s : string) : bool :=
  match s with
  | EmptyString => true
  | String c s' => p c && all_chars p s'
  end.

(** The digits of [0b], [0o] and [0x] literals. *)
Definition is_bin (c : ascii) : bool :=
  Ascii.eqb c "0" || Ascii.eqb c "1".

Definition is_oct (c : ascii) : bool :=
  let n := N_of_ascii c in (48 <=? n)%N && (n <=? 55)%N.

Definition is_hex (c : ascii) : bool :=
  let n := N_of_ascii c in
  is_digit c || ((65 <=? n)%N && (n <=? 70)%N) ||
  ((97 <=? n)%N && (n <=? 102)%N).

(** A literal with a radix prefix is positive when it has digits, all of
    its radix, and one of them is not 0. *)
Definition radix_gt0 (digit : ascii -> bool) (ds : string) : bool :=
  negb (String.eqb ds "") && all_chars digit ds &&
  negb (all_chars (Ascii.eqb "0") ds).

(** [ExponentPart], or nothing: its value, when the text is one. *)
Definition exponent (s : string) : option Z :=
  match s with
  | EmptyString => Some 0%Z
  | String c s' =>
      if Ascii.eqb c "e" || Ascii.eqb c "E" then
        let '(negative, ds) :=
          match s' with
          | String "+" r => (false, r)
          | String "-" r => (true, r)
          | _ => (false, s')
          end in
        if negb (String.eqb ds "") && all_chars is_digit ds then
          let e := Z.of_N (digits_value 0 ds) in
          Some (if negative then (- e)%Z else e)
        else None
      else None
  end.

(** [m * 10 ^ e] is positive as a double: it is above half of the least
    positive double, 2 ^ -1074 (a tie goes to zero, the even one). *)
Definition decimal_gt0 (m : N) (e : Z) : bool :=
  (0 <? m)%N &&
  ((0 <=? e)%Z || (10 ^ (- e) <? Z.of_N m * 2 ^ 1075)%Z).

(** [StrUnsignedDecimalLiteral]: [Infinity], or digits with an optional
    point and an optional exponent, at least one digit before the
    exponent. *)
Definition unsigned_gt0 (s : string) : bool :=
  if String.eqb s "Infinity" then true
  else
    let (ip, r1) := JSON.take_digits s in
    let '(fp, r2) :=
      match r1 with
      | String "." r => JSON.take_digits r
      | _ => ("", r1)
      end in
    if String.eqb ip "" && String.eqb fp "" then false
    else
      match exponent r2 with
      | Some e =>
          decimal_gt0 (digits_value 0 (ip +:+ fp))
            (e - Z.of_nat (String.length fp))
      | None => false
      end.

(** [ToNumber(s) > 0] for a string: [StringNumericLiteral], white space
    around it; the empty literal is 0 and any other text is NaN. *)
Definition string_gt0 (s : string) : bool :=
  match trim s with
  | String "0" (String "b" ds) | String "0" (String "B" ds) =>
      radix_gt0 is_bin ds
  | String "0" (String "o" ds) | String "0" (String "O" ds) =>
      radix_gt0 is_oct ds
  | String "0" (String "x" ds) | String "0" (String "X" ds) =>
      radix_gt0 is_hex ds
  | String "+" t => unsigned_gt0 t
  | String "-" _ => false
  | t => unsigned_gt0 t
  end.

(** [v > 0] *)
Definition gt0 (v : jsval) : bool :=
  match v with
  | None | Some JNull | Some (JObj _) => false
  | Some (JBool b) => b
  | Some (JNum n) => num_pos n
  | Some (JStr s) => string_gt0 s
  | Some (JArr items) => string_gt0 (ToString (JArr items))
  end.

(** *** Rendering *)

(** [x.toFixed(1)]: the nearest tenth of the exact value, a tie going
    away from zero; from 1e21 on, [ToString(x)]. *)
Definition toFixed1 (x : number) : string :=
  let a := Z.abs (mant x) in
  if (10 ^ 21 * pow10 (scale x) <=? a)%Z then Number_toString x
  else
    let tenths :=
      ((2 * 10 * a + pow10 (scale x)) / (2 * pow10 (scale x)))%Z in
    (if (mant x <? 0)%Z then "-" else "") +:+ print_number (Num tenths 1).

Section Render.
Variable E : Engine.

(** One element of [sortedConfidences.map(...)]. *)
Definition render_row (entry : string * number) : score_row :=
  let '(label, confidence) := entry in
  let isDetected := num_geb confidence DETECTION_THRESHOLD in
  Row label isDetected confidence (toFixed1 confidence).

(** The entries whose values are all numbers; the first value that is
    not a number otherwise. *)
Fixpoint numeric_entries (l : list (string * json))
  : json + list (string * number) :=
  match l with
  | [] => inr []
  | (k, JNum n) :: l' =>
      match numeric_entries l' with
      | inr r => inr ((k, n) :: r)
      | inl bad => inl bad
      end
  | (_, bad) :: _ => inl bad
  end.

(** The score rows. [toFixed] exists on numbers only, so one value that
    is not a number makes the template throw; sorting comes first in the
    script but shows nothing before the throw. *)
Definition render_rows (confidences : json) : completion (list score_row) :=
  match numeric_entries (Object_entries confidences) with
  | inr entries =>
      (* Sort confidences by value (highest first) *)
      let sortedConfidences :=
        sort (fun a b => num_sub (snd b) (snd a)) entries in
      Normal (map render_row sortedConfidences)
  | inl JNull => Throw (msg_read_nullish E "null" "toFixed")
  | inl _ => Throw (msg_not_function E "confidence.toFixed")
  end.

(** [detected.map(label => badge)] *)
Definition render_badges (detected : json) : completion (list string) :=
  match detected with
  | JArr labels => Normal (map ToString labels)
  | _ => Throw (msg_not_function E "detected.map")
  end.

Definition renderModelCard (modelKey : string) (modelData : json)
    (cfg : config) : completion card :=
  try! d := get E modelData "detected" in
  let detected := or_else d (JArr []) in
  try! c := get E modelData "confidences" in
  let confidences := or_else c (JObj []) in
  let isEnsemble := String.eqb modelKey "ensemble" in
  try! len := get E detected "length" in
  if gt0 len then
    try! badges := render_badges detected in
    try! rows := render_rows confidences in
    Normal (Card isEnsemble (title cfg) (badge cfg) HemorrhageDetected
              badges rows)
  else
    try! rows := render_rows confidences in
    Normal (Card isEnsemble (title cfg) (badge cfg) NoHemorrhageDetected
              [] rows).

(** Display original and processed images *)
Definition displayImages (results : json) : M unit :=
  o <- eval (get E results "original_image") ;;
  exec (set_original_image_src (API_URL +:+ ToString_val o)) ;;;
  p <- eval (get E results "processed_image") ;;
  exec (set_processed_image_src (API_URL +:+ ToString_val p)).

(** The loop over [Object.entries(MODEL_CONFIG)], from [html] on. *)
Fixpoint render_each (predictions : jsval) (entries : list (string * config))
    (html : list card) : M (list card) :=
  match entries with
  | [] => ret html
  | (modelKey, cfg) :: rest =>
      modelData <- eval (get_val E predictions modelKey) ;;
      match modelData with
      | Some data =>
          if negb (truthy data) then
            exec (console Warn [AStr ("No data for " +:+ modelKey)]) ;;;
            render_each predictions rest html
          else
            c <- eval (renderModelCard modelKey data cfg) ;;
            render_each predictions rest (html ++ [c])
      | None =>
          exec (console Warn [AStr ("No data for " +:+ modelKey)]) ;;;
          render_each predictions rest html
      end
  end.

(** Display all model predictions in comparison grid *)
Definition displayModelComparison (results : json) : M unit :=
  predictions <- eval (get E results "predictions") ;;
  html <- render_each predictions MODEL_CONFIG [] ;;
  exec (set_model_comparison_innerHTML html) ;;;
  (* Animate score bars after render *)
  exec (setTimeout "animateScoreBars" 100).

Definition parse_results (resultsJson : string) : completion json :=
  match JSON.parse resultsJson with
  | Some v => Normal v
  | None => Throw (msg_json_syntax E resultsJson)
  end.

(** Initialize results page *)
Definition init (w : world) : world :=
  match getItem "detectionResult" w with
  | None | Some EmptyString =>
      let w :=
        alert "No detection results found. Please upload a DICOM file first."
          w in
      navigate "detection.html" w
  | Some resultsJson =>
      try_catch
        (results <- eval (parse_results resultsJson) ;;
         exec (console Log [AStr "Loaded multi-model results:";
                            AJson results]) ;;;
         displayImages results ;;;
         displayModelComparison results)
        (fun message w =>
           let w := console Error [AStr "Error parsing results:";
                                   AErr message] w in
           let w := alert "Error loading results. Please try again." w in
           navigate "detection.html" w)
        w
  end.

End Render.

End Results.

(** ** The vocabulary of the statements *)

(** *** JSON text and well-formed values *)

Module JSONSpec.
Import JS JSON.

(** Every character is a decimal digit. *)
Fixpoint all_digits (s : string) : bool :=
  match s with
  | EmptyString => true
  | String c s' => is_digit c && all_digits s'
  end.

(** The text does not go on with a digit. *)
Definition no_digit_ahead (s : string) : bool :=
  match s with
  | EmptyString => true
  | String c _ => negb (is_digit c)
  end.

(** The text does not go on as a number would. *)
Definition ends_number (rest : string) : bool :=
  match rest with
  | EmptyString => true
  | String c _ =>
      negb (is_digit c) && negb (Ascii.eqb c ".")
      && negb (Ascii.eqb c "e") && negb (Ascii.eqb c "E")
  end.

(** A character the text of a value can start with. *)
Definition value_start (c : ascii) : bool :=
  is_digit c || Ascii.eqb c "-" || Ascii.eqb c "n" || Ascii.eqb c "t"
  || Ascii.eqb c "f" || Ascii.eqb c dquote || Ascii.eqb c "["
  || Ascii.eqb c "{".

(** [k1] may come before [k2] in an object: indices first, ascending. *)
Definition key_before (k1 k2 : string) : Prop :=
  match index_of k1, index_of k2 with
  | Some i, Some j => (i < j)%N
  | Some _, None => True
  | None, Some _ => False
  | None, None => True
  end.

(** The keys of an object: no key twice, in enumeration order. *)
Definition wf_keys (ks : list string) : Prop :=
  NoDup ks /\ StronglySorted key_before ks.

(** The values [JSON.parse] can return: numbers canonical, keys unique
    and in enumeration order. *)
Fixpoint wf (v : json) : Prop :=
  match v with
  | JNull | JBool _ | JStr _ => True
  | JNum n => canonical n
  | JArr items =>
      (fix all (l : list json) : Prop :=
         match l with
         | [] => True
         | x :: l' => wf x /\ all l'
         end) items
  | JObj props =>
      wf_keys (keys props) /\
      (fix all (l : list (string * json)) : Prop :=
         match l with
         | [] => True
         | kv :: l' => wf (snd kv) /\ all l'
         end) props
  end.

(** Calls [parse_value] makes, at most, on the text of [v]. *)
Fixpoint cost (v : json) : nat :=
  match v with
  | JArr items =>
      S ((fix sum (l : list json) : nat :=
            match l with
            | [] => O
            | x :: l' => S (cost x + sum l')
            end) items)
  | JObj props =>
      S ((fix sum (l : list (string * json)) : nat :=
            match l with
            | [] => O
            | kv :: l' => S (cost (snd kv) + sum l')
            end) props)
  | _ => 1
  end.

(** The same for the elements of an array and the members of an
    object. *)
Definition items_cost (l : list json) : nat :=
  fold_right (fun x n => S (cost x + n)) O l.

Definition props_cost (l : list (string * json)) : nat :=
  fold_right (fun kv n => S (cost (snd kv) + n)) O l.

(** The text of one member. *)
Definition member (kv : string * json) : string :=
  quote (fst kv) +:+ ":" +:+ stringify (snd kv).

(** The text of [v], followed by anything that does not continue a
    number, reads back as [v], given fuel for the calls. *)
Definition reads_back (v : json) : Prop :=
  wf v ->
  forall fuel rest,
    (cost v <= fuel)%nat -> ends_number rest = true ->
    parse_value fuel (stringify v +:+ rest) = Some (v, rest).

End JSONSpec.

(** *** The order on scores *)

Module OrderSpec.
Import JS.

(** [a < b] as values. *)
Definition num_lt (a b : number) : Prop :=
  (mant a * pow10 (scale b) < mant b * pow10 (scale a))%Z.

(** [a <= b] as values. *)
Definition num_le (a b : number) : Prop :=
  (mant a * pow10 (scale b) <= mant b * pow10 (scale a))%Z.

Section ByScore.
Context {A : Type} (score : A -> number).

(** The comparator of [renderModelCard], for any way to read the score:
    [(a, b) => b[1] - a[1]]. *)
Definition by_score_desc (a b : A) : number := num_sub (score b) (score a).

(** [x] has score [v]. *)
Definition same_score (v : number) (x : A) : bool := num_eqb (score x) v.

(** [x] may come before [y] in descending order. *)
Definition desc (x y : A) : Prop := num_le (score y) (score x).

End ByScore.

End OrderSpec.

(** *** States of the submission page *)

Module DetectionSpec.
Import JS Browser Detection.

(** The fixed opening of every message [catch_block] shows. *)
Definition prefix : string := "An error occurred during detection. ".

(** The guidance shown for an unreachable backend. *)
Definition guidance : string :=
  "Please ensure the backend server is running on http://localhost:8000".

(** The state in which the user can submit again. *)
Definition retryable (file : File) (w : world) : Prop :=
  selectedFile w = Some file /\
  loadingOverlay_active w = false /\
  runButton_disabled w = false.

(** What the [try] block throws on a response that is not ok. *)
Definition error_message (E : Engine) (r : Response) : string :=
  match response_json E r with
  | Throw m => m
  | Normal errorData =>
      match get E errorData "detail" with
      | Throw m => m
      | Normal detail => ToString (or_else detail (JStr "Prediction failed"))
      end
  end.

End DetectionSpec.

(** *** Payloads and states of the results page *)

Module ResultsSpec.
Import JS Browser Results.

(** An object whose values are the given numbers. *)
Definition scores (entries : list (string * number)) : list (string * json) :=
  map (fun e => (fst e, JNum (snd e))) entries.

(** What a row shows of its entry. *)
Definition shown (r : score_row) : string * number := (row_label r, row_width r).

(** [v.length] for a [v] that is not [null]. *)
Definition own_length (v : json) : jsval :=
  match v with
  | JArr items => Some (JNum (num_of_Z (Z.of_nat (length items))))
  | JStr s => Some (JNum (num_of_Z (Z.of_nat (String.length s))))
  | JObj props => assoc "length" props
  | JNull | JBool _ | JNum _ => None
  end.

(** The headline as a function of the [detected] field alone. *)
Definition headline_from (detected : jsval) : headline :=
  if gt0 (own_length (or_else detected (JArr [])))
  then HemorrhageDetected else NoHemorrhageDetected.

(** A Source Result with one detected label. *)
Definition source (label : string) (score : Z) : json :=
  JObj [("detected", JArr [JStr label]);
        ("confidences", JObj (scores [(label, Num score 0)]))].

(** A payload with all four sources, the ensemble first. *)
Definition four_sources : json :=
  JObj [("predictions",
         JObj [("ensemble", source "Epidural" 90);
               ("model_c", source "Epidural" 70);
               ("model_b", source "Epidural" 80);
               ("model_a", source "Epidural" 95)]);
        ("original_image", JStr "/img/o.png");
        ("processed_image", JStr "/img/p.png")].

(** The results page as it loads, with [payload] in the storage slot. *)
Definition loading (payload : string) : world :=
  World "" "" [] (Env {[ "detectionResult" := payload ]} []).

(** A payload with the two images and no predictions. *)
Definition images_only : json :=
  JObj [("original_image", JStr "/img/o.png");
        ("processed_image", JStr "/img/p.png")].

(** Nothing was rendered and nothing stored between [w] and [w']. *)
Definition untouched (w w' : world) : Prop :=
  original_image_src w' = original_image_src w /\
  processed_image_src w' = processed_image_src w /\
  model_comparison_innerHTML w' = model_comparison_innerHTML w /\
  storage (env_of w') = storage (env_of w).

(** No alert and no navigation between [w] and [w']. *)
Definition quiet (w w' : world) : Prop :=
  alerts (trace (env_of w')) = alerts (trace (env_of w)) /\
  navigations (trace (env_of w')) = navigations (trace (env_of w)).

(** The two ways a load that finds a payload can end. *)
Inductive load_end (w w' : world) : Prop :=
| Rendered : quiet w w' -> load_end w w'
| Redirected (w1 : world) (message : string) :
    quiet w w1 ->
    w' = navigate "detection.html"
           (alert "Error loading results. Please try again."
              (console Error [AStr "Error parsing results:"; AErr message]
                 w1)) ->
    load_end w w'.

(** The payload of the end-to-end example: one source, two images. *)
Definition example_payload : json :=
  JObj [("predictions",
         JObj [("model_a",
                JObj [("detected", JArr [JStr "Epidural"]);
                      ("confidences",
                       JObj [("Epidural", JNum (Num 81 0))])])]);
        ("original_image", JStr "/img/o.png");
        ("processed_image", JStr "/img/p.png")].

End ResultsSpec.

(** *** The handoff between the two pages *)

Module HandoffSpec.
Import JS Browser.

Fixpoint skip_zeros (s : string) : string :=
  match s with
  | String "0" s' => skip_zeros s'
  | _ => s
  end.

(** The number of digits of [m] that count: those before the zeros that
    end it. *)
Definition significant (m : Z) : nat :=
  String.length (skip_zeros (String.rev (digits (Z.abs_N m)))).

(** The numbers on which the model's numerals are the engine's. With at
    most 15 significant digits a decimal names one binary64 value and is
    the shortest numeral that does, so [JSON.parse] followed by
    [Number::toString] gives its digits back; and zero and the
    magnitudes from 1e-6 to below 1e21 are written positionally. *)
Definition plain_number (n : number) : bool :=
  let n := normalise n in
  (significant (mant n) <=? 15)%nat &&
  ((mant n =? 0)%Z ||
   ((pow10 (scale n) <=? Z.abs (mant n) * 10 ^ 6)%Z &&
    (Z.abs (mant n) <? 10 ^ 21 * pow10 (scale n))%Z)).

(** No surrogate code point in the text (in UTF-8 they start with the
    byte 237 and go on with one from 160): [JSON.stringify] writes a
    surrogate that is not paired as an escape, the model as it is. *)
Fixpoint no_surrogate (s : string) : bool :=
  match s with
  | String a (String b _ as s') =>
      if (N_of_ascii a =? 237)%N && (160 <=? N_of_ascii b)%N then false
      else no_surrogate s'
  | _ => true
  end.

(** A value all of whose numbers are plain, with no surrogate in its
    strings and keys. *)
Fixpoint plain (v : json) : bool :=
  match v with
  | JNum n => plain_number n
  | JStr s => no_surrogate s
  | JArr items =>
      (fix all (l : list json) : bool :=
         match l with
         | [] => true
         | x :: l' => plain x && all l'
         end) items
  | JObj props =>
      (fix all (l : list (string * json)) : bool :=
         match l with
         | [] => true
         | (k, x) :: l' => no_surrogate k && plain x && all l'
         end) props
  | JNull | JBool _ => true
  end.

(** No numeral of the text starts with -0: none is a negative zero,
    whose sign [JSON.stringify] does not write. *)
Definition signless (text : string) : bool := negb (includes text "-0").

(** A browser whose session storage takes no write (a quota of zero, as
    in a private window of some browsers), with V8's wording. *)
Definition NoRoom : Engine := {|
  msg_read_nullish := msg_read_nullish V8;
  msg_not_function := msg_not_function V8;
  msg_json_syntax := msg_json_syntax V8;
  storage_error _ key _ :=
    Some ("Failed to execute 'setItem' on 'Storage': Setting the value of '"
          +:+ key +:+ "' exceeded the quota.")
|}.

End HandoffSpec.

(** ** Further code of the two scripts *)

(** ** detection.js: the health check, and the page as its listeners run *)

Module DetectionPage.
Import JS Browser Detection.

(** [checkBackendHealth] up to [await fetch]: the request is sent. *)
Definition checkBackendHealth_start (w : world) : world :=
  emit (Fetch "GET" (API_URL +:+ "/health") []) w.

Section Health.
Variable E : Engine.

(** The [try] block of [checkBackendHealth] from the point where [fetch]
    settles. *)
Definition health_try (o : fetch_outcome) : M unit :=
  match o with
  | Rejected message => throw message
  | Responded response =>
      if ok response then
        data <- eval (response_json E response) ;;
        exec (console Log [AStr "Backend health:"; AJson data]) ;;;
        model_loaded <- eval (get E data "model_loaded") ;;
        if negb (truthy_val model_loaded) then
          exec (console Warn [AStr "Warning: Model is not loaded on backend"])
        else ret tt
      else ret tt
  end.

(** Its [catch] block; [message] is [error.message]. *)
Definition health_catch (message : string) (w : world) : world :=
  let w := console Warn [AStr "Backend health check failed:"; AStr message]
             w in
  console Warn
    [AStr "Make sure the backend server is running on http://localhost:8000"]
    w.

Definition checkBackendHealth_resume (o : fetch_outcome) (w : world) : world :=
  try_catch (health_try o) health_catch w.

(** A whole check, when nothing else happens on the page meanwhile. *)
Definition checkBackendHealth (o : fetch_outcome) (w : world) : world :=
  checkBackendHealth_resume o (checkBackendHealth_start w).

End Health.

(** What can happen on the page once it is loaded: the events [init]
    listens to, and the settling of the requests in flight. *)
Inductive input :=
| Click_uploadArea
| Change_fileInput (files : list File)
| Dragover_uploadArea
| Dragleave_uploadArea
| Drop_uploadArea (files : list File)
| Click_runButton
| Settle_predict (o : fetch_outcome)
| Settle_health (o : fetch_outcome).

(** The page and the number of its requests that have not settled. *)
Record state := State {
  page : world;
  awaiting_predict : nat;
  awaiting_health : nat
}.

(** The DOMContentLoaded listener: [init(); checkBackendHealth();]. The
    listeners [init] registers are the cases of [handle]. *)
Definition DOMContentLoaded (w : world) : state :=
  State (checkBackendHealth_start w) 0 1.

(** One event. A click on the upload area opens the file picker, whose
    outcome is a later change event. A click on the run button is taken
    to reach [runDetection] whatever the button's state. A request can
    settle only while it is in flight, and a response comes with its
    body: no other event is taken between [await fetch] and
    [await response.json()]. *)
Definition handle (E : Engine) (i : input) (s : state) : state :=
  match i with
  | Click_uploadArea => s
  | Change_fileInput files =>
      State (handleFileSelect files (page s))
        (awaiting_predict s) (awaiting_health s)
  | Dragover_uploadArea =>
      State (handleDragOver (page s)) (awaiting_predict s) (awaiting_health s)
  | Dragleave_uploadArea =>
      State (handleDragLeave (page s)) (awaiting_predict s) (awaiting_health s)
  | Drop_uploadArea files =>
      State (handleDrop files (page s)) (awaiting_predict s) (awaiting_health s)
  | Click_runButton =>
      match runDetection_start (page s) with
      | Done w => State w (awaiting_predict s) (awaiting_health s)
      | AwaitFetch w => State w (S (awaiting_predict s)) (awaiting_health s)
      end
  | Settle_predict o =>
      match awaiting_predict s with
      | O => s
      | S n => State (runDetection_resume E o (page s)) n (awaiting_health s)
      end
  | Settle_health o =>
      match awaiting_health s with
      | O => s
      | S n =>
          State (checkBackendHealth_resume E o (page s)) (awaiting_predict s) n
      end
  end.

(** The events of a session, in order. *)
Definition run (E : Engine) (inputs : list input) (s : state) : state :=
  fold_left (fun s i => handle E i s) inputs s.

End DetectionPage.

(** ** results-multimodel.js: the colour scale and the bar animation *)

Module ResultsPage.
Import JS Browser Results.

(** Get color for confidence level, of a number. *)
Definition getConfidenceColor (confidence : number) : string :=
  if num_geb confidence DETECTION_THRESHOLD then "#ef4444"
  else if num_geb confidence (num_of_Z 30) then "#f59e0b"
  else "#10b981".

(** An element of class "model-score-bar": its data-width attribute
    ([None] when it has none) and its inline width. *)
Record bar := Bar { data_width : option string; style_width : string }.

(** What a template literal makes of [getAttribute]'s result. *)
Definition attr_text (a : option string) : string :=
  match a with
  | Some s => s
  | None => "null"
  end.

(** A timer [animateScoreBars] sets: the bar it captured, by its place
    among the bars, and the width it read. *)
Record timer := Timer { target : nat; width : option string; delay : Z }.

Section Animate.

(** The engine's CSS parser, a parameter of the model: [css_width text]
    is how [text] reads back once set as a [width] (its serialization),
    and [None] when [text] is not a value of [width] (as "null%" or a
    negative percentage). *)
Variable css_width : string -> option string.

(** [bar.style.width = text]: a text that is not a value of [width]
    changes nothing. *)
Definition set_style_width (text : string) (b : bar) : bar :=
  match css_width text with
  | Some value => Bar (data_width b) value
  | None => b
  end.

(** Animate score bars: every bar is collapsed, and a timer is set for
    it. *)
Definition animateScoreBars (bars : list bar) : list bar * list timer :=
  (map (set_style_width "0%") bars,
   imap (fun i b => Timer i (data_width b) 50) bars).

(** The callback of a timer. *)
Definition fire (t : timer) (bars : list bar) : list bar :=
  alter (set_style_width (attr_text (width t) +:+ "%")) (target t) bars.

End Animate.

(** The bars of a rendered grid, for labels and titles that hold no
    markup: one per score row, its data-width the score. *)
Definition bars_of (html : list card) : list bar :=
  flat_map
    (fun c => map (fun r => Bar (Some (Number_toString (row_width r))) "")
                (card_rows c))
    html.

End ResultsPage.

(** *** The vocabulary of the further statements *)

Module PageSpec.
Import JS Browser Detection DetectionPage.

(** The name ends in ".dcm", in any mix of cases. *)
Definition dicom_name (n : string) : Prop :=
  exists stem ext, n = stem +:+ ext /\ toLowerCase ext = ".dcm".

(** A file that passes both checks of [validateAndDisplayFile]. *)
Definition valid_file (f : File) : Prop :=
  endsWith (toLowerCase (name f)) ".dcm" = true /\ (size f <= maxSize)%N.

(** The outcomes after which [runDetection] reaches the storage: an ok
    response whose body is JSON. *)
Definition stores_result (o : fetch_outcome) : bool :=
  match o with
  | Rejected _ => false
  | Responded r =>
      ok r && match JSON.parse (body r) with Some _ => true | None => false end
  end.

(** What the submission page may do: talk to the console and alert, ask
    the backend for its health, upload a valid file, store under the one
    key, leave for the result view. It sets no timer. *)
Definition allowed (e : event) : Prop :=
  match e with
  | Alert _ | Console _ _ => True
  | Fetch method url form =>
      (method = "GET" /\ url = "http://localhost:8000/health" /\ form = []) \/
      (method = "POST" /\ url = "http://localhost:8000/predict" /\
       exists f, form = [("file", f)] /\ valid_file f)
  | SetItem key _ => key = "detectionResult"
  | Navigate href => href = "results.html"
  | SetTimeout _ _ => False
  end.

(** The page holds no file that failed a check. *)
Definition file_ok (w : world) : Prop :=
  match selectedFile w with
  | Some f => valid_file f
  | None => True
  end.

(** Between two storages, nothing was written, or the slot
    "detectionResult" was. *)
Definition stored (sto sto' : gmap string string) : Prop :=
  sto' = sto \/ exists text, sto' = <["detectionResult" := text]> sto.

Definition is_health (e : event) : bool :=
  match e with
  | Fetch method _ _ => String.eqb method "GET"
  | _ => false
  end.

Definition is_upload (e : event) : bool :=
  match e with
  | Fetch method _ _ => String.eqb method "POST"
  | _ => false
  end.

Definition is_navigate (e : event) : bool :=
  match e with Navigate _ => true | _ => false end.

(** The number of events of a kind in a trace. *)
Definition count (p : event -> bool) (t : list event) : nat :=
  length (List.filter p t).

(** The page apart from its trace: nothing here tells that a health
    check ran. *)
Definition same_page (w w' : world) : Prop :=
  selectedFile w' = selectedFile w /\
  fileNameDisplay_textContent w' = fileNameDisplay_textContent w /\
  runButton_disabled w' = runButton_disabled w /\
  loadingOverlay_active w' = loadingOverlay_active w /\
  uploadArea_dragover w' = uploadArea_dragover w /\
  storage (env_of w') = storage (env_of w).

(** The answers to the health request after which the console stays
    free of warnings: a status that is not ok, or an ok object whose
    [model_loaded] is truthy. *)
Definition no_complaint (o : fetch_outcome) : Prop :=
  match o with
  | Rejected _ => False
  | Responded r =>
      ok r = false \/
      exists props m,
        ok r = true /\ JSON.parse (body r) = Some (JObj props) /\
        assoc "model_loaded" props = Some m /\ truthy m = true
  end.

Definition is_console (e : event) : bool :=
  match e with Console _ _ => true | _ => false end.

End PageSpec.

Module GridSpec.
Import JS Browser Results ResultsPage.

(** [predictions[key]] is truthy. *)
Definition has_source (ps : list (string * json)) (key : string) : bool :=
  truthy_val (assoc key ps).

(** The titles of the cards for the configured keys that pass [keep]. *)
Definition titles (keep : string -> bool) : list string :=
  map (fun kc => title (snd kc))
    (List.filter (fun kc : string * config => keep (fst kc)) MODEL_CONFIG).

(** The warnings for the configured keys that pass [skip]. *)
Definition no_data (skip : string -> bool) : list (list logarg) :=
  map (fun kc => [AStr ("No data for " +:+ fst kc)])
    (List.filter (fun kc : string * config => skip (fst kc)) MODEL_CONFIG).

Definition is_timer (e : event) : bool :=
  match e with SetTimeout _ _ => true | _ => false end.

(** A Source Result the template renders: an object whose [detected] is
    a list (or missing, or falsy) and whose [confidences] has numbers for
    values (or is missing, or falsy). *)
Definition renderable (data : json) : Prop :=
  exists props labels entries,
    data = JObj props /\
    or_else (assoc "detected" props) (JArr []) = JArr labels /\
    numeric_entries
      (Object_entries (or_else (assoc "confidences" props) (JObj []))) =
      inr entries.

(** A bar once it was collapsed and its timer has fired: as wide as
    its data-width says, when that is a width, and collapsed
    otherwise. *)
Definition animated (css_width : string -> option string) (b : bar) : bar :=
  Bar (data_width b)
    (default "0%" (css_width (attr_text (data_width b) +:+ "%"))).

(** A CSS parser that takes every text as it is, but for "null%". *)
Definition css_but_null (text : string) : option string :=
  if String.eqb text "null%" then None else Some text.

(** A payload with a score that is not a number in its second source. *)
Definition text_score_source : list (string * json) :=
  [("detected", JArr []);
   ("confidences", JObj [("Epidural", JStr "80.0")])].

Definition text_score_predictions : list (string * json) :=
  [("model_a", ResultsSpec.source "Epidural" 95);
   ("model_b", JObj text_score_source)].

Definition text_score_fields : list (string * json) :=
  [("predictions", JObj text_score_predictions);
   ("original_image", JStr "/img/o.png");
   ("processed_image", JStr "/img/p.png")].

Definition text_score : json := JObj text_score_fields.

End GridSpec.

(* ================================================================== *)
(** * Part II. Properties *)
(* ================================================================== *)

(** ** Text: appending, digits *)

Module TextFacts.
Import JS JSONSpec.

Lemma append_cons c (s t : string) : String c s +:+ t = String c (s +:+ t).
Proof. reflexivity. Qed.

Lemma append_nil_l (t : string) : "" +:+ t = t.
Proof. reflexivity. Qed.

Lemma append_nil_r (s : string) : s +:+ "" = s.
Proof.
  induction s as [|c s IH]; [reflexivity|]. rewrite append_cons, IH.
  reflexivity.
Qed.

Lemma append_assoc (a b c : string) : (a +:+ b) +:+ c = a +:+ (b +:+ c).
Proof.
  induction a as [|x a IH]; [reflexivity|]. rewrite !append_cons, IH.
  reflexivity.
Qed.

Lemma length_append (a b : string) :
  String.length (a +:+ b) = (String.length a + String.length b)%nat.
Proof.
  induction a as [|x a IH]; [reflexivity|]. rewrite append_cons. cbn.
  rewrite IH. reflexivity.
Qed.

Lemma all_digits_append a b :
  all_digits (a +:+ b) = all_digits a && all_digits b.
Proof.
  induction a as [|x a IH]; [reflexivity|]. rewrite append_cons. cbn.
  rewrite IH. destruct (is_digit x); reflexivity.
Qed.

Lemma all_digits_zeros k : all_digits (zeros k) = true.
Proof. induction k; cbn; [reflexivity | assumption]. Qed.

Lemma length_zeros k : String.length (zeros k) = k.
Proof. induction k; cbn; congruence. Qed.

Lemma digits_value_zeros k s : digits_value 0 (zeros k +:+ s) = digits_value 0 s.
Proof.
  induction k; [reflexivity|]. cbn [zeros]. rewrite append_cons. exact IHk.
Qed.

Lemma digit_char_ok d :
  (d < 10)%N -> is_digit (digit_char d) = true /\ digit_val (digit_char d) = d.
Proof.
  intros Hd. unfold is_digit, digit_val, digit_char.
  rewrite N_ascii_embedding by lia. split; [|lia].
  apply andb_true_intro. split; apply N.leb_le; lia.
Qed.

Lemma digit_char_zero d :
  (d < 10)%N -> digit_char d = "0"%char -> d = 0%N.
Proof.
  intros Hd He. apply (f_equal digit_val) in He.
  rewrite (proj2 (digit_char_ok d Hd)) in He. exact He.
Qed.

Ltac norm_app := rewrite ?append_cons, ?append_nil_l.

Lemma digits_aux_S fuel n acc :
  digits_aux (S fuel) n acc =
  if (n / 10 =? 0)%N then String (digit_char (n mod 10)) acc
  else digits_aux fuel (n / 10) (String (digit_char (n mod 10)) acc).
Proof. reflexivity. Qed.

(** What [digits_aux] puts in front of [acc]. *)
Lemma digits_aux_spec fuel : forall n acc,
  (n < 2 ^ N.of_nat (S fuel))%N ->
  exists pre,
    digits_aux (S fuel) n acc = pre +:+ acc /\
    all_digits pre = true /\
    (forall a s, digits_value a (pre +:+ s) =
                 digits_value (a * 10 ^ N.of_nat (String.length pre) + n) s) /\
    match pre with
    | EmptyString => False
    | String c r => c = "0"%char -> n = 0%N /\ r = ""
    end.
Proof.
  induction fuel as [|fuel IH]; intros n acc Hn.
  - change (2 ^ N.of_nat 1)%N with 2%N in Hn.
    assert (Hq : (n / 10 = 0)%N) by (apply N.div_small; lia).
    assert (Hm : (n mod 10 = n)%N) by (apply N.mod_small; lia).
    assert (Hlt : (n < 10)%N) by lia.
    destruct (digit_char_ok n Hlt) as [Hd Hv].
    rewrite digits_aux_S, Hq, Hm. cbn [N.eqb].
    exists (String (digit_char n) ""). split; [reflexivity|].
    split; [cbn; rewrite Hd; reflexivity|]. split.
    + intros a s. norm_app. cbn [digits_value String.length].
      rewrite Hv. f_equal; try (change (10 ^ N.of_nat 1)%N with 10%N; lia).
    + intros Hc. split; [apply (digit_char_zero n Hlt Hc) | reflexivity].
  - rewrite digits_aux_S.
    assert (Hmod : (n mod 10 < 10)%N) by (apply N.mod_lt; lia).
    destruct (digit_char_ok _ Hmod) as [Hd Hv].
    pose proof (N.div_mod n 10 ltac:(lia)) as Hdm.
    destruct (N.eqb_spec (n / 10) 0) as [Hq | Hq].
    + exists (String (digit_char (n mod 10)) ""). split; [reflexivity|].
      split; [cbn; rewrite Hd; reflexivity|]. split.
      * intros a s. norm_app. cbn [digits_value String.length].
        rewrite Hv. f_equal; try (change (10 ^ N.of_nat 1)%N with 10%N; lia).
      * intros Hc. pose proof (digit_char_zero _ Hmod Hc).
        split; [lia | reflexivity].
    + assert (Hlt : (n / 10 < 2 ^ N.of_nat (S fuel))%N).
      { apply N.Div0.div_lt_upper_bound.
        replace (N.of_nat (S (S fuel))) with (N.succ (N.of_nat (S fuel)))
          in Hn by lia.
        rewrite N.pow_succ_r' in Hn. lia. }
      destruct (IH (n / 10)%N (String (digit_char (n mod 10)) acc) Hlt)
        as (pre & Heq & Hall & Hval & Hhead).
      exists (pre +:+ String (digit_char (n mod 10)) "").
      rewrite Heq, append_assoc. split; [reflexivity|]. split; [|split].
      * rewrite all_digits_append, Hall. cbn. rewrite Hd. reflexivity.
      * intros a s. rewrite append_assoc, Hval. norm_app.
        cbn [digits_value]. rewrite Hv. f_equal. rewrite length_append.
        cbn [String.length].
        replace (N.of_nat (String.length pre + 1))
          with (N.succ (N.of_nat (String.length pre))) by lia.
        rewrite N.pow_succ_r'. lia.
      * destruct pre as [|c r]; [contradiction|]. rewrite append_cons.
        intros Hc. destruct (Hhead Hc) as [Hz _]. contradiction.
Qed.

Lemma digits_spec n :
  all_digits (digits n) = true /\
  digits_value 0 (digits n) = n /\
  match digits n with
  | EmptyString => False
  | String c r => c = "0"%char -> n = 0%N /\ r = ""
  end.
Proof.
  unfold digits.
  destruct (digits_aux_spec (N.to_nat (N.log2 n)) n "") as (pre & Heq & Hall & Hval & Hhead).
  { destruct n as [|p]; [cbn; lia|].
    pose proof (N.log2_spec (N.pos p) ltac:(lia)) as [_ Hlt].
    replace (N.of_nat (S (N.to_nat (N.log2 (N.pos p))))) with (N.succ (N.log2 (N.pos p))) by lia.
    exact Hlt. }
  rewrite Heq, append_nil_r. split; [exact Hall|]. split; [|exact Hhead].
  specialize (Hval 0%N ""). rewrite append_nil_r in Hval. rewrite Hval. cbn. lia.
Qed.

End TextFacts.

(** ** Numerals: writing a number and reading it back *)

Module NumeralFacts.
Import JS JSON JSONSpec TextFacts.

Lemma take_digits_append d rest :
  all_digits d = true -> no_digit_ahead rest = true ->
  take_digits (d +:+ rest) = (d, rest).
Proof.
  intros Hd Hr. induction d as [|c d IH].
  - rewrite append_nil_l. destruct rest as [|c r]; [reflexivity|].
    cbn in *. destruct (is_digit c); [discriminate | reflexivity].
  - rewrite append_cons. cbn in *. apply andb_prop in Hd as [Hc Hd].
    rewrite Hc, (IH Hd). reflexivity.
Qed.

Lemma some_digits_append d rest :
  all_digits d = true -> d <> "" -> no_digit_ahead rest = true ->
  some_digits (d +:+ rest) = Some (d, rest).
Proof.
  intros Hd Hne Hr. unfold some_digits.
  rewrite (take_digits_append d rest Hd Hr).
  destruct d; [contradiction | reflexivity].
Qed.

Lemma split_at_spec n : forall s,
  (n <= String.length s)%nat ->
  exists a b, split_at n s = (a, b) /\ s = a +:+ b /\ String.length a = n.
Proof.
  induction n as [|n IH]; intros s Hn.
  - exists "", s. repeat split.
  - destruct s as [|c s]; [cbn in Hn; lia|].
    destruct (IH s) as (a & b & Hs & -> & Hl); [cbn in Hn; lia|].
    exists (String c a), b. cbn [split_at]. rewrite Hs.
    repeat split. cbn. rewrite Hl. reflexivity.
Qed.

Lemma is_digit_not (c : ascii) :
  is_digit c = true ->
  Ascii.eqb "-" c = false /\ Ascii.eqb "." c = false /\
  is_ws c = false /\ Ascii.eqb c "n" = false /\ Ascii.eqb c "t" = false /\
  Ascii.eqb c "f" = false /\ Ascii.eqb c dquote = false /\
  Ascii.eqb c "[" = false /\ Ascii.eqb c "{" = false.
Proof.
  destruct c as [[] [] [] [] [] [] [] []]; intros H;
    first [discriminate H | repeat split].
Qed.

(** The unsigned numeral of [a / 10 ^ k]: its integer digits and its
    decimals. *)
Lemma numeral_parts (a : N) (k : nat) :
  exists ip fp,
    (if (String.length (digits a) <=? k)%nat then
       "0." +:+ zeros (k - String.length (digits a)) +:+ digits a
     else
       let (ip, fp) := split_at (String.length (digits a) - k) (digits a) in
       match k with
       | O => ip
       | S _ => ip +:+ "." +:+ fp
       end) =
    ip +:+ (match k with O => "" | S _ => "." +:+ fp end) /\
    all_digits ip = true /\ ip <> "" /\ leading_zero ip = false /\
    all_digits fp = true /\ String.length fp = k /\
    digits_value 0 (ip +:+ fp) = a.
Proof.
  destruct (digits_spec a) as (Hall & Hval & Hhead).
  destruct (Nat.leb_spec (String.length (digits a)) k) as [Hle | Hgt].
  - exists "0", (zeros (k - String.length (digits a)) +:+ digits a).
    assert (Hlen : (1 <= String.length (digits a))%nat).
    { destruct (digits a); [contradiction | cbn; lia]. }
    destruct k as [|k']; [lia|].
    split; [reflexivity|]. split; [reflexivity|]. split; [discriminate|].
    split; [reflexivity|]. split; [|split].
    + rewrite all_digits_append, all_digits_zeros. exact Hall.
    + rewrite length_append, length_zeros. lia.
    + norm_app. cbn [digits_value]. cbn.
      rewrite digits_value_zeros. exact Hval.
  - destruct (split_at_spec (String.length (digits a) - k) (digits a))
      as (ip & fp & Hs & Hd & Hl); [lia|].
    rewrite Hs. exists ip, fp.
    assert (Hfp : String.length fp = k).
    { apply (f_equal String.length) in Hd. rewrite length_append in Hd. lia. }
    rewrite Hd, all_digits_append in Hall. apply andb_prop in Hall as [Hi Hf].
    split.
    { destruct k; [|reflexivity].
      destruct fp; [|discriminate]. rewrite append_nil_r. reflexivity. }
    split; [exact Hi|].
    split; [destruct ip; [cbn [String.length] in Hl; lia | discriminate]|].
    split; [|split; [exact Hf|split; [exact Hfp|]]].
    + destruct ip as [|c [|c' r]]; try reflexivity.
      cbn [leading_zero]. destruct (Ascii.eqb_spec c "0") as [-> | ]; [|reflexivity].
      rewrite Hd in Hhead. rewrite !append_cons in Hhead.
      destruct (Hhead eq_refl) as [_ Habs]. discriminate.
    + rewrite <- Hd. exact Hval.
Qed.

(** A canonical number has no decimals or a last decimal that is not 0. *)
Lemma canonical_iff n :
  canonical n <-> scale n = O \/ (mant n mod 10 <> 0)%Z.
Proof.
  destruct n as [m k]. unfold canonical, normalise. cbn [mant scale]. split.
  - destruct k as [|k]; [left; reflexivity|]. cbn [strip].
    destruct (Z.eqb_spec (m mod 10) 0) as [Hz | Hz]; [|right; exact Hz].
    intros H. exfalso.
    assert (Hs : forall j x, (scale (strip j x) <= j)%nat).
    { induction j as [|j IH]; intros x; cbn; [lia|].
      destruct (x mod 10 =? 0)%Z; [specialize (IH (x / 10)%Z); lia | cbn; lia]. }
    specialize (Hs k (m / 10)%Z). rewrite H in Hs. cbn in Hs. lia.
  - intros [-> | Hnz]; [reflexivity|].
    destruct k as [|k]; [reflexivity|]. cbn [strip].
    destruct (Z.eqb_spec (m mod 10) 0) as [Hz | Hz]; [contradiction | reflexivity].
Qed.

Lemma strip_canonical k : forall m, canonical (strip k m).
Proof.
  induction k as [|k IH]; intros m; cbn [strip].
  - reflexivity.
  - destruct (Z.eqb_spec (m mod 10) 0) as [Hz | Hz]; [apply IH|].
    apply canonical_iff. right. exact Hz.
Qed.

Lemma normalise_canonical n : canonical (normalise n).
Proof. apply strip_canonical. Qed.

Lemma make_number_canonical neg ds k e : canonical (make_number neg ds k e).
Proof. apply normalise_canonical. Qed.

Lemma ends_number_spec rest :
  ends_number rest = true ->
  no_digit_ahead rest = true /\ eat "." rest = None /\
  parse_exp rest = Some (0%Z, rest).
Proof.
  destruct rest as [|c r]; [repeat split|].
  cbn [ends_number no_digit_ahead eat parse_exp]. intros H.
  apply andb_prop in H as [H HE]. apply andb_prop in H as [H He].
  apply andb_prop in H as [Hd Hp].
  apply negb_true_iff in HE, He, Hp.
  rewrite (Ascii.eqb_sym "." c), Hd, Hp, He, HE. repeat split.
Qed.

(** Reading back the numeral of a canonical number. *)
Lemma parse_print_number n rest :
  canonical n -> ends_number rest = true ->
  parse_number (print_number n +:+ rest) = Some (n, rest).
Proof.
  intros Hcan Hrest. destruct n as [m k]. unfold print_number.
  cbn [mant scale].
  destruct (numeral_parts (Z.abs_N m) k)
    as (ip & fp & -> & Hi & Hne & Hlz & Hf & Hfl & Hval).
  destruct (ends_number_spec rest Hrest) as (Hnd & Hdot & Hexp).
  assert (Hsign : forall s1,
    s1 = ip +:+ (match k with O => "" | S _ => "." +:+ fp end) +:+ rest ->
    forall neg : bool,
      (if neg then (- Z.of_N (Z.abs_N m))%Z else Z.of_N (Z.abs_N m)) = m ->
    match some_digits s1 with
    | None => None
    | Some (ip, s2) =>
        if leading_zero ip then None
        else
          match parse_frac s2 with
          | None => None
          | Some (fp, s3) =>
              match parse_exp s3 with
              | None => None
              | Some (e, s4) =>
                  Some (make_number neg (ip +:+ fp) (String.length fp) e, s4)
              end
          end
    end = Some (Num m k, rest)).
  { intros s1 -> neg Hneg.
    assert (Hmk : make_number neg (ip +:+ fp) k 0 = Num m k).
    { unfold make_number. rewrite Hval, Hneg.
      replace (Z.of_nat k - 0)%Z with (Z.of_nat k) by lia.
      destruct (Z.leb_spec (Z.of_nat k) 0) as [Hk0 | Hk0].
      - destruct k; [|lia].
        change (- Z.of_nat 0)%Z with 0%Z. rewrite Z.pow_0_r, Z.mul_1_r.
        exact Hcan.
      - rewrite Nat2Z.id. exact Hcan. }
    destruct k as [|k'].
    - destruct fp; [|discriminate]. rewrite append_nil_l.
      rewrite (some_digits_append ip rest Hi Hne Hnd), Hlz.
      unfold parse_frac. rewrite Hdot, Hexp. cbn [String.length].
      rewrite Hmk.
      reflexivity.
    - rewrite !append_assoc, !append_cons, append_nil_l.
      rewrite (some_digits_append ip (String "." (fp +:+ rest)) Hi Hne eq_refl),
        Hlz.
      unfold parse_frac. cbn [eat Ascii.eqb Bool.eqb].
      rewrite (some_digits_append fp rest Hf); [|destruct fp; [discriminate Hfl | discriminate]|exact Hnd].
      rewrite Hexp, Hfl, Hmk. reflexivity. }
  unfold parse_number.
  destruct (Z.ltb_spec m 0) as [Hneg | Hpos].
  - rewrite !append_cons, append_nil_l. cbn [eat Ascii.eqb Bool.eqb].
    apply Hsign; [rewrite append_assoc; reflexivity|].
    rewrite N2Z.inj_abs_N. lia.
  - rewrite append_nil_l.
    assert (Heat : eat "-" ((ip +:+ match k with
                                    | O => ""
                                    | S _ => "." +:+ fp
                                    end) +:+ rest) = None).
    { destruct ip as [|c ip']; [contradiction|]. rewrite !append_cons.
      cbn [eat]. cbn in Hi. apply andb_prop in Hi as [Hc _].
      rewrite (proj1 (is_digit_not c Hc)). reflexivity. }
    rewrite Heat. apply Hsign; [rewrite append_assoc; reflexivity|].
    rewrite N2Z.inj_abs_N. lia.
Qed.

End NumeralFacts.

(** ** Quoted strings *)

Module QuoteFacts.
Import JS JSON TextFacts.

(** Reading back one escaped character. *)
Lemma parse_escape_char (c : ascii) (s : string) :
  parse_chars (escape_char c +:+ s) =
  match parse_chars s with
  | Some (t, r) => Some (String c t, r)
  | None => None
  end.
Proof.
  destruct c as [[] [] [] [] [] [] [] []]; reflexivity.
Qed.

(** Reading back the inside of a quoted string. *)
Lemma parse_escape (s rest : string) :
  parse_chars (escape s +:+ String dquote rest) = Some (s, rest).
Proof.
  induction s as [|c s IH].
  - reflexivity.
  - cbn [escape]. rewrite append_assoc, parse_escape_char, IH. reflexivity.
Qed.

End QuoteFacts.

(** ** The codec: what is written reads back *)

Module CodecFacts.
Import JS JSON JSONSpec TextFacts NumeralFacts QuoteFacts.

(** *** Values that [JSON.parse] returns *)

Lemma cost_arr items : cost (JArr items) = S (items_cost items).
Proof. reflexivity. Qed.

Lemma cost_obj props : cost (JObj props) = S (props_cost props).
Proof. reflexivity. Qed.

Lemma wf_arr items : wf (JArr items) <-> Forall wf items.
Proof.
  cbn [wf]. induction items as [|x l IH].
  - split; [constructor | trivial].
  - rewrite Forall_cons, <- IH. reflexivity.
Qed.

Lemma wf_obj props :
  wf (JObj props) <-> wf_keys (keys props) /\ Forall (fun kv => wf (snd kv)) props.
Proof.
  cbn [wf].
  enough (H : (fix all (l : list (string * json)) : Prop :=
                 match l with
                 | [] => True
                 | kv :: l' => wf (snd kv) /\ all l'
                 end) props <-> Forall (fun kv => wf (snd kv)) props)
    by (rewrite H; reflexivity).
  induction props as [|x l IH].
  - split; [constructor | trivial].
  - rewrite Forall_cons, <- IH. reflexivity.
Qed.

(** Induction on a value, with the property known for the values in it. *)
Lemma json_nested_ind (P : json -> Prop) :
  P JNull ->
  (forall b, P (JBool b)) ->
  (forall n, P (JNum n)) ->
  (forall s, P (JStr s)) ->
  (forall items, Forall P items -> P (JArr items)) ->
  (forall props, Forall (fun kv => P (snd kv)) props -> P (JObj props)) ->
  forall v, P v.
Proof.
  intros Hnull Hbool Hnum Hstr Harr Hobj.
  fix IH 1. intros [|b|n|s|items|props].
  - exact Hnull.
  - apply Hbool.
  - apply Hnum.
  - apply Hstr.
  - apply Harr. induction items as [|x items IHitems]; constructor.
    + apply IH.
    + exact IHitems.
  - apply Hobj. induction props as [|kv props IHprops]; constructor.
    + apply IH.
    + exact IHprops.
Qed.

(** *** How the text of a value starts *)

Lemma value_start_not (c : ascii) :
  value_start c = true ->
  is_ws c = false /\ Ascii.eqb "]" c = false /\ Ascii.eqb "}" c = false /\
  Ascii.eqb "," c = false.
Proof.
  destruct c as [[] [] [] [] [] [] [] []]; intros H;
    first [discriminate H | repeat split].
Qed.

Lemma print_number_head n :
  exists c r,
    print_number n = String c r /\ is_digit c || Ascii.eqb c "-" = true.
Proof.
  unfold print_number.
  destruct (numeral_parts (Z.abs_N (mant n)) (scale n))
    as (ip & fp & -> & Hi & Hne & _).
  destruct (mant n <? 0)%Z.
  - eexists _, _. split; reflexivity.
  - destruct ip as [|c ip']; [contradiction|].
    rewrite append_nil_l, append_cons. eexists _, _. split; [reflexivity|].
    cbn [all_digits] in Hi. apply andb_prop in Hi as [Hc _].
    rewrite Hc. reflexivity.
Qed.

Lemma stringify_head v :
  exists c r, stringify v = String c r /\ value_start c = true.
Proof.
  destruct v as [|[]|n|s|items|props]; cbn [stringify];
    try (eexists _, _; split; reflexivity).
  destruct (print_number_head (normalise n)) as (c & r & Hp & Hc).
  exists c, r. split; [exact Hp|]. unfold value_start.
  rewrite Hc. reflexivity.
Qed.

Lemma join_head c r l :
  exists r', join "," (String c r :: l) = String c r'.
Proof. destruct l; eexists; reflexivity. Qed.

Lemma skip_ws_head c r : is_ws c = false -> skip_ws (String c r) = String c r.
Proof. intros H. cbn [skip_ws]. rewrite H. reflexivity. Qed.

(** *** Defining a fresh key *)

Lemma has_key_false k l : ~ In k (keys l) -> has_key k l = false.
Proof.
  intros Hin. unfold has_key. apply not_true_is_false. intros Hex.
  apply existsb_exists in Hex as (k' & Hk' & He).
  apply String.eqb_eq in He as <-. contradiction.
Qed.

Lemma insert_index_last i k v l :
  index_of k = Some i ->
  Forall (fun k' => key_before k' k) (keys l) ->
  insert_index i k v l = (l ++ [(k, v)])%list.
Proof.
  intros Hk. induction l as [|[k' v'] l IH]; intros Hall; [reflexivity|].
  cbn [keys map fst] in Hall. apply Forall_cons in Hall as [Hb Hall].
  cbn [insert_index]. unfold key_before in Hb. rewrite Hk in Hb.
  destruct (index_of k') as [j|]; [|contradiction].
  apply N.ltb_lt in Hb. rewrite Hb, (IH Hall). reflexivity.
Qed.

Lemma wf_keys_snoc ks k :
  wf_keys (ks ++ [k]) ->
  wf_keys ks /\ ~ In k ks /\ Forall (fun k' => key_before k' k) ks.
Proof.
  intros [Hnd Hs]. apply NoDup_app in Hnd as (Hnd & Hdis & _).
  apply StronglySorted_app in Hs as (Hall & Hs & _).
  split; [split; assumption|]. split.
  - intros Hin. apply (Hdis k); [apply list_elem_of_In; exact Hin|].
    apply list_elem_of_In. left. reflexivity.
  - apply Forall_forall. intros k' Hin. apply Hall; [exact Hin|].
    apply list_elem_of_In. left. reflexivity.
Qed.

Lemma obj_set_fresh k v l :
  wf_keys (keys l ++ [k]) -> obj_set k v l = (l ++ [(k, v)])%list.
Proof.
  intros Hwf. destruct (wf_keys_snoc _ _ Hwf) as (_ & Hnin & Hall).
  unfold obj_set. rewrite (has_key_false k l Hnin).
  destruct (index_of k) as [i|] eqn:Hk; [|reflexivity].
  apply insert_index_last; assumption.
Qed.

(** *** One step of the parser *)

Lemma parse_value_null fuel rest :
  parse_value (S fuel) ("null" +:+ rest) = Some (JNull, rest).
Proof. reflexivity. Qed.

Lemma parse_value_true fuel rest :
  parse_value (S fuel) ("true" +:+ rest) = Some (JBool true, rest).
Proof. reflexivity. Qed.

Lemma parse_value_false fuel rest :
  parse_value (S fuel) ("false" +:+ rest) = Some (JBool false, rest).
Proof. reflexivity. Qed.

Lemma parse_value_str fuel s :
  parse_value (S fuel) (String dquote s) =
  match parse_chars s with
  | Some (t, r) => Some (JStr t, r)
  | None => None
  end.
Proof. reflexivity. Qed.

Lemma parse_value_arr fuel r :
  parse_value (S fuel) (String "[" r) =
  match eat "]" (skip_ws r) with
  | Some r' => Some (JArr [], r')
  | None => parse_elements fuel r []
  end.
Proof. reflexivity. Qed.

Lemma parse_value_obj fuel r :
  parse_value (S fuel) (String "{" r) =
  match eat "}" (skip_ws r) with
  | Some r' => Some (JObj [], r')
  | None => parse_members fuel r []
  end.
Proof. reflexivity. Qed.

Lemma parse_value_num fuel c r :
  is_digit c || Ascii.eqb c "-" = true ->
  parse_value (S fuel) (String c r) =
  match parse_number (String c r) with
  | Some (n, r') => Some (JNum n, r')
  | None => None
  end.
Proof.
  destruct c as [[] [] [] [] [] [] [] []]; intros H;
    first [discriminate H | reflexivity].
Qed.

Lemma parse_elements_S fuel s acc :
  parse_elements (S fuel) s acc =
  match parse_value fuel s with
  | None => None
  | Some (v, r) =>
      match eat "," (skip_ws r), eat "]" (skip_ws r) with
      | Some r', _ => parse_elements fuel r' (v :: acc)
      | None, Some r' => Some (JArr (rev (v :: acc)), r')
      | None, None => None
      end
  end.
Proof. reflexivity. Qed.

Lemma parse_members_S fuel s acc :
  parse_members (S fuel) s acc =
  match eat dquote (skip_ws s) with
  | None => None
  | Some r =>
      match parse_chars r with
      | None => None
      | Some (k, r1) =>
          match eat ":" (skip_ws r1) with
          | None => None
          | Some r2 =>
              match parse_value fuel r2 with
              | None => None
              | Some (v, r3) =>
                  match eat "," (skip_ws r3), eat "}" (skip_ws r3) with
                  | Some r4, _ => parse_members fuel r4 (obj_set k v acc)
                  | None, Some r4 => Some (JObj (obj_set k v acc), r4)
                  | None, None => None
                  end
              end
          end
      end
  end.
Proof. reflexivity. Qed.

(** *** Reading back what was written *)

Lemma elements_read_back items :
  Forall reads_back items -> Forall wf items -> items <> [] ->
  forall fuel acc rest,
    (items_cost items <= fuel)%nat ->
    parse_elements fuel
      (join "," (List.map stringify items) +:+ String "]" rest) acc =
    Some (JArr (rev acc ++ items), rest).
Proof.
  induction items as [|x items IH]; [congruence|].
  intros Hrb Hwf _ fuel acc rest Hfuel.
  apply Forall_cons in Hrb as [Hx Hrb]. apply Forall_cons in Hwf as [Wx Hwf].
  cbn [items_cost fold_right] in Hfuel.
  destruct fuel as [|fuel]; [lia|]. rewrite parse_elements_S.
  destruct items as [|y items].
  - cbn [List.map join].
    rewrite (Hx Wx fuel (String "]" rest)) by (lia || reflexivity).
    reflexivity.
  - change (join "," (List.map stringify (x :: y :: items)))
      with (stringify x +:+ "," +:+ join "," (List.map stringify (y :: items))).
    rewrite !append_assoc, append_cons, append_nil_l.
    rewrite (Hx Wx fuel) by (lia || reflexivity).
    change (eat "," (skip_ws (String "," ?r))) with (Some r).
    cbv beta iota.
    rewrite IH; [|assumption|assumption|discriminate|].
    + cbn [rev]. rewrite <- app_assoc. reflexivity.
    + fold (items_cost (y :: items)) in Hfuel. lia.
Qed.

Ltac norm_text :=
  repeat progress (rewrite ?append_cons, ?append_assoc, ?append_nil_l).

(** Keys that are not array indices stay in the order they were
    inserted in, whatever that order is. *)
Lemma wf_keys_names ks :
  NoDup ks -> Forall (fun k => index_of k = None) ks -> wf_keys ks.
Proof.
  intros Hnd Hall. split; [exact Hnd|]. clear Hnd.
  induction Hall as [|k ks Hk Hall IH]; constructor; [exact IH|].
  eapply Forall_impl; [exact Hall|]. intros k' Hk'.
  unfold key_before. rewrite Hk, Hk'. exact I.
Qed.

Lemma wf_keys_prefix a b : wf_keys (a ++ b) -> wf_keys a.
Proof.
  intros [Hnd Hs]. split.
  - apply NoDup_app in Hnd. apply Hnd.
  - eapply StronglySorted_app_1_l, Hs.
Qed.

Lemma member_text k v tail :
  member (k, v) +:+ tail =
  String dquote
    (escape k +:+ String dquote (String ":" (stringify v +:+ tail))).
Proof.
  unfold member, quote. cbn [fst snd].
  repeat progress (rewrite ?append_cons, ?append_assoc, ?append_nil_l).
  reflexivity.
Qed.

Lemma members_read_back props :
  Forall (fun kv => reads_back (snd kv)) props ->
  Forall (fun kv => wf (snd kv)) props -> props <> [] ->
  forall fuel acc rest,
    wf_keys (keys acc ++ keys props) ->
    (props_cost props <= fuel)%nat ->
    parse_members fuel
      (join "," (List.map member props) +:+ String "}" rest) acc =
    Some (JObj (acc ++ props), rest).
Proof.
  induction props as [|[k v] props IH]; [congruence|].
  intros Hrb Hwf _ fuel acc rest Hkeys Hfuel.
  apply Forall_cons in Hrb as [Hx Hrb]. apply Forall_cons in Hwf as [Wx Hwf].
  cbn [snd] in Hx, Wx. cbn [props_cost fold_right snd] in Hfuel.
  assert (Hset : obj_set k v acc = (acc ++ [(k, v)])%list).
  { apply obj_set_fresh. apply (wf_keys_prefix _ (keys props)).
    rewrite <- app_assoc. exact Hkeys. }
  destruct fuel as [|fuel]; [lia|]. rewrite parse_members_S.
  destruct props as [|kv props].
  - cbn [List.map join]. rewrite member_text.
    change (eat dquote (skip_ws (String dquote ?r))) with (Some r).
    cbv beta iota. rewrite parse_escape.
    change (eat ":" (skip_ws (String ":" ?r))) with (Some r).
    cbv beta iota.
    rewrite (Hx Wx fuel (String "}" rest)) by (lia || reflexivity).
    rewrite Hset. reflexivity.
  - change (join "," (List.map member ((k, v) :: kv :: props)))
      with (member (k, v) +:+ "," +:+ join "," (List.map member (kv :: props))).
    rewrite append_assoc, member_text, append_assoc, append_cons,
      append_nil_l.
    change (eat dquote (skip_ws (String dquote ?r))) with (Some r).
    cbv beta iota. rewrite parse_escape.
    change (eat ":" (skip_ws (String ":" ?r))) with (Some r).
    cbv beta iota.
    rewrite (Hx Wx fuel) by (lia || reflexivity).
    change (eat "," (skip_ws (String "," ?r))) with (Some r).
    cbv beta iota. rewrite Hset.
    rewrite IH; [|assumption|assumption|discriminate| |].
    + rewrite <- app_assoc. reflexivity.
    + unfold keys in *. rewrite map_app, <- app_assoc. exact Hkeys.
    + fold (props_cost (kv :: props)) in Hfuel. lia.
Qed.

Lemma value_reads_back v : reads_back v.
Proof.
  induction v as [|b|n|s|items IH|props IH] using json_nested_ind;
    intros Hwf fuel rest Hfuel Hrest;
    (destruct fuel as [|fuel]; [cbn in Hfuel; lia|]).
  - apply parse_value_null.
  - destruct b; [apply parse_value_true | apply parse_value_false].
  - cbn [wf] in Hwf. cbn [stringify]. unfold Number_toString.
    rewrite Hwf.
    destruct (print_number_head n) as (c & r & Hp & Hc).
    pose proof (parse_print_number n rest Hwf Hrest) as Hparse.
    rewrite Hp, append_cons in Hparse |- *.
    rewrite (parse_value_num fuel c _ Hc), Hparse. reflexivity.
  - cbn [stringify]. unfold quote. norm_text.
    rewrite parse_value_str, parse_escape. reflexivity.
  - cbn [stringify]. norm_text. rewrite parse_value_arr.
    destruct items as [|x items]; [reflexivity|].
    destruct (stringify_head x) as (c & r & Hx & Hc).
    destruct (value_start_not c Hc) as (Hws & Hclose & _).
    destruct (join_head c r (List.map stringify items)) as (r' & Hj).
    assert (Heat : eat "]"
      (skip_ws (join "," (List.map stringify (x :: items)) +:+
                String "]" rest)) = None).
    { cbn [List.map]. rewrite Hx, Hj, append_cons, (skip_ws_head _ _ Hws).
      cbn [eat]. rewrite Hclose. reflexivity. }
    rewrite Heat. apply wf_arr in Hwf.
    rewrite (elements_read_back (x :: items) IH Hwf); [reflexivity|discriminate|].
    rewrite cost_arr in Hfuel. lia.
  - cbn [stringify]. norm_text. rewrite parse_value_obj.
    destruct props as [|[k x] props]; [reflexivity|].
    apply wf_obj in Hwf as [Hkeys Hwf].
    change (List.map (fun kv => quote (fst kv) +:+ ":" +:+ stringify (snd kv)))
      with (List.map member).
    assert (Heat : eat "}"
      (skip_ws (join "," (List.map member ((k, x) :: props)) +:+
                String "}" rest)) = None).
    { cbn [List.map].
      assert (Hm : member (k, x) =
                   String dquote
                     ((escape k +:+ String dquote "") +:+ ":" +:+ stringify x))
        by reflexivity.
      destruct (join_head dquote
                  ((escape k +:+ String dquote "") +:+ ":" +:+ stringify x)
                  (List.map member props)) as (r' & Hj).
      rewrite Hm, Hj, append_cons. reflexivity. }
    rewrite Heat.
    rewrite (members_read_back ((k, x) :: props) IH Hwf);
      [reflexivity|discriminate|exact Hkeys|].
    rewrite cost_obj in Hfuel. lia.
Qed.

(** *** Fuel *)

Lemma join_cost {A} (c : A -> nat) (t : A -> string) (l : list A) :
  Forall (fun x => (c x <= 2 * String.length (t x) + 1)%nat) l ->
  (fold_right (fun x n => S (c x + n)) O l <=
   2 * String.length (join "," (List.map t l)) + 2)%nat.
Proof.
  induction l as [|x l IH]; intros Hall; [cbn; lia|].
  apply Forall_cons in Hall as [Hx Hall]. specialize (IH Hall).
  cbn [fold_right]. destruct l as [|y l].
  - cbn [List.map join fold_right]. lia.
  - change (join "," (List.map t (x :: y :: l)))
      with (t x +:+ "," +:+ join "," (List.map t (y :: l))).
    rewrite !length_append. cbn [String.length]. lia.
Qed.

Lemma cost_bound v : (cost v <= 2 * String.length (stringify v) + 1)%nat.
Proof.
  induction v as [|b|n|s|items IH|props IH] using json_nested_ind;
    try (cbn [cost]; lia).
  - rewrite cost_arr. cbn [stringify]. rewrite !length_append.
    cbn [String.length]. pose proof (join_cost cost stringify items IH) as H.
    unfold items_cost. lia.
  - rewrite cost_obj. cbn [stringify]. rewrite !length_append.
    cbn [String.length].
    pose proof (join_cost (fun kv => cost (snd kv)) member props) as H.
    unfold props_cost, member in *. 
    assert (Hall : Forall (fun x : string * json =>
       (cost (snd x) <= 2 * String.length
          (quote (fst x) +:+ ":" +:+ stringify (snd x)) + 1)%nat) props).
    { eapply Forall_impl; [exact IH|]. intros kv Hkv. cbv beta in Hkv.
      rewrite !length_append. lia. }
    specialize (H Hall). lia.
Qed.

(** What [JSON.stringify] writes, [JSON.parse] reads back. *)
Theorem parse_stringify v : wf v -> parse (stringify v) = Some v.
Proof.
  intros Hwf. unfold parse.
  pose proof (value_reads_back v Hwf
                (2 * String.length (stringify v) + 1) ""
                (cost_bound v) eq_refl) as H.
  rewrite append_nil_r in H. rewrite H. reflexivity.
Qed.

End CodecFacts.

(** ** The parser: what it returns is well formed *)

Module ParserFacts.
Import JS JSON JSONSpec TextFacts NumeralFacts QuoteFacts CodecFacts.

Lemma parse_number_canonical s n r :
  parse_number s = Some (n, r) -> canonical n.
Proof.
  unfold parse_number.
  destruct (eat "-" s) as [s1|];
    (destruct (some_digits _) as [[ip s2]|]; [|discriminate];
     destruct (leading_zero ip); [discriminate|];
     destruct (parse_frac s2) as [[fp s3]|]; [|discriminate];
     destruct (parse_exp s3) as [[e s4]|]; [|discriminate];
     intros [= <- _]; apply make_number_canonical).
Qed.

Lemma index_of_inj k k' i :
  index_of k = Some i -> index_of k' = Some i -> k = k'.
Proof.
  unfold index_of. intros H H'.
  destruct (String.eqb_spec (digits (digits_value 0 k)) k) as [Hk|]; [|discriminate].
  destruct (String.eqb_spec (digits (digits_value 0 k')) k') as [Hk'|]; [|discriminate].
  cbn [andb] in *.
  destruct (digits_value 0 k <? 4294967295)%N; [|discriminate].
  destruct (digits_value 0 k' <? 4294967295)%N; [|discriminate].
  injection H as H. injection H' as H'. rewrite <- Hk, <- Hk'. congruence.
Qed.

Lemma keys_replace k v l : keys (replace k v l) = keys l.
Proof.
  induction l as [|[k' v'] l IH]; [reflexivity|]. cbn [replace].
  destruct (String.eqb_spec k k') as [->|]; [reflexivity|].
  unfold keys in *. cbn [map fst]. rewrite IH. reflexivity.
Qed.

Lemma Forall_replace (P : string * json -> Prop) k v l :
  P (k, v) -> Forall P l -> Forall P (replace k v l).
Proof.
  intros Hk. induction 1 as [|[k' v'] l Hx Hl IH]; [constructor|].
  cbn [replace]. destruct (String.eqb k k'); constructor; assumption.
Qed.

Lemma insert_index_perm i k v l :
  Permutation (insert_index i k v l) ((k, v) :: l).
Proof.
  induction l as [|[k' v'] l IH]; [reflexivity|]. cbn [insert_index].
  destruct (index_of k') as [j|]; [|reflexivity].
  destruct (j <? i)%N; [|reflexivity].
  rewrite IH. apply perm_swap.
Qed.

(** A key that may follow an index no smaller than [i] may follow the
    index [i]. *)
Lemma key_before_lower k i k' k'' :
  index_of k = Some i ->
  match index_of k' with Some j => (i < j)%N | None => True end ->
  key_before k' k'' -> key_before k k''.
Proof.
  unfold key_before. intros -> Hk'.
  destruct (index_of k') as [j|], (index_of k'') as [j''|]; try tauto. lia.
Qed.

Lemma insert_index_sorted i k v l :
  index_of k = Some i -> ~ In k (keys l) ->
  StronglySorted key_before (keys l) ->
  StronglySorted key_before (keys (insert_index i k v l)).
Proof.
  intros Hk. induction l as [|[k' v'] l IH]; intros Hnin Hs.
  - repeat constructor.
  - cbn [keys map fst] in Hnin, Hs. apply StronglySorted_inv in Hs as [Hs Hall].
    assert (Hne : k <> k') by (intros ->; apply Hnin; left; reflexivity).
    assert (Hnin' : ~ In k (keys l)) by (intros H; apply Hnin; right; exact H).
    assert (Hfront : match index_of k' with
                     | Some j => (i < j)%N
                     | None => True
                     end ->
                     StronglySorted key_before (keys ((k, v) :: (k', v') :: l))).
    { intros Hk'. cbn [keys map fst]. constructor.
      - constructor; assumption.
      - constructor.
        + unfold key_before. rewrite Hk. destruct (index_of k'); [exact Hk' | trivial].
        + eapply Forall_impl; [exact Hall|]. intros k'' Hb.
          eapply key_before_lower; eassumption. }
    cbn [insert_index]. destruct (index_of k') as [j|] eqn:Hk'; [|apply Hfront; trivial].
    destruct (N.ltb_spec j i) as [Hlt | Hge].
    + cbn [keys map fst]. constructor; [apply IH; assumption|].
      change (Forall (key_before k') (keys (insert_index i k v l))).
      unfold keys. rewrite insert_index_perm. cbn [map fst]. constructor.
      * unfold key_before. rewrite Hk', Hk. exact Hlt.
      * exact Hall.
    + apply Hfront. destruct (N.eq_dec i j) as [<- | Hij]; [|lia].
      exfalso. apply Hne. eapply index_of_inj; eassumption.
Qed.

Lemma has_key_true k l : has_key k l = true -> In k (keys l).
Proof.
  unfold has_key. intros Hex.
  apply existsb_exists in Hex as (k' & Hk' & He).
  apply String.eqb_eq in He as <-. exact Hk'.
Qed.

(** Defining a property keeps an object well formed. *)
Lemma obj_set_wf k v acc :
  wf (JObj acc) -> wf v -> wf (JObj (obj_set k v acc)).
Proof.
  intros Hacc Hv. apply wf_obj in Hacc as [[Hnd Hs] Hall]. apply wf_obj.
  unfold obj_set. destruct (has_key k acc) eqn:Hhas.
  - rewrite keys_replace. split; [split; assumption|].
    apply Forall_replace; assumption.
  - assert (Hnin : ~ In k (keys acc)).
    { intros Hin. assert (has_key k acc = true); [|congruence].
      unfold has_key. apply existsb_exists. exists k.
      split; [exact Hin | apply String.eqb_refl]. }
    destruct (index_of k) as [i|] eqn:Hk.
    + split; [split|].
      * unfold keys. rewrite insert_index_perm. cbn [map fst].
        constructor; [|exact Hnd]. rewrite list_elem_of_In. exact Hnin.
      * apply insert_index_sorted; assumption.
      * rewrite insert_index_perm. constructor; assumption.
    + unfold keys. rewrite map_app. cbn [map fst]. split; [split|].
      * apply NoDup_app. split; [exact Hnd|]. split; [|apply NoDup_singleton].
        intros x Hx Hx'. apply list_elem_of_singleton in Hx'. subst x.
        apply Hnin. apply list_elem_of_In. exact Hx.
      * apply StronglySorted_app_2; [|exact Hs|repeat constructor].
        intros x1 x2 _ Hx2. apply list_elem_of_singleton in Hx2. subst x2.
        unfold key_before. rewrite Hk. destruct (index_of x1); trivial.
      * apply Forall_app. split; [exact Hall|]. repeat constructor. exact Hv.
Qed.

Lemma parse_value_S fuel s :
  parse_value (S fuel) s =
  match skip_ws s with
  | EmptyString => None
  | String c r =>
      if Ascii.eqb c "n" then
        option_map (pair JNull) (strip_prefix "ull" r)
      else if Ascii.eqb c "t" then
        option_map (pair (JBool true)) (strip_prefix "rue" r)
      else if Ascii.eqb c "f" then
        option_map (pair (JBool false)) (strip_prefix "alse" r)
      else if Ascii.eqb c dquote then
        match parse_chars r with
        | Some (t, r') => Some (JStr t, r')
        | None => None
        end
      else if Ascii.eqb c "[" then
        match eat "]" (skip_ws r) with
        | Some r' => Some (JArr [], r')
        | None => parse_elements fuel r []
        end
      else if Ascii.eqb c "{" then
        match eat "}" (skip_ws r) with
        | Some r' => Some (JObj [], r')
        | None => parse_members fuel r []
        end
      else
        match parse_number (String c r) with
        | Some (n, r') => Some (JNum n, r')
        | None => None
        end
  end.
Proof. reflexivity. Qed.

Lemma wf_obj_nil : wf (JObj []).
Proof. apply wf_obj. repeat constructor. Qed.

(** Whatever the parser returns is well formed. *)
Lemma parser_wf fuel :
  (forall s v r, parse_value fuel s = Some (v, r) -> wf v) /\
  (forall s acc v r,
     parse_elements fuel s acc = Some (v, r) -> Forall wf acc -> wf v) /\
  (forall s acc v r,
     parse_members fuel s acc = Some (v, r) -> wf (JObj acc) -> wf v).
Proof.
  induction fuel as [|fuel (IHv & IHe & IHm)];
    [repeat split; intros; discriminate|].
  split; [|split].
  - intros s v r. rewrite parse_value_S.
    destruct (skip_ws s) as [|c t]; [discriminate|].
    destruct (Ascii.eqb c "n").
    { destruct (strip_prefix "ull" t); intros [= <- _]. exact I. }
    destruct (Ascii.eqb c "t").
    { destruct (strip_prefix "rue" t); intros [= <- _]. exact I. }
    destruct (Ascii.eqb c "f").
    { destruct (strip_prefix "alse" t); intros [= <- _]. exact I. }
    destruct (Ascii.eqb c dquote).
    { destruct (parse_chars t) as [[x r']|]; intros [= <- _]. exact I. }
    destruct (Ascii.eqb c "[").
    { destruct (eat "]" (skip_ws t)).
      - intros [= <- _]. exact I.
      - intros H. apply (IHe _ _ _ _ H). constructor. }
    destruct (Ascii.eqb c "{").
    { destruct (eat "}" (skip_ws t)).
      - intros [= <- _]. apply wf_obj_nil.
      - intros H. apply (IHm _ _ _ _ H). apply wf_obj_nil. }
    destruct (parse_number (String c t)) as [[n r']|] eqn:Hn;
      intros [= <- _].
    apply (parse_number_canonical _ _ _ Hn).
  - intros s acc v r. rewrite parse_elements_S.
    destruct (parse_value fuel s) as [[x r1]|] eqn:Hx; [|discriminate].
    intros H Hacc. pose proof (IHv _ _ _ Hx) as Wx.
    destruct (eat "," (skip_ws r1)).
    + apply (IHe _ _ _ _ H). constructor; assumption.
    + destruct (eat "]" (skip_ws r1)); [|discriminate].
      injection H as <- _. apply wf_arr. apply Forall_app.
      split; [apply Forall_rev; exact Hacc | repeat constructor; exact Wx].
  - intros s acc v r. rewrite parse_members_S.
    destruct (eat dquote (skip_ws s)) as [r0|]; [|discriminate].
    destruct (parse_chars r0) as [[k r1]|]; [|discriminate].
    destruct (eat ":" (skip_ws r1)) as [r2|]; [|discriminate].
    destruct (parse_value fuel r2) as [[x r3]|] eqn:Hx; [|discriminate].
    intros H Hacc. pose proof (IHv _ _ _ Hx) as Wx.
    pose proof (obj_set_wf k x acc Hacc Wx) as Hset.
    destruct (eat "," (skip_ws r3)).
    + apply (IHm _ _ _ _ H Hset).
    + destruct (eat "}" (skip_ws r3)); [|discriminate].
      injection H as <- _. exact Hset.
Qed.

Theorem parse_wf text v : parse text = Some v -> wf v.
Proof.
  unfold parse.
  destruct (parse_value (2 * String.length text + 1) text) as [[x r]|] eqn:H;
    [|discriminate].
  destruct (skip_ws r); [|discriminate]. intros [= <-].
  eapply (proj1 (parser_wf _)), H.
Qed.

(** What [JSON.parse] returns survives [JSON.stringify] and a second
    [JSON.parse]. *)
Theorem parse_roundtrip text v :
  parse text = Some v -> parse (stringify v) = Some v.
Proof. intros H. apply parse_stringify. eapply parse_wf, H. Qed.

End ParserFacts.

(** ** Numbers: the order the renderer relies on *)

Module NumberFacts.
Import JS OrderSpec.

Lemma pow10_pos k : (0 < pow10 k)%Z.
Proof. unfold pow10. apply Z.pow_pos_nonneg; lia. Qed.

Lemma num_pos_sub a b : num_pos (num_sub b a) = true <-> num_lt a b.
Proof.
  unfold num_pos, num_sub, num_lt. cbn [mant]. rewrite Z.ltb_lt. lia.
Qed.

Lemma num_pos_sub_false a b : num_pos (num_sub b a) = false <-> num_le b a.
Proof.
  unfold num_pos, num_sub, num_le. cbn [mant]. rewrite Z.ltb_ge. lia.
Qed.

Lemma num_geb_le a b : num_geb a b = true <-> num_le b a.
Proof. unfold num_geb, num_le. apply Z.leb_le. Qed.

Lemma num_lt_le a b : num_lt a b -> num_le a b.
Proof. unfold num_lt, num_le. lia. Qed.

Lemma num_le_trans a b c : num_le a b -> num_le b c -> num_le a c.
Proof.
  unfold num_le. intros Hab Hbc.
  pose proof (pow10_pos (scale a)) as Pa.
  pose proof (pow10_pos (scale b)) as Pb.
  pose proof (pow10_pos (scale c)) as Pc.
  apply (Z.mul_le_mono_pos_r _ _ (pow10 (scale b))); [exact Pb|].
  apply Z.le_trans with (mant b * pow10 (scale a) * pow10 (scale c))%Z.
  - replace (mant a * pow10 (scale c) * pow10 (scale b))%Z
      with (mant a * pow10 (scale b) * pow10 (scale c))%Z by ring.
    apply Z.mul_le_mono_nonneg_r; lia.
  - replace (mant b * pow10 (scale a) * pow10 (scale c))%Z
      with (mant b * pow10 (scale c) * pow10 (scale a))%Z by ring.
    replace (mant c * pow10 (scale a) * pow10 (scale b))%Z
      with (mant c * pow10 (scale b) * pow10 (scale a))%Z by ring.
    apply Z.mul_le_mono_nonneg_r; lia.
Qed.

Lemma num_eqb_iff a b : num_eqb a b = true <-> num_le a b /\ num_le b a.
Proof. unfold num_eqb, num_le. rewrite Z.eqb_eq. lia. Qed.

(** A value strictly above [a] is not equal to anything equal to [a]. *)
Lemma num_eqb_above a b v :
  num_lt a b -> num_eqb a v = true -> num_eqb b v = false.
Proof.
  intros Hlt Ha. destruct (num_eqb b v) eqn:Hb; [|reflexivity].
  apply num_eqb_iff in Ha as [Hav Hva]. apply num_eqb_iff in Hb as [Hbv Hvb].
  pose proof (num_le_trans _ _ _ Hbv Hva) as Hba.
  unfold num_lt in Hlt. unfold num_le in Hba. lia.
Qed.

End NumberFacts.

(** ** Sorting *)

Module SortFacts.
Import JS OrderSpec NumberFacts Results.

Section ByScore.
Context {A : Type} (score : A -> number).

Lemma insert_sorted_perm x l :
  Permutation (insert_sorted (by_score_desc score) x l) (x :: l).
Proof.
  induction l as [|y l IH]; cbn; [reflexivity|].
  destruct (num_pos ((by_score_desc score) x y)); [|reflexivity].
  rewrite IH. apply perm_swap.
Qed.

Lemma sort_perm l : Permutation (sort (by_score_desc score) l) l.
Proof.
  induction l as [|x l IH]; cbn; [reflexivity|].
  rewrite insert_sorted_perm. constructor. exact IH.
Qed.

Lemma insert_sorted_sorted x l :
  StronglySorted (desc score) l -> StronglySorted (desc score) (insert_sorted (by_score_desc score) x l).
Proof.
  induction 1 as [|y l Hl IH Hy]; cbn.
  - repeat constructor.
  - destruct (num_pos ((by_score_desc score) x y)) eqn:Hc.
    + apply num_pos_sub in Hc. constructor; [exact IH|].
      rewrite insert_sorted_perm. constructor; [|exact Hy].
      apply num_lt_le. exact Hc.
    + apply num_pos_sub_false in Hc. constructor.
      * constructor; assumption.
      * constructor; [exact Hc|].
        eapply Forall_impl; [exact Hy|]. intros z Hz.
        unfold desc in *. eapply num_le_trans; eassumption.
Qed.

Lemma sort_sorted l : StronglySorted (desc score) (sort (by_score_desc score) l).
Proof.
  induction l as [|x l IH]; cbn; [constructor|].
  apply insert_sorted_sorted. exact IH.
Qed.

Lemma insert_sorted_stable v x l :
  List.filter (same_score score v) (insert_sorted (by_score_desc score) x l) =
  List.filter (same_score score v) (x :: l).
Proof.
  induction l as [|y l IH]; [reflexivity|].
  cbn [insert_sorted].
  destruct (num_pos ((by_score_desc score) x y)) eqn:Hc; [|reflexivity].
  apply num_pos_sub in Hc.
  cbn [List.filter] in *. rewrite IH.
  destruct (same_score score v x) eqn:Hx; [|reflexivity].
  unfold same_score in *. rewrite (num_eqb_above _ _ _ Hc Hx). reflexivity.
Qed.

(** Entries of equal score keep the order they had. *)
Lemma sort_stable v l :
  List.filter (same_score score v) (sort (by_score_desc score) l) =
  List.filter (same_score score v) l.
Proof.
  induction l as [|x l IH]; [reflexivity|].
  cbn [sort]. rewrite insert_sorted_stable. cbn [List.filter].
  rewrite IH. reflexivity.
Qed.

Lemma same_score_refl x : same_score score (score x) x = true.
Proof. unfold same_score. apply num_eqb_iff. unfold num_le. lia. Qed.

(** The first element of a sorted list is the first of its score. *)
Lemma filter_head_sorted x l :
  List.filter (same_score score (score x)) (x :: l) =
  x :: List.filter (same_score score (score x)) l.
Proof. cbn [List.filter]. rewrite same_score_refl. reflexivity. Qed.

(** A sorted, stable rearrangement is unique: any sort that meets the
    contract of [Array.prototype.sort] returns what [sort] returns. *)
Lemma sorted_stable_unique (l1 : list A) : forall l2,
  Permutation l1 l2 ->
  StronglySorted (desc score) l1 -> StronglySorted (desc score) l2 ->
  (forall v, List.filter (same_score score v) l1 =
             List.filter (same_score score v) l2) ->
  l1 = l2.
Proof.
  induction l1 as [|x l1 IH]; intros l2 Hp Hs1 Hs2 Hst.
  - apply Permutation_nil_l in Hp. congruence.
  - destruct l2 as [|y l2];
      [apply Permutation_sym, Permutation_nil_l in Hp; discriminate|].
    apply StronglySorted_inv in Hs1 as [Hs1 Hx].
    apply StronglySorted_inv in Hs2 as [Hs2 Hy].
    assert (Hyx : num_le (score y) (score x)).
    { assert (Hin : In y (x :: l1)).
      { apply (Permutation_in _ (Permutation_sym Hp)). left. reflexivity. }
      destruct Hin as [<- | Hin]; [unfold num_le; lia|].
      rewrite Forall_forall in Hx. apply Hx, list_elem_of_In, Hin. }
    assert (Hxy : num_le (score x) (score y)).
    { assert (Hin : In x (y :: l2)).
      { apply (Permutation_in _ Hp). left. reflexivity. }
      destruct Hin as [<- | Hin]; [unfold num_le; lia|].
      rewrite Forall_forall in Hy. apply Hy, list_elem_of_In, Hin. }
    assert (Hsame : same_score score (score x) y = true).
    { apply num_eqb_iff. split; assumption. }
    pose proof (Hst (score x)) as Hhead.
    rewrite filter_head_sorted in Hhead. cbn [List.filter] in Hhead.
    rewrite Hsame in Hhead. injection Hhead as <- Htail.
    f_equal. apply IH; [|assumption|assumption|].
    + eapply Permutation_cons_inv, Hp.
    + intros v. specialize (Hst v). cbn [List.filter] in Hst.
      destruct (same_score score v x); [injection Hst as Hst|]; exact Hst.
Qed.

End ByScore.

End SortFacts.

(** ** The Submission Controller *)

Module DetectionProps.
Import JS Browser Detection DetectionSpec.

(** Where [catch_block] leaves the page, whatever was thrown. *)
Lemma catch_block_state message w :
  selectedFile (catch_block message w) = selectedFile w /\
  loadingOverlay_active (catch_block message w) = false /\
  runButton_disabled (catch_block message w) = false /\
  storage (env_of (catch_block message w)) = storage (env_of w).
Proof. unfold catch_block. repeat split. Qed.

Lemma catch_block_alerts message w :
  alerts (trace (env_of (catch_block message w))) =
  (alerts (trace (env_of w)) ++
   [prefix +:+ (if includes message "Failed to fetch"
                then guidance else message)])%list.
Proof.
  unfold catch_block, alerts, prefix, guidance. cbn [env_of world_page].
  destruct (includes message "Failed to fetch"); cbn;
    rewrite !omap_app; cbn; rewrite app_nil_r; reflexivity.
Qed.

(** The page when [fetch] is awaited: busy, with one request sent. *)
Lemma runDetection_start_file w file :
  selectedFile w = Some file ->
  exists w1,
    runDetection_start w = AwaitFetch w1 /\
    selectedFile w1 = Some file /\
    storage (env_of w1) = storage (env_of w) /\
    trace (env_of w1) =
      (trace (env_of w) ++
       [Console Log [AStr "Sending request to API..."];
        Fetch "POST" "http://localhost:8000/predict" [("file", file)]])%list.
Proof.
  intros Hf. unfold runDetection_start. rewrite Hf.
  eexists. split; [reflexivity|]. cbn. rewrite Hf.
  repeat split. rewrite <- app_assoc. reflexivity.
Qed.

Lemma resume_not_ok E r w :
  ok r = false ->
  runDetection_resume E (Responded r) w =
  catch_block (error_message E r)
    (console Log [AStr "Response status:"; AInt (status r)] w).
Proof.
  intros Hok. unfold runDetection_resume, try_catch, try_block, error_message.
  unfold mbind, exec, eval, throw. rewrite Hok. cbn [negb].
  destruct (response_json E r) as [errorData | m]; [|reflexivity].
  destruct (get E errorData "detail"); reflexivity.
Qed.

Lemma resume_rejected E message w :
  runDetection_resume E (Rejected message) w = catch_block message w.
Proof. reflexivity. Qed.

Lemma resume_ok_unparseable E r w :
  ok r = true -> JSON.parse (body r) = None ->
  runDetection_resume E (Responded r) w =
  catch_block (msg_json_syntax E (body r))
    (console Log [AStr "Response status:"; AInt (status r)] w).
Proof.
  intros Hok Hbody. unfold runDetection_resume, try_catch, try_block.
  unfold mbind, exec, eval, response_json. rewrite Hok, Hbody. reflexivity.
Qed.

Lemma alerts_console l args (w : world) :
  alerts (trace (env_of (console l args w))) = alerts (trace (env_of w)).
Proof. unfold alerts. cbn. rewrite omap_app. cbn. apply app_nil_r. Qed.

(** Every failed run: from a page with a file selected, a run whose
    [try] block throws [message] ends retryable, with the storage as it
    was and one alert. *)
Lemma failed_run E o w file w1 w2 message :
  selectedFile w = Some file ->
  runDetection_start w = AwaitFetch w1 ->
  runDetection_resume E o w1 = catch_block message w2 ->
  selectedFile w2 = selectedFile w1 ->
  storage (env_of w2) = storage (env_of w1) ->
  alerts (trace (env_of w2)) = alerts (trace (env_of w1)) ->
  retryable file (runDetection E o w) /\
  storage (env_of (runDetection E o w)) = storage (env_of w) /\
  alerts (trace (env_of (runDetection E o w))) =
    (alerts (trace (env_of w)) ++
     [prefix +:+ (if includes message "Failed to fetch"
                  then guidance else message)])%list.
Proof.
  intros Hf Hstart Hres Hsel Hsto Hal.
  destruct (runDetection_start_file w file Hf) as (w1' & Hs & Hf1 & Hst1 & Htr1).
  rewrite Hstart in Hs. injection Hs as <-.
  unfold runDetection. rewrite Hstart, Hres.
  destruct (catch_block_state message w2) as (Hc1 & Hc2 & Hc3 & Hc4).
  unfold retryable. rewrite Hc1, Hc2, Hc3, Hc4, Hsel, Hsto, Hf1, Hst1.
  repeat split.
  rewrite catch_block_alerts, Hal, Htr1. unfold alerts at 1.
  rewrite omap_app. cbn. rewrite app_nil_r. reflexivity.
Qed.

(** C3. Select: a file whose lower-cased name does not end in ".dcm" is
    rejected, and so is a file of more than 50 * 1024 * 1024 bytes
    whatever its name; a rejection shows a reason and leaves the selected
    file and the submit button as they were. A file that passes both
    checks becomes the selected file, its name is shown, and the submit
    button is enabled. *)
Theorem select_validates (file : File) (w : world) :
  (endsWith (toLowerCase (name file)) ".dcm" = false \/
   (50 * 1024 * 1024 < size file)%N ->
   (exists reason, validateAndDisplayFile file w = alert reason w) /\
   selectedFile (validateAndDisplayFile file w) = selectedFile w /\
   runButton_disabled (validateAndDisplayFile file w) = runButton_disabled w /\
   fileNameDisplay_textContent (validateAndDisplayFile file w) =
     fileNameDisplay_textContent w)
  /\
  (endsWith (toLowerCase (name file)) ".dcm" = true ->
   (size file <= 50 * 1024 * 1024)%N ->
   selectedFile (validateAndDisplayFile file w) = Some file /\
   runButton_disabled (validateAndDisplayFile file w) = false /\
   fileNameDisplay_textContent (validateAndDisplayFile file w) =
     "Selected: " +:+ name file /\
   alerts (trace (env_of (validateAndDisplayFile file w))) =
     alerts (trace (env_of w))).
Proof.
  unfold validateAndDisplayFile. split.
  - intros Hbad.
    destruct (endsWith (toLowerCase (name file)) ".dcm") eqn:Hext; cbn [negb].
    + destruct Hbad as [Hbad | Hbig]; [discriminate|].
      assert (Hlt : (maxSize <? size file)%N = true)
        by (apply N.ltb_lt; exact Hbig).
      rewrite Hlt. repeat split. eexists; reflexivity.
    + repeat split. eexists; reflexivity.
  - intros Hext Hsize. rewrite Hext. cbn [negb].
    assert (Hle : (maxSize <? size file)%N = false)
      by (apply N.ltb_ge; exact Hsize).
    rewrite Hle. repeat split.
    unfold alerts. cbn. rewrite omap_app. cbn. apply app_nil_r.
Qed.

(** A rejected and an accepted selection. *)
Lemma select_validates_witness :
  let w := World None "" true false false (Env ∅ []) in
  let scan := Build_File "scan.dcm" (10 * 1024 * 1024) "" in
  let photo := Build_File "photo.png" 1000 "" in
  let w1 := validateAndDisplayFile scan w in
  (selectedFile w1 = Some scan /\ runButton_disabled w1 = false)
  /\ selectedFile (validateAndDisplayFile photo w1) = Some scan.
Proof.
  cbv zeta. split.
  - pose proof (proj2 (select_validates
        (Build_File "scan.dcm" (10 * 1024 * 1024) "")
        (World None "" true false false (Env ∅ []))) eq_refl) as H.
    destruct H as (H1 & H2 & _).
    + vm_compute. discriminate.
    + split; assumption.
  - pose proof (proj1 (select_validates (Build_File "photo.png" 1000 "")
        (validateAndDisplayFile (Build_File "scan.dcm" (10 * 1024 * 1024) "")
           (World None "" true false false (Env ∅ []))))) as H.
    destruct H as (_ & H2 & _).
    + left. reflexivity.
    + exact H2.
Defined.

(** C4. Submit with no selected file shows the notice and does nothing
    else: the trace grows by that one alert (no request, no storage
    write), the storage and the page are as before, and the handler never
    reaches the point where it waits for the network. *)
Theorem submit_without_file (E : Engine) (o : fetch_outcome) (w : world) :
  selectedFile w = None ->
  runDetection_start w = Done (runDetection E o w) /\
  trace (env_of (runDetection E o w)) =
    (trace (env_of w) ++ [Alert "Please select a DICOM file"])%list /\
  filter is_fetch (trace (env_of (runDetection E o w))) =
    filter is_fetch (trace (env_of w)) /\
  filter is_setItem (trace (env_of (runDetection E o w))) =
    filter is_setItem (trace (env_of w)) /\
  storage (env_of (runDetection E o w)) = storage (env_of w) /\
  runDetection E o w = alert "Please select a DICOM file" w.
Proof.
  intros Hnone. unfold runDetection, runDetection_start. rewrite Hnone.
  cbn. rewrite !filter_app. cbn. rewrite !app_nil_r. repeat split.
Qed.

Lemma submit_without_file_witness :
  let w := World None "" true false false (Env ∅ []) in
  trace (env_of (runDetection V8 (Rejected "Failed to fetch") w)) =
  [Alert "Please select a DICOM file"].
Proof.
  cbv zeta.
  exact (proj1 (proj2 (submit_without_file V8 (Rejected "Failed to fetch")
    (World None "" true false false (Env ∅ [])) eq_refl))).
Defined.

(** A run that reaches the network and gets a response that is not ok. *)
Lemma run_not_ok E w file r :
  selectedFile w = Some file -> ok r = false ->
  retryable file (runDetection E (Responded r) w) /\
  storage (env_of (runDetection E (Responded r) w)) = storage (env_of w) /\
  alerts (trace (env_of (runDetection E (Responded r) w))) =
    (alerts (trace (env_of w)) ++
     [prefix +:+ (if includes (error_message E r) "Failed to fetch"
                  then guidance else error_message E r)])%list.
Proof.
  intros Hf Hok.
  destruct (runDetection_start_file w file Hf) as (w1 & Hs & _).
  eapply failed_run; eauto using resume_not_ok, alerts_console.
Qed.

(** A run whose request is rejected. *)
Lemma run_rejected E w file message :
  selectedFile w = Some file ->
  retryable file (runDetection E (Rejected message) w) /\
  storage (env_of (runDetection E (Rejected message) w)) =
    storage (env_of w) /\
  alerts (trace (env_of (runDetection E (Rejected message) w))) =
    (alerts (trace (env_of w)) ++
     [prefix +:+ (if includes message "Failed to fetch"
                  then guidance else message)])%list.
Proof.
  intros Hf.
  destruct (runDetection_start_file w file Hf) as (w1 & Hs & _).
  eapply failed_run; eauto using resume_rejected.
Qed.

(** A run whose response is ok but is not JSON. *)
Lemma run_ok_unparseable E w file r :
  selectedFile w = Some file -> ok r = true -> JSON.parse (body r) = None ->
  retryable file (runDetection E (Responded r) w) /\
  storage (env_of (runDetection E (Responded r) w)) = storage (env_of w) /\
  alerts (trace (env_of (runDetection E (Responded r) w))) =
    (alerts (trace (env_of w)) ++
     [prefix +:+ (if includes (msg_json_syntax E (body r)) "Failed to fetch"
                  then guidance else msg_json_syntax E (body r))])%list.
Proof.
  intros Hf Hok Hbody.
  destruct (runDetection_start_file w file Hf) as (w1 & Hs & _).
  eapply failed_run; eauto using resume_ok_unparseable, alerts_console.
Qed.




(** C9, as the code has it. From a page with a file selected, every
    failed run ends retryable. When [fetch] rejects, the alert is the
    fixed opening followed by the rejection's own message, replaced by
    the guidance naming http://localhost:8000 exactly when that message
    contains "Failed to fetch". When an ok response is not JSON, nothing
    is stored and the alert is the opening followed by the engine's
    message for the syntax error, under the same replacement rule. *)
Theorem transport_error_message (E : Engine) (w : world) (file : File) :
  selectedFile w = Some file ->
  (forall message,
     retryable file (runDetection E (Rejected message) w) /\
     alerts (trace (env_of (runDetection E (Rejected message) w))) =
       (alerts (trace (env_of w)) ++
        [prefix +:+ (if includes message "Failed to fetch"
                     then guidance else message)])%list) /\
  (forall message,
     includes message "Failed to fetch" = true ->
     alerts (trace (env_of (runDetection E (Rejected message) w))) =
       (alerts (trace (env_of w)) ++ [prefix +:+ guidance])%list /\
     includes (prefix +:+ guidance) API_URL = true) /\
  (forall r,
     ok r = true -> JSON.parse (body r) = None ->
     retryable file (runDetection E (Responded r) w) /\
     storage (env_of (runDetection E (Responded r) w)) = storage (env_of w) /\
     alerts (trace (env_of (runDetection E (Responded r) w))) =
       (alerts (trace (env_of w)) ++
        [prefix +:+
         (if includes (msg_json_syntax E (body r)) "Failed to fetch"
          then guidance else msg_json_syntax E (body r))])%list).
Proof.
  intros Hf. split; [|split].
  - intros message.
    destruct (run_rejected E w file message Hf) as (Hretry & _ & Hal).
    split; assumption.
  - intros message Hinc.
    destruct (run_rejected E w file message Hf) as (_ & _ & Hal).
    rewrite Hal, Hinc. split; reflexivity.
  - intros r Hok Hbody. exact (run_ok_unparseable E w file r Hf Hok Hbody).
Qed.

Lemma transport_error_message_witness :
  let file := Build_File "scan.dcm" 1000 "" in
  let w := World (Some file) "Selected: scan.dcm" false false false
             (Env ∅ []) in
  alerts (trace (env_of (runDetection V8 (Rejected "Failed to fetch") w))) =
  ["An error occurred during detection. Please ensure the backend server is running on http://localhost:8000"].
Proof.
  cbv zeta.
  destruct (transport_error_message V8
    (World (Some (Build_File "scan.dcm" 1000 "")) "Selected: scan.dcm"
       false false false (Env ∅ []))
    (Build_File "scan.dcm" 1000 "") eq_refl) as (_ & Hfetch & _).
  exact (proj1 (Hfetch "Failed to fetch" eq_refl)).
Defined.

(** C9 as stated fails: an ok response whose body is not JSON is
    reported with the syntax error's message, and the alert names no
    service location. *)
Lemma malformed_success_no_guidance :
  let file := Build_File "scan.dcm" 1000 "" in
  let w := World (Some file) "Selected: scan.dcm" false false false
             (Env ∅ []) in
  let r := {| status := 200; body := "<html>" |} in
  ok r = true /\
  JSON.parse (body r) = None /\
  alerts (trace (env_of (runDetection V8 (Responded r) w))) =
    [prefix +:+ msg_json_syntax V8 "<html>"] /\
  forallb (fun m => negb (includes m "localhost"))
    (alerts (trace (env_of (runDetection V8 (Responded r) w)))) = true.
Proof.
  cbv zeta. split; [reflexivity|]. split; [vm_compute; reflexivity|].
  split; vm_compute; reflexivity.
Qed.

End DetectionProps.

(** ** The Result Renderer *)

Module ResultsProps.
Import JS Browser OrderSpec NumberFacts SortFacts Results ResultsSpec.

Lemma numeric_entries_scores entries :
  numeric_entries (scores entries) = inr entries.
Proof.
  induction entries as [|[k n] l IH]; cbn; [reflexivity|].
  unfold scores in IH. rewrite IH. reflexivity.
Qed.

Lemma shown_render_row l : map shown (map render_row l) = l.
Proof.
  induction l as [|[k n] l IH]; cbn; [reflexivity|]. rewrite IH. reflexivity.
Qed.

Lemma or_else_truthy d x : or_else d (JArr []) = x -> x <> JNull.
Proof.
  unfold or_else. destruct d as [j|]; [destruct (truthy j) eqn:Ht|];
    intros <-; try discriminate. intros ->. discriminate.
Qed.

Lemma get_length E v : v <> JNull -> get E v "length" = Normal (own_length v).
Proof. destruct v; try reflexivity. congruence. Qed.

(** The card of a source whose [detected] is a list of labels (or
    missing, or falsy) and whose [confidences] has numbers for values (or
    is missing, or falsy). *)
Lemma render_card E key cfg dprops labels entries :
  or_else (assoc "detected" dprops) (JArr []) = JArr labels ->
  numeric_entries
    (Object_entries (or_else (assoc "confidences" dprops) (JObj []))) =
    inr entries ->
  renderModelCard E key (JObj dprops) cfg =
  Normal (Card (String.eqb key "ensemble") (title cfg) (badge cfg)
            (match labels with
             | [] => NoHemorrhageDetected
             | _ :: _ => HemorrhageDetected
             end)
            (map ToString labels)
            (map render_row (sort (by_score_desc snd) entries))).
Proof.
  intros Hd Hc. unfold renderModelCard. cbn [get bind].
  rewrite Hd. cbn [get bind]. unfold render_rows. rewrite Hc.
  destruct labels as [|l0 labels]; reflexivity.
Qed.

(** The fields of a card that do not depend on the Source Result, and the
    headline, which depends on its [detected] field only. *)
Lemma render_card_fixed E key cfg data c :
  renderModelCard E key data cfg = Normal c ->
  card_ensemble c = String.eqb key "ensemble" /\
  card_title c = title cfg /\
  card_badge c = badge cfg /\
  exists d, get E data "detected" = Normal d /\ card_headline c = headline_from d.
Proof.
  unfold renderModelCard. intros H.
  destruct (get E data "detected") as [d|] eqn:Hd; [|discriminate].
  cbn [bind] in H.
  destruct (get E data "confidences") as [cf|]; [|discriminate].
  cbn [bind] in H.
  rewrite get_length in H by (eapply or_else_truthy; reflexivity).
  cbn [bind] in H.
  destruct (gt0 (own_length (or_else d (JArr [])))) eqn:Hg.
  - destruct (render_badges E (or_else d (JArr []))); [|discriminate].
    cbn [bind] in H.
    destruct (render_rows E (or_else cf (JObj []))); [|discriminate].
    injection H as <-. cbn. repeat split. exists d.
    unfold headline_from. rewrite Hg. split; reflexivity.
  - destruct (render_rows E (or_else cf (JObj []))); [|discriminate].
    injection H as <-. cbn. repeat split. exists d.
    unfold headline_from. rewrite Hg. split; reflexivity.
Qed.

Lemma or_else_falsy d x : truthy_val d = false -> or_else d x = x.
Proof.
  unfold or_else, truthy_val. destruct d as [j|]; [|reflexivity].
  intros ->. reflexivity.
Qed.

Lemma flagged_iff (e : string * number) :
  row_flagged (render_row e) = true <->
  num_le (num_of_Z 50) (row_width (render_row e)).
Proof. destruct e as [k n]. cbn. apply num_geb_le. Qed.

(** The rows of a card, for a well-formed Source Result. *)
Lemma render_card_rows E key cfg dprops labels entries :
  or_else (assoc "detected" dprops) (JArr []) = JArr labels ->
  or_else (assoc "confidences" dprops) (JObj []) = JObj (scores entries) ->
  exists c,
    renderModelCard E key (JObj dprops) cfg = Normal c /\
    card_headline c =
      match labels with
      | [] => NoHemorrhageDetected
      | _ :: _ => HemorrhageDetected
      end /\
    card_detected c = map ToString labels /\
    card_rows c = map render_row (sort (by_score_desc snd) entries).
Proof.
  intros Hd Hc. eexists. split.
  - apply render_card; [exact Hd|]. rewrite Hc. apply numeric_entries_scores.
  - repeat split.
Qed.

(** C6. For a Source Result whose [confidences] maps labels to numbers,
    the card's score rows are the entries of [confidences] in descending
    score order, entries of equal score in the order [confidences] lists
    them, and a row carries the threshold marker exactly when its score
    is at least 50. In particular [{A: 72.0, B: 91.5, C: 40.0}] is shown
    as B, A, C with B and A marked and C not. *)
Theorem rows_ranked_and_flagged :
  (forall (E : Engine) (key : string) (cfg : config)
          (dprops : list (string * json)) (labels : list json)
          (entries : list (string * number)),
     or_else (assoc "detected" dprops) (JArr []) = JArr labels ->
     assoc "confidences" dprops = Some (JObj (scores entries)) ->
     exists c,
       renderModelCard E key (JObj dprops) cfg = Normal c /\
       Permutation (map shown (card_rows c)) entries /\
       StronglySorted (desc snd) (map shown (card_rows c)) /\
       (forall v,
          List.filter (same_score snd v) (map shown (card_rows c)) =
          List.filter (same_score snd v) entries) /\
       Forall (fun r => row_flagged r = true <->
                        num_le (num_of_Z 50) (row_width r)) (card_rows c))
  /\
  (forall (E : Engine) (key : string) (cfg : config) (labels : list json),
     exists c,
       renderModelCard E key
         (JObj [("detected", JArr labels);
                ("confidences",
                 JObj (scores [("A", Num 72 0); ("B", Num 915 1);
                               ("C", Num 40 0)]))]) cfg = Normal c /\
       map row_label (card_rows c) = ["B"; "A"; "C"] /\
       map row_flagged (card_rows c) = [true; true; false]).
Proof.
  split.
  - intros E key cfg dprops labels entries Hd Hc.
    destruct (render_card_rows E key cfg dprops labels entries Hd)
      as (c & Hr & _ & _ & Hrows).
    { rewrite Hc. reflexivity. }
    exists c. split; [exact Hr|]. rewrite Hrows, shown_render_row.
    split; [apply sort_perm|]. split; [apply sort_sorted|].
    split; [intros v; apply sort_stable|].
    apply Forall_forall. intros r Hin.
    apply list_elem_of_In, in_map_iff in Hin as (e & <- & _).
    apply flagged_iff.
  - intros E key cfg labels. eexists. split.
    + apply (render_card E key cfg _ labels
               [("A", Num 72 0); ("B", Num 915 1); ("C", Num 40 0)]);
        reflexivity.
    + split; reflexivity.
Qed.

(** Two labels tie at 72: they stay in the order of [confidences]. *)
Lemma rows_ranked_and_flagged_witness :
  exists c,
    renderModelCard V8 "model_a"
      (JObj [("detected", JArr [JStr "B"]);
             ("confidences",
              JObj (scores [("A", Num 72 0); ("B", Num 915 1);
                            ("C", Num 40 0); ("D", Num 720 1)]))])
      (Config "EfficientNet V2" "Primary" "First detection model") = Normal c /\
    Permutation (map shown (card_rows c))
      [("A", Num 72 0); ("B", Num 915 1); ("C", Num 40 0); ("D", Num 720 1)].
Proof.
  destruct (proj1 rows_ranked_and_flagged V8 "model_a"
    (Config "EfficientNet V2" "Primary" "First detection model")
    [("detected", JArr [JStr "B"]);
     ("confidences",
      JObj (scores [("A", Num 72 0); ("B", Num 915 1);
                    ("C", Num 40 0); ("D", Num 720 1)]))]
    [JStr "B"]
    [("A", Num 72 0); ("B", Num 915 1); ("C", Num 40 0); ("D", Num 720 1)]
    eq_refl eq_refl) as (c & Hr & Hp & _).
  exists c. split; assumption.
Defined.

(** C7. The headline of a card is "Hemorrhage Detected" exactly when the
    source's [detected] list is not empty, and "No Hemorrhage Detected"
    otherwise. It is read off the [detected] field alone: two sources
    with the same [detected] get the same headline whatever their
    [confidences]; so the headline and the per-label markers can
    disagree, either way round. *)
Theorem headline_from_detected_only :
  (forall (E : Engine) (key : string) (cfg : config)
          (dprops : list (string * json)) (labels : list json)
          (entries : list (string * number)),
     or_else (assoc "detected" dprops) (JArr []) = JArr labels ->
     or_else (assoc "confidences" dprops) (JObj []) = JObj (scores entries) ->
     exists c,
       renderModelCard E key (JObj dprops) cfg = Normal c /\
       (card_headline c = HemorrhageDetected <-> labels <> []) /\
       (card_headline c = NoHemorrhageDetected <-> labels = []))
  /\
  (forall (E : Engine) key1 cfg1 data1 c1 key2 cfg2 data2 c2,
     get E data1 "detected" = get E data2 "detected" ->
     renderModelCard E key1 data1 cfg1 = Normal c1 ->
     renderModelCard E key2 data2 cfg2 = Normal c2 ->
     card_headline c1 = card_headline c2)
  /\
  (forall (E : Engine) (key : string) (cfg : config),
     exists c,
       renderModelCard E key
         (JObj [("detected", JArr []);
                ("confidences", JObj (scores [("Epidural", Num 81 0)]))])
         cfg = Normal c /\
       card_headline c = NoHemorrhageDetected /\
       map row_flagged (card_rows c) = [true])
  /\
  (forall (E : Engine) (key : string) (cfg : config),
     exists c,
       renderModelCard E key
         (JObj [("detected", JArr [JStr "Epidural"]);
                ("confidences", JObj (scores [("Epidural", Num 10 0)]))])
         cfg = Normal c /\
       card_headline c = HemorrhageDetected /\
       map row_flagged (card_rows c) = [false]).
Proof.
  split; [|split; [|split]].
  - intros E key cfg dprops labels entries Hd Hc.
    destruct (render_card_rows E key cfg dprops labels entries Hd Hc)
      as (c & Hr & Hh & _).
    exists c. split; [exact Hr|]. rewrite Hh.
    destruct labels; split; split; congruence.
  - intros E key1 cfg1 data1 c1 key2 cfg2 data2 c2 Hsame H1 H2.
    apply render_card_fixed in H1 as (_ & _ & _ & d1 & Hd1 & ->).
    apply render_card_fixed in H2 as (_ & _ & _ & d2 & Hd2 & ->).
    congruence.
  - intros E key cfg. eexists. split.
    + apply (render_card E key cfg _ [] [("Epidural", Num 81 0)]);
        reflexivity.
    + split; reflexivity.
  - intros E key cfg. eexists. split.
    + apply (render_card E key cfg _ [JStr "Epidural"]
               [("Epidural", Num 10 0)]); reflexivity.
    + split; reflexivity.
Qed.

Lemma headline_from_detected_only_witness :
  exists c,
    renderModelCard V8 "model_b"
      (JObj [("detected", JArr [JStr "Subdural"; JStr "Epidural"]);
             ("confidences",
              JObj (scores [("Epidural", Num 64 0); ("Subdural", Num 88 0)]))])
      (Config "ConvNext" "Secondary" "Second detection model") = Normal c /\
    card_headline c = HemorrhageDetected.
Proof.
  destruct (proj1 headline_from_detected_only V8 "model_b"
    (Config "ConvNext" "Secondary" "Second detection model")
    [("detected", JArr [JStr "Subdural"; JStr "Epidural"]);
     ("confidences",
      JObj (scores [("Epidural", Num 64 0); ("Subdural", Num 88 0)]))]
    [JStr "Subdural"; JStr "Epidural"]
    [("Epidural", Num 64 0); ("Subdural", Num 88 0)]
    eq_refl eq_refl) as (c & Hr & Hyes & _).
  exists c. split; [exact Hr|]. apply Hyes. discriminate.
Defined.

(** C10. A source whose [detected] is missing or falsy is rendered with
    the empty list in its place: headline "No Hemorrhage Detected", no
    badge. A source whose [confidences] is missing or falsy is rendered
    with the empty mapping in its place: no score row. With both missing
    the card has that headline and no rows; so has the card of the empty
    object. None of these throws. *)
Theorem missing_fields_default (E : Engine) (key : string) (cfg : config)
    (dprops : list (string * json)) :
  (truthy_val (assoc "detected" dprops) = false ->
   forall entries,
     or_else (assoc "confidences" dprops) (JObj []) = JObj (scores entries) ->
     or_else (assoc "detected" dprops) (JArr []) = JArr [] /\
     exists c,
       renderModelCard E key (JObj dprops) cfg = Normal c /\
       card_headline c = NoHemorrhageDetected /\
       card_detected c = [])
  /\
  (truthy_val (assoc "confidences" dprops) = false ->
   forall labels,
     or_else (assoc "detected" dprops) (JArr []) = JArr labels ->
     or_else (assoc "confidences" dprops) (JObj []) = JObj [] /\
     exists c,
       renderModelCard E key (JObj dprops) cfg = Normal c /\
       card_rows c = [])
  /\
  (truthy_val (assoc "detected" dprops) = false ->
   truthy_val (assoc "confidences" dprops) = false ->
   renderModelCard E key (JObj dprops) cfg =
   Normal (Card (String.eqb key "ensemble") (title cfg) (badge cfg)
             NoHemorrhageDetected [] []))
  /\
  renderModelCard E key (JObj []) cfg =
  Normal (Card (String.eqb key "ensemble") (title cfg) (badge cfg)
            NoHemorrhageDetected [] []).
Proof.
  split; [|split; [|split]].
  - intros Hd entries Hc. pose proof (or_else_falsy _ (JArr []) Hd) as Hd'.
    split; [exact Hd'|].
    destruct (render_card_rows E key cfg dprops [] entries Hd' Hc)
      as (c & Hr & Hh & Hb & _).
    exists c. repeat split; assumption.
  - intros Hc labels Hd. pose proof (or_else_falsy _ (JObj []) Hc) as Hc'.
    split; [exact Hc'|].
    destruct (render_card_rows E key cfg dprops labels [] Hd Hc')
      as (c & Hr & _ & _ & Hrows).
    exists c. split; assumption.
  - intros Hd Hc.
    apply (render_card E key cfg dprops [] []).
    + apply or_else_falsy, Hd.
    + rewrite (or_else_falsy _ _ Hc). reflexivity.
  - reflexivity.
Qed.

Lemma missing_fields_default_witness :
  renderModelCard V8 "model_c"
    (JObj [("detected", JNull); ("confidences", JBool false)])
    (Config "Hybrid Model" "Validation" "Third detection model") =
  Normal (Card false "Hybrid Model" "Validation" NoHemorrhageDetected [] []).
Proof.
  exact (proj1 (proj2 (proj2 (missing_fields_default V8 "model_c"
    (Config "Hybrid Model" "Validation" "Third detection model")
    [("detected", JNull); ("confidences", JBool false)]))) eq_refl eq_refl).
Defined.

(** *** The comparison grid *)

(** Looking a key up does not depend on the order of the properties. *)
Lemma assoc_In {A} k (v : A) l :
  NoDup (keys l) -> (assoc k l = Some v <-> In (k, v) l).
Proof.
  induction l as [|[k' v'] l IH]; cbn; intros Hnd.
  - split; [discriminate | contradiction].
  - apply NoDup_cons in Hnd as [Hk' Hnd].
    destruct (String.eqb k k') eqn:Hk.
    + apply String.eqb_eq in Hk as ->. split.
      * intros [= ->]. left. reflexivity.
      * intros [[= ->] | Hin]; [reflexivity|].
        exfalso. apply Hk'. apply list_elem_of_In.
        apply in_map_iff. exists (k', v). split; [reflexivity | exact Hin].
    + rewrite (IH Hnd). apply String.eqb_neq in Hk. split.
      * intros Hin. right. exact Hin.
      * intros [[= -> ->] | Hin]; [contradiction | exact Hin].
Qed.

Lemma assoc_perm {A} k (l l' : list (string * A)) :
  NoDup (keys l) -> Permutation l l' -> assoc k l = assoc k l'.
Proof.
  intros Hnd Hp.
  assert (Hnd' : NoDup (keys l')).
  { unfold keys. rewrite <- Hp. exact Hnd. }
  destruct (assoc k l) as [v|] eqn:Hl.
  - symmetry. apply (assoc_In k v l' Hnd').
    apply (Permutation_in _ Hp). apply (assoc_In k v l Hnd). exact Hl.
  - destruct (assoc k l') as [v|] eqn:Hl'; [|reflexivity].
    apply (assoc_In k v l' Hnd') in Hl'.
    apply (Permutation_in _ (Permutation_sym Hp)) in Hl'.
    apply (assoc_In k v l Hnd) in Hl'. congruence.
Qed.

(** The loop reads the sources by key: the order of the keys in
    [predictions] does not matter. *)
Lemma render_each_key_order E props props' entries html w :
  NoDup (keys props) -> Permutation props props' ->
  render_each E (Some (JObj props)) entries html w =
  render_each E (Some (JObj props')) entries html w.
Proof.
  intros Hnd Hp. revert html w.
  induction entries as [|[key cfg] rest IH]; intros html w; [reflexivity|].
  cbn [render_each]. unfold mbind, eval. cbn [get_val get].
  rewrite (assoc_perm key props props' Hnd Hp).
  destruct (assoc key props') as [data|].
  - destruct (truthy data); cbn [negb].
    + destruct (renderModelCard E key data cfg); [apply IH | reflexivity].
    + unfold exec. apply IH.
  - unfold exec. apply IH.
Qed.

(** The loop adds at most one card per configured key, each with the
    class of its key. *)
Lemma render_each_cards E p entries html w w' html' :
  render_each E p entries html w = (w', Normal html') ->
  exists added,
    html' = (html ++ added)%list /\
    (length added <= length entries)%nat /\
    Forall (fun c => exists key, In key (keys entries) /\
                     card_ensemble c = String.eqb key "ensemble") added.
Proof.
  revert html w. induction entries as [|[key cfg] rest IH]; intros html w.
  - cbn. intros [= <- <-]. exists []. rewrite app_nil_r.
    repeat split; [cbn; lia | constructor].
  - cbn [render_each]. unfold mbind, eval, exec.
    destruct (get_val E p key) as [modelData|]; [|discriminate].
    assert (Hskip : forall w0,
      render_each E p rest html w0 = (w', Normal html') ->
      exists added, html' = (html ++ added)%list /\
        (length added <= length ((key, cfg) :: rest))%nat /\
        Forall (fun c => exists k, In k (keys ((key, cfg) :: rest)) /\
                  card_ensemble c = String.eqb k "ensemble") added).
    { intros w0 H0. destruct (IH _ _ H0) as (added & -> & Hlen & Hall).
      exists added. split; [reflexivity|]. split; [cbn; lia|].
      eapply Forall_impl; [exact Hall|]. intros c (k & Hk & Hc).
      exists k. split; [right; exact Hk | exact Hc]. }
    destruct modelData as [data|]; [|apply Hskip].
    destruct (truthy data); cbn [negb]; [|apply Hskip].
    destruct (renderModelCard E key data cfg) as [c|] eqn:Hc; [|discriminate].
    intros H0. destruct (IH _ _ H0) as (added & -> & Hlen & Hall).
    exists (c :: added). rewrite <- app_assoc. split; [reflexivity|].
    split; [cbn; lia|]. constructor.
    + exists key. split; [left; reflexivity|].
      apply render_card_fixed in Hc. apply Hc.
    + eapply Forall_impl; [exact Hall|]. intros c' (k & Hk & Hc').
      exists k. split; [right; exact Hk | exact Hc'].
Qed.

(** Whatever the payload, a grid that is rendered has at most three
    cards, and none of them is the ensemble's. *)
Lemma grid_without_ensemble E results w w' :
  displayModelComparison E results w = (w', Normal tt) ->
  (length (model_comparison_innerHTML w') <= 3)%nat /\
  Forall (fun c => card_ensemble c = false) (model_comparison_innerHTML w').
Proof.
  unfold displayModelComparison, mbind, eval, exec.
  destruct (get E results "predictions") as [p|]; [|discriminate].
  destruct (render_each E p MODEL_CONFIG [] w) as [w1 [html|]] eqn:Hloop;
    [|discriminate].
  intros [= <-]. cbn.
  destruct (render_each_cards _ _ _ _ _ _ _ Hloop) as (added & -> & Hlen & Hall).
  cbn in *. split; [exact Hlen|].
  eapply Forall_impl; [exact Hall|]. intros c (k & Hk & ->).
  destruct Hk as [<- | [<- | [<- | []]]]; reflexivity.
Qed.

(** C1, on a payload that has all four sources. The grid shows model A,
    model B, model C in that order whatever the order of the keys, and
    stops there: the ensemble's Source Result is never looked up, it gets
    no card and no diagnostic. *)
Theorem ensemble_never_rendered :
  let w := init V8 (loading (JSON.stringify four_sources)) in
  JSON.parse (JSON.stringify four_sources) = Some four_sources /\
  map card_title (model_comparison_innerHTML w) =
    ["EfficientNet V2"; "ConvNext"; "Hybrid Model"] /\
  map card_ensemble (model_comparison_innerHTML w) = [false; false; false] /\
  warnings (trace (env_of w)) = [] /\
  alerts (trace (env_of w)) = [] /\
  assoc "ensemble" MODEL_CONFIG = None.
Proof. cbv zeta. repeat split; vm_compute; reflexivity. Qed.

(** *** Loading *)

Lemma quiet_refl w : quiet w w.
Proof. split; reflexivity. Qed.

Lemma quiet_trans w1 w2 w3 : quiet w1 w2 -> quiet w2 w3 -> quiet w1 w3.
Proof. intros [A1 N1] [A2 N2]. split; congruence. Qed.

Lemma quiet_console l args w : quiet w (console l args w).
Proof.
  split; unfold alerts, navigations; cbn; rewrite omap_app; cbn;
    apply app_nil_r.
Qed.

Lemma displayImages_quiet E results w w' c :
  displayImages E results w = (w', c) -> quiet w w'.
Proof.
  unfold displayImages, mbind, eval, exec.
  destruct (get E results "original_image"); [|intros [= <- <-]; apply quiet_refl].
  destruct (get E results "processed_image"); intros [= <- <-]; split; reflexivity.
Qed.

Lemma render_each_quiet E p entries html w w' c :
  render_each E p entries html w = (w', c) -> quiet w w'.
Proof.
  revert html w. induction entries as [|[key cfg] rest IH]; intros html w.
  - cbn. intros [= <- <-]. apply quiet_refl.
  - cbn [render_each]. unfold mbind, eval, exec.
    destruct (get_val E p key) as [modelData|];
      [|intros [= <- <-]; apply quiet_refl].
    assert (Hskip : forall w0, quiet w w0 ->
      render_each E p rest html w0 = (w', c) -> quiet w w').
    { intros w0 Hq H0. eapply quiet_trans; [exact Hq | eapply IH, H0]. }
    destruct modelData as [data|];
      [|apply Hskip, quiet_console].
    destruct (truthy data); cbn [negb]; [|apply Hskip, quiet_console].
    destruct (renderModelCard E key data cfg);
      [apply IH | intros [= <- <-]; apply quiet_refl].
Qed.

Lemma displayModelComparison_quiet E results w w' c :
  displayModelComparison E results w = (w', c) -> quiet w w'.
Proof.
  unfold displayModelComparison, mbind, eval, exec.
  destruct (get E results "predictions") as [p|];
    [|intros [= <- <-]; apply quiet_refl].
  destruct (render_each E p MODEL_CONFIG [] w) as [w1 [html|]] eqn:Hloop;
    intros [= <- <-].
  - eapply quiet_trans; [eapply render_each_quiet, Hloop|].
    split; unfold alerts, navigations; cbn; rewrite omap_app; cbn;
      apply app_nil_r.
  - eapply render_each_quiet, Hloop.
Qed.

Lemma init_present E w s :
  getItem "detectionResult" w = Some s -> s <> "" -> load_end w (init E w).
Proof.
  intros Hs Hne. unfold init. rewrite Hs.
  destruct s as [|ch s']; [contradiction|].
  unfold try_catch, mbind, eval, exec.
  destruct (parse_results E (String ch s')) as [results|m].
  - destruct (displayImages E results
                (console Log [AStr "Loaded multi-model results:";
                              AJson results] w)) as [w1 [[]|m]] eqn:Himg.
    + destruct (displayModelComparison E results w1) as [w2 [[]|m]] eqn:Hcmp.
      * apply Rendered.
        eapply quiet_trans; [apply quiet_console|].
        eapply quiet_trans; [eapply displayImages_quiet, Himg|].
        eapply displayModelComparison_quiet, Hcmp.
      * eapply Redirected; [|reflexivity].
        eapply quiet_trans; [apply quiet_console|].
        eapply quiet_trans; [eapply displayImages_quiet, Himg|].
        eapply displayModelComparison_quiet, Hcmp.
    + eapply Redirected; [|reflexivity].
      eapply quiet_trans; [apply quiet_console|].
      eapply displayImages_quiet, Himg.
  - eapply Redirected; [|reflexivity]. apply quiet_refl.
Qed.

(** The loop changes nothing of the page but the console. *)
Lemma render_each_page E p entries : forall html w w' c,
  render_each E p entries html w = (w', c) ->
  original_image_src w' = original_image_src w /\
  processed_image_src w' = processed_image_src w /\
  model_comparison_innerHTML w' = model_comparison_innerHTML w /\
  storage (env_of w') = storage (env_of w).
Proof.
  induction entries as [|[key cfg] rest IH]; intros html w w' c.
  - cbn. intros [= <- <-]. repeat split.
  - cbn [render_each]. unfold mbind, eval, exec.
    destruct (get_val E p key) as [modelData|];
      [|intros [= <- <-]; repeat split].
    assert (Hskip :
      render_each E p rest html
        (console Warn [AStr ("No data for " +:+ key)] w) = (w', c) ->
      original_image_src w' = original_image_src w /\
      processed_image_src w' = processed_image_src w /\
      model_comparison_innerHTML w' = model_comparison_innerHTML w /\
      storage (env_of w') = storage (env_of w)).
    { intros H0. exact (IH _ _ _ _ H0). }
    destruct modelData as [data|]; [|exact Hskip].
    destruct (truthy data); cbn [negb]; [|exact Hskip].
    destruct (renderModelCard E key data cfg);
      [apply IH | intros [= <- <-]; repeat split].
Qed.

(** [displayImages] throws only before it has bound anything. *)
Lemma displayImages_throws E results w w' message :
  displayImages E results w = (w', Throw message) -> w' = w.
Proof.
  unfold displayImages, mbind, eval, exec.
  destruct results; cbn [get]; intros [= <-]; reflexivity.
Qed.




End ResultsProps.

(** ** The handoff from the Submission Controller to the Result Renderer *)

Module HandoffProps.
Import JS Browser DetectionSpec ResultsSpec HandoffSpec.

#[local] Existing Instance Detection.world_page.
#[local] Existing Instance Results.world_page.

(** A run that gets an ok response with a JSON body, into a storage that
    takes the write. *)
Lemma run_ok E w file r payload :
  Detection.selectedFile w = Some file ->
  Detection.ok r = true ->
  JSON.parse (Detection.body r) = Some payload ->
  storage_error E (storage (env_of w)) "detectionResult"
    (JSON.stringify payload) = None ->
  Detection.runDetection E (Detection.Responded r) w =
  navigate "results.html"
    (setItem "detectionResult" (JSON.stringify payload)
       (console Log [AStr "Detection result:"; AJson payload]
          (console Log [AStr "Response status:"; AInt (Detection.status r)]
             (emit (Fetch "POST" "http://localhost:8000/predict"
                      [("file", file)])
                (console Log [AStr "Sending request to API..."]
                   (Detection.showLoading
                      (Detection.set_runButton_disabled true w))))))).
Proof.
  intros Hf Hok Hbody Hroom.
  unfold Detection.runDetection, Detection.runDetection_start. rewrite Hf.
  unfold Detection.runDetection_resume, try_catch, Detection.try_block.
  unfold mbind, exec, eval, Detection.response_json, sessionStorage_setItem.
  rewrite Hok, Hbody. cbn in Hroom |- *. rewrite Hroom. reflexivity.
Qed.

(** The same run into a storage that refuses the write: the exception
    reaches the [catch] block. *)
Lemma run_refused E w file r payload message :
  Detection.selectedFile w = Some file ->
  Detection.ok r = true ->
  JSON.parse (Detection.body r) = Some payload ->
  storage_error E (storage (env_of w)) "detectionResult"
    (JSON.stringify payload) = Some message ->
  Detection.runDetection E (Detection.Responded r) w =
  Detection.catch_block message
    (console Log [AStr "Detection result:"; AJson payload]
       (console Log [AStr "Response status:"; AInt (Detection.status r)]
          (emit (Fetch "POST" "http://localhost:8000/predict"
                   [("file", file)])
             (console Log [AStr "Sending request to API..."]
                (Detection.showLoading
                   (Detection.set_runButton_disabled true w)))))).
Proof.
  intros Hf Hok Hbody Hfull.
  unfold Detection.runDetection, Detection.runDetection_start. rewrite Hf.
  unfold Detection.runDetection_resume, try_catch, Detection.try_block.
  unfold mbind, exec, eval, Detection.response_json, sessionStorage_setItem.
  rewrite Hok, Hbody. cbn in Hfull |- *. rewrite Hfull. reflexivity.
Qed.




End HandoffProps.

(** ** Further properties of the two scripts *)

(** ** Strings: suffixes and case *)

Module StringFacts.
Import JS TextFacts.

Lemma substring_all t : substring 0 (String.length t) t = t.
Proof. induction t as [|c t IH]; [reflexivity|]. cbn. rewrite IH. reflexivity. Qed.

Lemma substring_append a t :
  substring (String.length a) (String.length t) (a +:+ t) = t.
Proof.
  induction a as [|c a IH]; [rewrite append_nil_l; apply substring_all|].
  rewrite append_cons. cbn [String.length substring]. exact IH.
Qed.

Lemma substring_suffix n : forall s,
  (n <= String.length s)%nat ->
  exists a, s = a +:+ substring n (String.length s - n) s.
Proof.
  induction n as [|n IH]; intros s Hn.
  - exists "". rewrite Nat.sub_0_r, substring_all. reflexivity.
  - destruct s as [|c s]; [cbn in Hn; lia|].
    destruct (IH s) as (a & Ha); [cbn in Hn; lia|].
    exists (String c a). rewrite append_cons. cbn [String.length substring].
    rewrite Nat.sub_succ. f_equal. exact Ha.
Qed.

(** [s.endsWith(t)] holds exactly when [s] is something followed by [t]. *)
Lemma endsWith_iff s t : endsWith s t = true <-> exists a, s = a +:+ t.
Proof.
  unfold endsWith. split.
  - destruct (Nat.leb_spec (String.length t) (String.length s)) as [Hle|];
      [|discriminate].
    intros He. apply String.eqb_eq in He.
    destruct (substring_suffix (String.length s - String.length t) s)
      as (a & Ha); [lia|].
    exists a. rewrite Ha at 1. f_equal.
    replace (String.length s - (String.length s - String.length t))%nat
      with (String.length t) by lia.
    exact He.
  - intros (a & ->). rewrite length_append.
    destruct (Nat.leb_spec (String.length t)
                (String.length a + String.length t)) as [_|]; [|lia].
    replace (String.length a + String.length t - String.length t)%nat
      with (String.length a) by lia.
    rewrite substring_append. apply String.eqb_refl.
Qed.

Lemma toLowerCase_append a b :
  toLowerCase (a +:+ b) = toLowerCase a +:+ toLowerCase b.
Proof.
  induction a as [|c a IH]; [reflexivity|].
  rewrite append_cons. cbn [toLowerCase]. rewrite IH. reflexivity.
Qed.

(** Where the lower-cased string splits, the string splits. *)
Lemma toLowerCase_split s : forall a b,
  toLowerCase s = a +:+ b ->
  exists s1 s2, s = s1 +:+ s2 /\ toLowerCase s1 = a /\ toLowerCase s2 = b.
Proof.
  induction s as [|c s IH]; intros a b H.
  - destruct a; [|discriminate]. exists "", "". repeat split. exact H.
  - destruct a as [|x a].
    + exists "", (String c s). repeat split. exact H.
    + rewrite append_cons in H. cbn [toLowerCase] in H.
      injection H as Hc Hs. destruct (IH a b Hs) as (s1 & s2 & -> & H1 & H2).
      exists (String c s1), s2. rewrite append_cons. cbn [toLowerCase].
      rewrite Hc, H1. repeat split. exact H2.
Qed.

End StringFacts.

(** ** detection.js: the checks, the retry, the page under any use *)

Module SubmissionFacts.
Import JS Browser Detection DetectionSpec DetectionPage PageSpec StringFacts.

Lemma dicom_name_iff n :
  endsWith (toLowerCase n) ".dcm" = true <-> dicom_name n.
Proof.
  rewrite endsWith_iff. unfold dicom_name. split.
  - intros (a & Ha). apply toLowerCase_split in Ha as (s1 & s2 & -> & _ & H2).
    exists s1, s2. split; [reflexivity | exact H2].
  - intros (stem & ext & -> & Hext). exists (toLowerCase stem).
    rewrite toLowerCase_append, Hext. reflexivity.
Qed.

(** The three ways [validateAndDisplayFile] ends. *)
Lemma validate_cases file w :
  (endsWith (toLowerCase (name file)) ".dcm" = false /\
   validateAndDisplayFile file w =
     alert "Please select a DICOM (.dcm) file" w) \/
  (endsWith (toLowerCase (name file)) ".dcm" = true /\
   (maxSize < size file)%N /\
   validateAndDisplayFile file w = alert "File size exceeds 50 MB limit" w) \/
  (valid_file file /\
   validateAndDisplayFile file w =
     console Log [AStr "File selected:"; AStr (name file);
                  AStr ("(" +:+ size_MB (size file) +:+ " MB)")]
       (set_runButton_disabled false
          (set_fileNameDisplay ("Selected: " +:+ name file)
             (set_selectedFile (Some file) w)))).
Proof.
  unfold validateAndDisplayFile, valid_file.
  destruct (endsWith (toLowerCase (name file)) ".dcm"); cbn [negb];
    [|left; split; reflexivity].
  right. destruct (N.ltb_spec maxSize (size file)).
  - left. repeat split. assumption.
  - right. repeat split. assumption.
Qed.

(** X1. The reasons of a rejection, and the order of the checks. *)
Theorem rejection_reasons (file : File) (w : world) :
  (~ dicom_name (name file) ->
   validateAndDisplayFile file w =
     alert "Please select a DICOM (.dcm) file" w) /\
  (dicom_name (name file) -> (50 * 1024 * 1024 < size file)%N ->
   validateAndDisplayFile file w =
     alert "File size exceeds 50 MB limit" w) /\
  (dicom_name (name file) -> (size file <= 50 * 1024 * 1024)%N ->
   selectedFile (validateAndDisplayFile file w) = Some file /\
   alerts (trace (env_of (validateAndDisplayFile file w))) =
     alerts (trace (env_of w))).
Proof.
  change (50 * 1024 * 1024)%N with maxSize.
  destruct (validate_cases file w) as [(He & ->) | [(He & Hs & ->) | ((He & Hs) & ->)]].
  - split; [reflexivity|].
    split; intros Hd; apply dicom_name_iff in Hd; congruence.
  - split; [|split].
    + intros Hn. exfalso. apply Hn, dicom_name_iff, He.
    + reflexivity.
    + intros _ Hle. lia.
  - split; [|split].
    + intros Hn. exfalso. apply Hn, dicom_name_iff, He.
    + intros _ Hlt. lia.
    + intros _ _. split; [reflexivity|].
      rewrite DetectionProps.alerts_console. reflexivity.
Qed.

Lemma rejection_reasons_witness :
  let w := World None "" true false false (Env ∅ []) in
  validateAndDisplayFile (Build_File "notes.txt" 10 "") w =
    alert "Please select a DICOM (.dcm) file" w /\
  validateAndDisplayFile (Build_File "SCAN.DCM" (51 * 1024 * 1024) "") w =
    alert "File size exceeds 50 MB limit" w /\
  selectedFile (validateAndDisplayFile (Build_File "Scan.Dcm" 10 "") w) =
    Some (Build_File "Scan.Dcm" 10 "").
Proof.
  cbv zeta. split; [|split].
  - apply (rejection_reasons (Build_File "notes.txt" 10 "")).
    intros Hd. apply dicom_name_iff in Hd. vm_compute in Hd. discriminate.
  - apply (rejection_reasons (Build_File "SCAN.DCM" (51 * 1024 * 1024) "")).
    + exists "SCAN", ".DCM". split; reflexivity.
    + vm_compute. reflexivity.
  - apply (rejection_reasons (Build_File "Scan.Dcm" 10 "")).
    + exists "Scan", ".Dcm". split; reflexivity.
    + vm_compute. discriminate.
Defined.

(** X2. A pick or a drop whose first file fails a check leaves the file
    selected earlier in place, and a submission then uploads that earlier
    file. *)
Theorem rejected_pick_keeps_earlier_file (old new : File) (rest : list File)
    (w : world) :
  selectedFile w = Some old ->
  ~ valid_file new ->
  (selectedFile (handleFileSelect (new :: rest) w) = Some old /\
   exists w1,
     runDetection_start (handleFileSelect (new :: rest) w) = AwaitFetch w1 /\
     last (trace (env_of w1)) =
       Some (Fetch "POST" "http://localhost:8000/predict" [("file", old)])) /\
  (selectedFile (handleDrop (new :: rest) w) = Some old /\
   uploadArea_dragover (handleDrop (new :: rest) w) = false /\
   exists w1,
     runDetection_start (handleDrop (new :: rest) w) = AwaitFetch w1 /\
     last (trace (env_of w1)) =
       Some (Fetch "POST" "http://localhost:8000/predict" [("file", old)])).
Proof.
  intros Hold Hbad.
  assert (Hkeep : forall w0, selectedFile w0 = Some old ->
    selectedFile (validateAndDisplayFile new w0) = Some old /\
    uploadArea_dragover (validateAndDisplayFile new w0) =
      uploadArea_dragover w0).
  { intros w0 H0.
    destruct (validate_cases new w0) as [(_ & ->) | [(_ & _ & ->) | (Hv & _)]];
      [split; [exact H0 | reflexivity] .. | contradiction]. }
  assert (Hsend : forall w0, selectedFile w0 = Some old ->
    exists w1, runDetection_start w0 = AwaitFetch w1 /\
      last (trace (env_of w1)) =
        Some (Fetch "POST" "http://localhost:8000/predict" [("file", old)])).
  { intros w0 H0.
    destruct (DetectionProps.runDetection_start_file w0 old H0)
      as (w1 & Hs & _ & _ & Ht).
    exists w1. split; [exact Hs|]. rewrite Ht.
    change [Console Log [AStr "Sending request to API..."];
            Fetch "POST" "http://localhost:8000/predict" [("file", old)]]
      with ([Console Log [AStr "Sending request to API..."]] ++
            [Fetch "POST" "http://localhost:8000/predict" [("file", old)]])%list.
    rewrite app_assoc. apply last_snoc. }
  split.
  - cbn [handleFileSelect]. destruct (Hkeep w Hold) as (Hk & _).
    split; [exact Hk | exact (Hsend _ Hk)].
  - cbn [handleDrop].
    destruct (Hkeep (set_uploadArea_dragover false w) Hold) as (Hk & Hd).
    split; [exact Hk|]. split; [rewrite Hd; reflexivity | exact (Hsend _ Hk)].
Qed.

Lemma rejected_pick_keeps_earlier_file_witness :
  let old := Build_File "scan.dcm" 10 "" in
  let w := World (Some old) "Selected: scan.dcm" false false true (Env ∅ []) in
  selectedFile (handleDrop [Build_File "notes.txt" 10 ""] w) = Some old.
Proof.
  cbv zeta.
  refine (proj1 (proj2 (rejected_pick_keeps_earlier_file
    (Build_File "scan.dcm" 10 "") (Build_File "notes.txt" 10 "") []
    (World (Some (Build_File "scan.dcm" 10 "")) "Selected: scan.dcm"
       false false true (Env ∅ [])) eq_refl _))).
  intros (He & _). vm_compute in He. discriminate.
Defined.

(** X3. Whatever made a run fail (no connection, a status that is not
    ok, a body that is not JSON), the next submission uploads the same
    file again: the page is busy again, nothing was stored, and no
    navigation happened. *)
Theorem failed_run_can_be_resubmitted (E : Engine) (o : fetch_outcome)
    (w : world) (file : File) :
  selectedFile w = Some file ->
  stores_result o = false ->
  navigations (trace (env_of (runDetection E o w))) =
    navigations (trace (env_of w)) /\
  exists w1,
    runDetection_start (runDetection E o w) = AwaitFetch w1 /\
    selectedFile w1 = Some file /\
    runButton_disabled w1 = true /\
    loadingOverlay_active w1 = true /\
    storage (env_of w1) = storage (env_of w) /\
    last (trace (env_of w1)) =
      Some (Fetch "POST" "http://localhost:8000/predict" [("file", file)]).
Proof.
  intros Hf Hfail.
  assert (Hrun : exists message w2,
    runDetection E o w = catch_block message w2 /\
    selectedFile w2 = Some file /\
    storage (env_of w2) = storage (env_of w) /\
    navigations (trace (env_of w2)) = navigations (trace (env_of w))).
  { unfold runDetection, runDetection_start. rewrite Hf.
    assert (Hnav : forall (w0 : world) e,
      match e with Navigate _ => False | _ => True end ->
      navigations (trace (env_of (emit e w0))) =
      navigations (trace (env_of w0))).
    { intros w0 e He. unfold navigations. cbn. rewrite omap_app.
      destruct e; try contradiction; cbn; apply app_nil_r. }
    destruct o as [message | r].
    - rewrite DetectionProps.resume_rejected. eexists _, _.
      split; [reflexivity|]. split; [exact Hf|]. split; [reflexivity|].
      unfold console. rewrite !Hnav by exact I. reflexivity.
    - cbn [stores_result] in Hfail. destruct (ok r) eqn:Hok.
      + destruct (JSON.parse (body r)) eqn:Hbody; [discriminate|].
        rewrite (DetectionProps.resume_ok_unparseable E r _ Hok Hbody).
        eexists _, _. split; [reflexivity|]. split; [exact Hf|].
        split; [reflexivity|].
        unfold console. rewrite !Hnav by exact I. reflexivity.
      + rewrite (DetectionProps.resume_not_ok E r _ Hok).
        eexists _, _. split; [reflexivity|]. split; [exact Hf|].
        split; [reflexivity|].
        unfold console. rewrite !Hnav by exact I. reflexivity. }
  destruct Hrun as (message & w2 & -> & Hf2 & Hsto & Hnav).
  split.
  - rewrite <- Hnav. unfold catch_block, navigations. cbn.
    rewrite !omap_app. cbn. rewrite !app_nil_r. reflexivity.
  - destruct (DetectionProps.catch_block_state message w2) as (Hc1 & _ & _ & Hc4).
    destruct (DetectionProps.runDetection_start_file (catch_block message w2) file)
      as (w1 & Hs & Hf1 & Hst1 & Ht); [congruence|].
    exists w1. split; [exact Hs|]. split; [exact Hf1|].
    assert (Hw1 : w1 =
      emit (Fetch "POST" (API_URL +:+ "/predict") [("file", file)])
        (console Log [AStr "Sending request to API..."]
           (showLoading (set_runButton_disabled true (catch_block message w2))))).
    { unfold runDetection_start in Hs. rewrite Hc1, Hf2 in Hs.
      injection Hs as <-. reflexivity. }
    split; [rewrite Hw1; reflexivity|]. split; [rewrite Hw1; reflexivity|].
    split; [congruence|]. rewrite Ht.
    change [Console Log [AStr "Sending request to API..."];
            Fetch "POST" "http://localhost:8000/predict" [("file", file)]]
      with ([Console Log [AStr "Sending request to API..."]] ++
            [Fetch "POST" "http://localhost:8000/predict" [("file", file)]])%list.
    rewrite app_assoc. apply last_snoc.
Qed.

Lemma failed_run_can_be_resubmitted_witness :
  let file := Build_File "scan.dcm" 10 "" in
  let w := World (Some file) "Selected: scan.dcm" false false false
             (Env ∅ []) in
  exists w1,
    runDetection_start
      (runDetection V8 (Responded {| status := 502; body := "Bad Gateway" |}) w)
      = AwaitFetch w1 /\
    selectedFile w1 = Some file.
Proof.
  cbv zeta.
  destruct (failed_run_can_be_resubmitted V8
    (Responded {| status := 502; body := "Bad Gateway" |})
    (World (Some (Build_File "scan.dcm" 10 "")) "Selected: scan.dcm"
       false false false (Env ∅ []))
    (Build_File "scan.dcm" 10 "") eq_refl eq_refl)
    as (_ & w1 & Hs & Hf & _).
  exists w1. split; [exact Hs | exact Hf].
Defined.

End SubmissionFacts.

(** ** detection.js: the health check *)

Module HealthFacts.
Import JS Browser Detection DetectionPage PageSpec.

(** What the health check adds to the console once the request has
    settled: nothing, the log of the body and maybe the warning, or the
    two lines of the [catch] block. *)
Lemma health_resume_cases E o w :
  (checkBackendHealth_resume E o w = w /\
   exists r, o = Responded r /\ ok r = false) \/
  (exists r data m,
     o = Responded r /\ ok r = true /\
     JSON.parse (body r) = Some data /\
     get E data "model_loaded" = Normal m /\
     checkBackendHealth_resume E o w =
       (if truthy_val m then id
        else console Warn [AStr "Warning: Model is not loaded on backend"])
         (console Log [AStr "Backend health:"; AJson data] w)) \/
  (exists message w1,
     checkBackendHealth_resume E o w = health_catch message w1 /\
     (w1 = w \/ w1 = console Log [AStr "Backend health:"; AJson JNull] w) /\
     (o = Rejected message \/
      exists r, o = Responded r /\ ok r = true /\
        (JSON.parse (body r) = None \/ JSON.parse (body r) = Some JNull))).
Proof.
  unfold checkBackendHealth_resume, try_catch, health_try.
  destruct o as [message | r].
  - right; right. exists message, w. split; [reflexivity|].
    split; left; reflexivity.
  - destruct (ok r) eqn:Hok; [|left; split; [reflexivity | eauto]].
    right. unfold mbind, eval, exec, response_json.
    destruct (JSON.parse (body r)) as [data|] eqn:Hbody.
    + destruct (get E data "model_loaded") as [m|msg] eqn:Hget.
      * left. exists r, data, m. repeat split; try assumption.
        destruct (truthy_val m); reflexivity.
      * right. destruct data; try discriminate Hget.
        eexists _, _. split; [reflexivity|]. split; [right; reflexivity|].
        right. exists r. split; [reflexivity|]. split; [exact Hok|].
        right. exact Hbody.
    + right. eexists _, _. split; [reflexivity|]. split; [left; reflexivity|].
      right. exists r. split; [reflexivity|]. split; [exact Hok|].
      left. exact Hbody.
Qed.

(** The health check, settled: what it appended to the trace. *)
Lemma health_resume_trace E o w :
  exists new,
    trace (env_of (checkBackendHealth_resume E o w)) =
      (trace (env_of w) ++ new)%list /\
    Forall (fun e => is_console e = true) new /\
    same_page w (checkBackendHealth_resume E o w).
Proof.
  destruct (health_resume_cases E o w)
    as [(-> & _) | [(r & data & m & _ & _ & _ & _ & ->)
       | (msg & w1 & -> & Hw1 & _)]].
  - exists []. rewrite app_nil_r. repeat split. constructor.
  - destruct (truthy_val m).
    + eexists [_]. repeat split. repeat constructor.
    + eexists [_; _]. cbn. rewrite <- app_assoc. repeat split.
      repeat constructor.
  - destruct Hw1 as [-> | ->].
    + eexists [_; _]. unfold health_catch. cbn. rewrite <- app_assoc.
      repeat split. repeat constructor.
    + eexists [_; _; _]. unfold health_catch. cbn. rewrite <- !app_assoc.
      repeat split. repeat constructor.
Qed.

(** X4. The health check shows on the console only: whatever the backend
    answers, it sends one GET to /health, then writes console lines, and
    the file, the texts, the button, the overlay and the storage stay as
    they were; there is no alert and no navigation. *)
Theorem health_check_leaves_page (E : Engine) (o : fetch_outcome) (w : world) :
  same_page w (checkBackendHealth E o w) /\
  exists lines,
    trace (env_of (checkBackendHealth E o w)) =
      (trace (env_of w) ++
       Fetch "GET" "http://localhost:8000/health" [] :: lines)%list /\
    Forall (fun e => is_console e = true) lines /\
    alerts (trace (env_of (checkBackendHealth E o w))) =
      alerts (trace (env_of w)) /\
    navigations (trace (env_of (checkBackendHealth E o w))) =
      navigations (trace (env_of w)).
Proof.
  unfold checkBackendHealth.
  destruct (health_resume_trace E o (checkBackendHealth_start w))
    as (lines & Ht & Hall & Hsame).
  split.
  - destruct Hsame as (H1 & H2 & H3 & H4 & H5 & H6).
    repeat split; assumption.
  - exists lines. rewrite Ht. cbn. rewrite <- app_assoc.
    split; [reflexivity|]. split; [exact Hall|].
    assert (Hq : alerts lines = [] /\ navigations lines = []).
    { clear Ht. induction Hall as [|e l He _ [IH1 IH2]]; [split; reflexivity|].
      destruct e; try discriminate. split; assumption. }
    unfold alerts, navigations in *. rewrite !omap_app. cbn.
    destruct Hq as [-> ->]. rewrite !app_nil_r. split; reflexivity.
Qed.

(** X5. The health check stays silent about exactly two answers: a
    status that is not ok, and an ok object whose [model_loaded] is
    truthy. Every other answer (no connection, a body that is not JSON,
    [null], a value without [model_loaded], a falsy [model_loaded]) puts
    at least one warning on the console. *)
Theorem health_warns_unless_loaded (E : Engine) (o : fetch_outcome)
    (w : world) :
  warnings (trace (env_of (checkBackendHealth E o w))) =
    warnings (trace (env_of w)) <->
  no_complaint o.
Proof.
  unfold checkBackendHealth.
  assert (Hstart : warnings (trace (env_of (checkBackendHealth_start w))) =
                   warnings (trace (env_of w))).
  { unfold warnings. cbn. rewrite omap_app. cbn. apply app_nil_r. }
  rewrite <- Hstart. generalize (checkBackendHealth_start w). clear w Hstart.
  intros w.
  assert (Hlog : forall args (w0 : world),
    warnings (trace (env_of (console Log args w0))) =
    warnings (trace (env_of w0))).
  { intros. unfold warnings. cbn. rewrite omap_app. cbn. apply app_nil_r. }
  assert (Hwarn : forall args (w0 : world),
    warnings (trace (env_of (console Warn args w0))) =
    (warnings (trace (env_of w0)) ++ [args])%list).
  { intros. unfold warnings. cbn. rewrite omap_app. reflexivity. }
  assert (Hgrow : forall (l : list (list logarg)) x, (l ++ x)%list = l -> x = []).
  { intros l x H. apply (app_inv_head l). rewrite app_nil_r. exact H. }
  destruct (health_resume_cases E o w)
    as [(-> & r & -> & Hok) | [(r & data & m & -> & Hok & Hbody & Hget & ->)
       | (msg & w1 & -> & Hw1 & Hwhy)]].
  - split; [intros _; left; exact Hok | reflexivity].
  - destruct (truthy_val m) eqn:Hm.
    + cbn [id]. rewrite Hlog. split; [intros _|reflexivity].
      right. destruct data; cbn in Hget; try discriminate Hget;
        injection Hget as <-; try discriminate Hm.
      destruct (assoc "model_loaded" props) as [j|] eqn:Ha; [|discriminate Hm].
      exists props, j. repeat split; assumption.
    + rewrite Hwarn, Hlog. split.
      * intros H. apply Hgrow in H. discriminate.
      * intros [Hno | (props & j & _ & Hb & Ha & Hj)]; [congruence|].
        rewrite Hb in Hbody. injection Hbody as <-. cbn in Hget.
        rewrite Ha in Hget. injection Hget as <-. cbn in Hm. congruence.
  - assert (Hsame : warnings (trace (env_of w1)) = warnings (trace (env_of w))).
    { destruct Hw1 as [-> | ->]; [reflexivity | apply Hlog]. }
    unfold health_catch. rewrite !Hwarn, Hsame, <- app_assoc. split.
    + intros H. apply Hgrow in H. discriminate.
    + intros Hq. exfalso.
      destruct Hwhy as [-> | (r & -> & Hok & Hbody)]; [exact Hq|].
      destruct Hq as [Hno | (props & j & _ & Hb & _)]; [congruence|].
      destruct Hbody; congruence.
Qed.

End HealthFacts.

(** ** detection.js: the page under any sequence of events *)

Module PageFacts.
Import JS Browser Detection DetectionSpec DetectionPage PageSpec.
Import SubmissionFacts HealthFacts.

Lemma count_app p (l l' : list event) :
  count p (l ++ l') = (count p l + count p l')%nat.
Proof. unfold count. rewrite List.filter_app, length_app. reflexivity. Qed.

Lemma stored_refl sto : stored sto sto.
Proof. left. reflexivity. Qed.

Lemma stored_trans a b c : stored a b -> stored b c -> stored a c.
Proof.
  intros [-> | (v & ->)] [-> | (v' & ->)].
  - left. reflexivity.
  - right. eauto.
  - right. eauto.
  - right. exists v'. rewrite insert_insert_eq. reflexivity.
Qed.

(** How a settled upload ends: the result stored and the page left, or
    the [catch] block, reached before or after the logs of the [try]
    block. *)
Lemma resume_cases E o w :
  (exists r v,
     o = Responded r /\
     runDetection_resume E o w =
       navigate "results.html"
         (setItem "detectionResult" (JSON.stringify v)
            (console Log [AStr "Detection result:"; AJson v]
               (console Log [AStr "Response status:"; AInt (status r)] w)))) \/
  (exists message,
     runDetection_resume E o w = catch_block message w \/
     (exists r,
        runDetection_resume E o w =
          catch_block message
            (console Log [AStr "Response status:"; AInt (status r)] w)) \/
     (exists r v,
        runDetection_resume E o w =
          catch_block message
            (console Log [AStr "Detection result:"; AJson v]
               (console Log [AStr "Response status:"; AInt (status r)] w)))).
Proof.
  destruct o as [message | r].
  - right. exists message. left. apply DetectionProps.resume_rejected.
  - destruct (ok r) eqn:Hok.
    + destruct (JSON.parse (body r)) as [v|] eqn:Hbody.
      * unfold runDetection_resume, try_catch, try_block.
        unfold mbind, exec, eval, response_json, sessionStorage_setItem.
        rewrite Hok, Hbody. cbn [negb].
        destruct (storage_error E _ _ _) as [message|].
        -- right. exists message. right. right. exists r, v. reflexivity.
        -- left. exists r, v. split; reflexivity.
      * right. eexists. right. left. exists r.
        apply DetectionProps.resume_ok_unparseable; assumption.
    + right. eexists. right. left. exists r.
      apply DetectionProps.resume_not_ok; assumption.
Qed.

(** One event on the page: what it appends to the trace, and what it
    keeps. *)
Lemma handle_step E i s :
  exists new,
    trace (env_of (page (handle E i s))) =
      (trace (env_of (page s)) ++ new)%list /\
    (file_ok (page s) ->
     Forall allowed new /\ file_ok (page (handle E i s))) /\
    count is_navigate new = count is_setItem new /\
    (count is_navigate new + awaiting_predict (handle E i s) <=
     count is_upload new + awaiting_predict s)%nat /\
    count is_health new = 0%nat /\
    (awaiting_health (handle E i s) <= awaiting_health s)%nat /\
    stored (storage (env_of (page s)))
      (storage (env_of (page (handle E i s)))) /\
    (count is_setItem new = 0%nat ->
     storage (env_of (page (handle E i s))) = storage (env_of (page s))).
Proof.
  assert (Hpick : forall file w n m,
    let s' := State (validateAndDisplayFile file w) n m in
    exists new,
      trace (env_of (validateAndDisplayFile file w)) =
        (trace (env_of w) ++ new)%list /\
      (file_ok w ->
       Forall allowed new /\ file_ok (validateAndDisplayFile file w)) /\
      count is_navigate new = count is_setItem new /\
      (count is_navigate new + n <= count is_upload new + n)%nat /\
      count is_health new = 0%nat /\
      stored (storage (env_of w))
        (storage (env_of (validateAndDisplayFile file w))) /\
      (count is_setItem new = 0%nat ->
       storage (env_of (validateAndDisplayFile file w)) =
       storage (env_of w))).
  { intros file w n m s'.
    destruct (validate_cases file w)
      as [(_ & ->) | [(_ & _ & ->) | (Hv & ->)]].
    - eexists [_]. split; [reflexivity|]. split.
      { intros Hok. split; [repeat constructor | exact Hok]. }
      repeat split; try apply stored_refl. cbn. lia.
    - eexists [_]. split; [reflexivity|]. split.
      { intros Hok. split; [repeat constructor | exact Hok]. }
      repeat split; try apply stored_refl. cbn. lia.
    - eexists [_]. split; [reflexivity|]. split.
      { intros _. split; [repeat constructor | exact Hv]. }
      repeat split; try apply stored_refl. cbn. lia. }
  destruct s as [w n m]. destruct i as [| files | | | files | | o | o];
    cbn [handle page awaiting_predict awaiting_health].
  - exists []. rewrite app_nil_r. repeat split; try apply stored_refl;
      try (intros; assumption); try constructor; cbn; lia.
  - destruct files as [|file files]; cbn [handleFileSelect].
    + exists []. rewrite app_nil_r. repeat split; try apply stored_refl;
        try (intros; assumption); try constructor; cbn; lia.
    + destruct (Hpick file w n m) as (new & H1 & H2 & H3 & H4 & H5 & H6 & H7).
      exists new. split; [exact H1|]. split; [exact H2|].
      repeat split; try assumption; try lia; try (apply H7; assumption).
  - exists []. rewrite app_nil_r. repeat split; try apply stored_refl;
      try (intros; assumption); try constructor; cbn; lia.
  - exists []. rewrite app_nil_r. repeat split; try apply stored_refl;
      try (intros; assumption); try constructor; cbn; lia.
  - destruct files as [|file files]; cbn [handleDrop].
    + exists []. rewrite app_nil_r. repeat split; try apply stored_refl;
        try (intros; assumption); try constructor; cbn; lia.
    + destruct (Hpick file (set_uploadArea_dragover false w) n m)
        as (new & H1 & H2 & H3 & H4 & H5 & H6 & H7).
      exists new. split; [exact H1|]. split; [exact H2|].
      repeat split; try assumption; try lia; try (apply H7; assumption).
  - unfold runDetection_start. destruct (selectedFile w) as [file|] eqn:Hf;
      cbn [page awaiting_predict awaiting_health].
    + eexists [_; _]. cbn. rewrite <- app_assoc. split; [reflexivity|]. split.
      { unfold file_ok. cbn. rewrite Hf. intros Hv. split; [|exact Hv].
        constructor; [exact I|]. constructor; [|constructor].
        right. repeat split. exists file. split; [reflexivity | exact Hv]. }
      repeat split; try apply stored_refl; cbn; lia.
    + eexists [_]. split; [reflexivity|]. split.
      { unfold file_ok. cbn. rewrite Hf. intros _. repeat constructor. }
      repeat split; try apply stored_refl; cbn; lia.
  - destruct n as [|n]; cbn [page awaiting_predict awaiting_health].
    + exists []. rewrite app_nil_r. repeat split; try apply stored_refl;
        try (intros; assumption); try constructor; cbn; lia.
    + destruct (resume_cases E o w)
        as [(r & v & _ & ->)
           | (message & [-> | [(r & ->) | (r & v & ->)]])].
      * eexists [_; _; _; _]. cbn. rewrite <- !app_assoc.
        split; [reflexivity|]. split.
        { intros Hok. split; [repeat constructor | exact Hok]. }
        split; [cbn; lia|]. split; [cbn; lia|]. split; [cbn; lia|].
        split; [lia|]. split; [right; eauto|]. cbn. discriminate.
      * eexists [_; _]. unfold catch_block. cbn. rewrite <- !app_assoc.
        split; [reflexivity|]. split.
        { intros Hok. split; [repeat constructor | exact Hok]. }
        repeat split; try apply stored_refl; cbn; lia.
      * eexists [_; _; _]. unfold catch_block. cbn. rewrite <- !app_assoc.
        split; [reflexivity|]. split.
        { intros Hok. split; [repeat constructor | exact Hok]. }
        repeat split; try apply stored_refl; cbn; lia.
      * eexists [_; _; _; _]. unfold catch_block. cbn. rewrite <- !app_assoc.
        split; [reflexivity|]. split.
        { intros Hok. split; [repeat constructor | exact Hok]. }
        repeat split; try apply stored_refl; cbn; lia.
  - destruct m as [|m]; cbn [page awaiting_predict awaiting_health].
    + exists []. rewrite app_nil_r. repeat split; try apply stored_refl;
        try (intros; assumption); try constructor; cbn; lia.
    + destruct (health_resume_trace E o w)
        as (lines & Ht & Hall & (Hs1 & _ & _ & _ & _ & Hs6)).
      assert (Hlines : Forall allowed lines /\
                forall p, (forall l a, p (Console l a) = false) ->
                          count p lines = 0%nat).
      { clear Ht. induction Hall as [|e l He _ [IH1 IH2]].
        - split; [constructor | reflexivity].
        - destruct e; try discriminate. split; [constructor; [exact I | exact IH1]|].
          intros p Hp. unfold count in *. cbn. rewrite Hp. apply IH2, Hp. }
      destruct Hlines as [Hal Hcnt].
      exists lines. split; [exact Ht|]. split.
      { unfold file_ok. rewrite Hs1. intros Hok. split; assumption. }
      rewrite !Hcnt by reflexivity. rewrite Hs6.
      repeat split; try apply stored_refl; lia.
Qed.

(** Any sequence of events, from any state of the page. *)
Lemma run_steps E inputs : forall s,
  exists new,
    trace (env_of (page (run E inputs s))) =
      (trace (env_of (page s)) ++ new)%list /\
    (file_ok (page s) ->
     Forall allowed new /\ file_ok (page (run E inputs s))) /\
    count is_navigate new = count is_setItem new /\
    (count is_navigate new + awaiting_predict (run E inputs s) <=
     count is_upload new + awaiting_predict s)%nat /\
    count is_health new = 0%nat /\
    (awaiting_health (run E inputs s) <= awaiting_health s)%nat /\
    stored (storage (env_of (page s)))
      (storage (env_of (page (run E inputs s)))) /\
    (count is_setItem new = 0%nat ->
     storage (env_of (page (run E inputs s))) = storage (env_of (page s))).
Proof.
  induction inputs as [|i inputs IH]; intros s.
  - exists []. cbn. rewrite app_nil_r. repeat split; try apply stored_refl;
      try (intros; assumption); try constructor; lia.
  - cbn [run fold_left]. fold (run E inputs (handle E i s)).
    destruct (handle_step E i s)
      as (n1 & T1 & A1 & N1 & U1 & G1 & H1 & S1 & Z1).
    destruct (IH (handle E i s))
      as (n2 & T2 & A2 & N2 & U2 & G2 & H2 & S2 & Z2).
    exists (n1 ++ n2)%list. rewrite T2, T1, <- app_assoc.
    split; [reflexivity|]. split.
    { intros Hok. destruct (A1 Hok) as [F1 K1]. destruct (A2 K1) as [F2 K2].
      split; [apply Forall_app; split; assumption | exact K2]. }
    rewrite !count_app. split; [lia|]. split; [lia|]. split; [lia|].
    split; [lia|]. split; [eapply stored_trans; eassumption|].
    intros Hz. rewrite Z2, Z1 by lia. reflexivity.
Qed.

(** X6. From the load of the page on, whatever the user and the network
    do and in whatever order, the page only alerts, writes to the
    console, asks for the backend's health, uploads a file that passed
    both checks to /predict, stores under "detectionResult" and leaves
    for results.html; it sets no timer, and the file it holds has passed
    both checks. *)
Theorem page_events_allowed (E : Engine) (w : world) (inputs : list input) :
  selectedFile w = None ->
  exists new,
    trace (env_of (page (run E inputs (DOMContentLoaded w)))) =
      (trace (env_of w) ++ new)%list /\
    Forall allowed new /\
    file_ok (page (run E inputs (DOMContentLoaded w))).
Proof.
  intros Hnone.
  destruct (run_steps E inputs (DOMContentLoaded w)) as (new & Ht & Hal & _).
  destruct Hal as [Hall Hok]; [unfold file_ok; cbn; rewrite Hnone; exact I|].
  exists (Fetch "GET" "http://localhost:8000/health" [] :: new).
  split; [|split; [|exact Hok]].
  - rewrite Ht. cbn. rewrite <- app_assoc. reflexivity.
  - constructor; [|exact Hall]. left. repeat split.
Qed.

Lemma page_events_allowed_witness :
  let file := Build_File "scan.dcm" 10 "" in
  let w := World None "" true false false (Env ∅ []) in
  exists new,
    trace (env_of (page (run V8
      [Drop_uploadArea [file]; Click_runButton;
       Settle_health (Rejected "Failed to fetch");
       Settle_predict (Responded {| status := 200; body := "{}" |})]
      (DOMContentLoaded w)))) = new /\
    Forall allowed new.
Proof.
  cbv zeta.
  destruct (page_events_allowed V8 (World None "" true false false (Env ∅ []))
    [Drop_uploadArea [Build_File "scan.dcm" 10 ""]; Click_runButton;
     Settle_health (Rejected "Failed to fetch");
     Settle_predict (Responded {| status := 200; body := "{}" |})] eq_refl)
    as (new & Ht & Hall & _).
  exists new. split; [exact Ht | exact Hall].
Defined.

(** X7. The health check is asked once, at the load; and the page leaves
    for the result view only in answer to an upload: at any moment there
    are as many navigations as stored results, and navigations and
    uploads still awaited together never exceed the uploads sent. *)
Theorem navigations_answer_uploads (E : Engine) (w : world)
    (inputs : list input) :
  exists new,
    trace (env_of (page (run E inputs (DOMContentLoaded w)))) =
      (trace (env_of w) ++
       Fetch "GET" "http://localhost:8000/health" [] :: new)%list /\
    count is_health new = 0%nat /\
    count is_navigate new = count is_setItem new /\
    (count is_navigate new +
     awaiting_predict (run E inputs (DOMContentLoaded w)) <=
     count is_upload new)%nat /\
    (awaiting_health (run E inputs (DOMContentLoaded w)) <= 1)%nat.
Proof.
  destruct (run_steps E inputs (DOMContentLoaded w))
    as (new & Ht & _ & Hn & Hu & Hg & Hh & _).
  cbn [DOMContentLoaded awaiting_predict awaiting_health] in Hu, Hh.
  exists new. split; [|repeat split; try assumption; lia].
  rewrite Ht. cbn. rewrite <- app_assoc. reflexivity.
Qed.

(** X8. Of the session storage the page writes the slot "detectionResult"
    only: through any sequence of events every other key keeps its
    value, a slot that held a value still holds one, and as long as the
    trace shows no [setItem] the storage is what it was. *)
Theorem storage_only_result_slot (E : Engine) (w : world)
    (inputs : list input) :
  let w' := page (run E inputs (DOMContentLoaded w)) in
  (forall k, k <> "detectionResult" ->
     storage (env_of w') !! k = storage (env_of w) !! k) /\
  (is_Some (storage (env_of w) !! "detectionResult") ->
   is_Some (storage (env_of w') !! "detectionResult")) /\
  exists new,
    trace (env_of w') =
      (trace (env_of w) ++
       Fetch "GET" "http://localhost:8000/health" [] :: new)%list /\
    (count is_setItem new = 0%nat ->
     storage (env_of w') = storage (env_of w)).
Proof.
  cbv zeta.
  destruct (run_steps E inputs (DOMContentLoaded w))
    as (new & Ht & _ & _ & _ & _ & _ & Hsto & Hz).
  change (storage (env_of (page (DOMContentLoaded w))))
    with (storage (env_of w)) in Hsto, Hz.
  split; [|split].
  - destruct Hsto as [-> | (text & ->)]; [reflexivity|].
    intros k Hk. apply lookup_insert_ne. congruence.
  - destruct Hsto as [-> | (text & ->)]; [intros H; exact H|].
    intros _. rewrite lookup_insert_eq. eauto.
  - exists new. split; [|exact Hz].
    rewrite Ht. cbn. rewrite <- app_assoc. reflexivity.
Qed.

End PageFacts.

(** ** results-multimodel.js: the grid as a whole *)

Module GridFacts.
Import JS Browser Results ResultsSpec ResultsPage PageSpec GridSpec.

(** The loop writes warnings to the console and nothing else. *)
Lemma render_each_frame E p entries : forall html w w' c,
  render_each E p entries html w = (w', c) ->
  original_image_src w' = original_image_src w /\
  processed_image_src w' = processed_image_src w /\
  model_comparison_innerHTML w' = model_comparison_innerHTML w /\
  storage (env_of w') = storage (env_of w) /\
  exists new,
    trace (env_of w') = (trace (env_of w) ++ new)%list /\
    Forall (fun e => exists a, e = Console Warn a) new.
Proof.
  induction entries as [|[key cfg] rest IH]; intros html w w' c.
  - cbn. intros [= <- <-]. repeat split. exists []. rewrite app_nil_r.
    split; [reflexivity | constructor].
  - cbn [render_each]. unfold mbind, eval, exec.
    assert (Hstop : forall m, (w, @Throw (list card) m) = (w', c) ->
      original_image_src w' = original_image_src w /\
      processed_image_src w' = processed_image_src w /\
      model_comparison_innerHTML w' = model_comparison_innerHTML w /\
      storage (env_of w') = storage (env_of w) /\
      exists new,
        trace (env_of w') = (trace (env_of w) ++ new)%list /\
        Forall (fun e => exists a, e = Console Warn a) new).
    { intros m [= <- <-]. repeat split. exists []. rewrite app_nil_r.
      split; [reflexivity | constructor]. }
    assert (Hskip :
      render_each E p rest html
        (console Warn [AStr ("No data for " +:+ key)] w) = (w', c) ->
      original_image_src w' = original_image_src w /\
      processed_image_src w' = processed_image_src w /\
      model_comparison_innerHTML w' = model_comparison_innerHTML w /\
      storage (env_of w') = storage (env_of w) /\
      exists new,
        trace (env_of w') = (trace (env_of w) ++ new)%list /\
        Forall (fun e => exists a, e = Console Warn a) new).
    { intros H0. destruct (IH _ _ _ _ H0) as (H1 & H2 & H3 & H4 & new & H5 & H6).
      repeat split; try assumption.
      exists (Console Warn [AStr ("No data for " +:+ key)] :: new).
      split; [rewrite H5; cbn; rewrite <- app_assoc; reflexivity|].
      constructor; [eauto | exact H6]. }
    destruct (get_val E p key) as [modelData|]; [|apply Hstop].
    destruct modelData as [data|]; [|exact Hskip].
    destruct (truthy data); cbn [negb]; [|exact Hskip].
    destruct (renderModelCard E key data cfg); [apply IH | apply Hstop].
Qed.

(** The loop over an object of predictions, when it completes: a card
    for each key with a truthy value, a warning for each other key. *)
Lemma render_each_object E ps entries : forall html w w' html',
  render_each E (Some (JObj ps)) entries html w = (w', Normal html') ->
  map card_title html' =
    (map card_title html ++
     map (fun kc => title (snd kc))
       (List.filter (fun kc : string * config => has_source ps (fst kc))
          entries))%list /\
  warnings (trace (env_of w')) =
    (warnings (trace (env_of w)) ++
     map (fun kc => [AStr ("No data for " +:+ fst kc)])
       (List.filter (fun kc : string * config => negb (has_source ps (fst kc)))
          entries))%list.
Proof.
  induction entries as [|[key cfg] rest IH]; intros html w w' html'.
  - cbn. intros [= <- <-]. rewrite !app_nil_r. split; reflexivity.
  - cbn [render_each List.filter fst]. unfold mbind, eval, exec, has_source.
    cbn [get_val get].
    assert (Hskip :
      render_each E (Some (JObj ps)) rest html
        (console Warn [AStr ("No data for " +:+ key)] w) = (w', Normal html') ->
      map card_title html' =
        (map card_title html ++
         map (fun kc => title (snd kc))
           (List.filter (fun kc : string * config => has_source ps (fst kc))
              rest))%list /\
      warnings (trace (env_of w')) =
        (warnings (trace (env_of w)) ++
         [AStr ("No data for " +:+ key)] ::
         map (fun kc => [AStr ("No data for " +:+ fst kc)])
           (List.filter
              (fun kc : string * config => negb (has_source ps (fst kc)))
              rest))%list).
    { intros H0. destruct (IH _ _ _ _ H0) as (H1 & H2).
      split; [exact H1|]. rewrite H2. unfold warnings at 1. cbn.
      rewrite omap_app. cbn. rewrite <- app_assoc. reflexivity. }
    destruct (assoc key ps) as [data|]; cbn [truthy_val negb];
      [|exact Hskip].
    destruct (truthy data); cbn [negb]; [|exact Hskip].
    destruct (renderModelCard E key data cfg) as [c|] eqn:Hc; [|discriminate].
    intros H0. destruct (IH _ _ _ _ H0) as (H1 & H2).
    split; [|exact H2]. rewrite H1, map_app, <- app_assoc. cbn.
    apply ResultsProps.render_card_fixed in Hc as (_ & -> & _). reflexivity.
Qed.

(** X9. When the grid is rendered from an object of predictions, every
    configured source is accounted for, in the configured order: a card
    for each key whose value is truthy, a "No data for" warning for each
    other key; the grid replaces what the container held, and the bar
    animation is scheduled last. *)
Theorem grid_accounts_for_every_source (E : Engine) (results : json)
    (ps : list (string * json)) (w w' : world) :
  get E results "predictions" = Normal (Some (JObj ps)) ->
  displayModelComparison E results w = (w', Normal tt) ->
  map card_title (model_comparison_innerHTML w') = titles (has_source ps) /\
  warnings (trace (env_of w')) =
    (warnings (trace (env_of w)) ++
     no_data (fun key => negb (has_source ps key)))%list /\
  last (trace (env_of w')) = Some (SetTimeout "animateScoreBars" 100).
Proof.
  intros Hp. unfold displayModelComparison, mbind, eval, exec. rewrite Hp.
  destruct (render_each E (Some (JObj ps)) MODEL_CONFIG [] w)
    as [w1 [html|]] eqn:Hloop; [|discriminate].
  intros [= <-]. destruct (render_each_object _ _ _ _ _ _ _ Hloop) as (H1 & H2).
  split; [exact H1|]. split.
  - transitivity (warnings (trace (env_of w1))); [|exact H2].
    unfold warnings. cbn. rewrite omap_app. cbn. apply app_nil_r.
  - cbn. apply last_snoc.
Qed.

Lemma grid_accounts_for_every_source_witness :
  exists w',
    map card_title (model_comparison_innerHTML w') =
      ["EfficientNet V2"; "Hybrid Model"] /\
    warnings (trace (env_of w')) = [[AStr "No data for model_b"]].
Proof.
  pose (ps := [("model_c", source "Subdural" 60); ("model_b", JNull);
               ("model_a", source "Epidural" 95)]).
  pose (w := World "" "" [] (Env ∅ [])).
  destruct (displayModelComparison V8 (JObj [("predictions", JObj ps)]) w)
    as [w' [[]|m]] eqn:Hrun; [|vm_compute in Hrun; discriminate].
  exists w'.
  destruct (grid_accounts_for_every_source V8
    (JObj [("predictions", JObj ps)]) ps w w' eq_refl Hrun) as (H1 & H2 & _).
  split; [exact H1 | exact H2].
Defined.

(** [displayImages] and [displayModelComparison] never write the
    storage, and the second sets a timer only at its very end. *)
Lemma displayImages_frame E results w w' c :
  displayImages E results w = (w', c) ->
  model_comparison_innerHTML w' = model_comparison_innerHTML w /\
  env_of w' = env_of w.
Proof.
  unfold displayImages, mbind, eval, exec.
  destruct (get E results "original_image"); [|intros [= <- <-]; split; reflexivity].
  destruct (get E results "processed_image"); intros [= <- <-]; split; reflexivity.
Qed.

Lemma count_warnings (new : list event) p :
  Forall (fun e => exists a, e = Console Warn a) new ->
  (forall l a, p (Console l a) = false) ->
  count p new = 0%nat.
Proof.
  intros Hall Hp. induction Hall as [|e l (a & ->) _ IH]; [reflexivity|].
  unfold count in *. cbn. rewrite Hp. exact IH.
Qed.

Lemma displayModelComparison_frame E results w w' c :
  displayModelComparison E results w = (w', c) ->
  original_image_src w' = original_image_src w /\
  processed_image_src w' = processed_image_src w /\
  storage (env_of w') = storage (env_of w) /\
  match c with
  | Normal _ => True
  | Throw _ =>
      model_comparison_innerHTML w' = model_comparison_innerHTML w /\
      count is_timer (trace (env_of w')) = count is_timer (trace (env_of w))
  end.
Proof.
  unfold displayModelComparison, mbind, eval, exec.
  destruct (get E results "predictions") as [p|];
    [|intros [= <- <-]; repeat split].
  destruct (render_each E p MODEL_CONFIG [] w) as [w1 [html|]] eqn:Hloop;
    intros [= <- <-];
    destruct (render_each_frame _ _ _ _ _ _ _ Hloop)
      as (H1 & H2 & H3 & H4 & new & H5 & H6).
  - repeat split; assumption.
  - repeat split; try assumption.
    rewrite H5, PageFacts.count_app, (count_warnings new); [lia | exact H6|].
    reflexivity.
Qed.

(** X10. The grid is all or nothing. When [displayModelComparison]
    throws, at whatever source, the container keeps what it held (the
    cards built so far are dropped), no bar animation is scheduled, and
    the images and the storage are as they were. *)
Theorem grid_all_or_nothing (E : Engine) (results : json) (w w' : world)
    (message : string) :
  displayModelComparison E results w = (w', Throw message) ->
  model_comparison_innerHTML w' = model_comparison_innerHTML w /\
  count is_timer (trace (env_of w')) = count is_timer (trace (env_of w)) /\
  original_image_src w' = original_image_src w /\
  processed_image_src w' = processed_image_src w /\
  storage (env_of w') = storage (env_of w).
Proof.
  intros H. apply displayModelComparison_frame in H
    as (H1 & H2 & H3 & H4 & H5).
  repeat split; assumption.
Qed.

Lemma grid_all_or_nothing_witness :
  exists w' message,
    displayModelComparison V8 text_score (loading "") = (w', Throw message) /\
    model_comparison_innerHTML w' = [].
Proof.
  destruct (displayModelComparison V8 text_score (loading ""))
    as [w' [[]|m]] eqn:Hrun; [vm_compute in Hrun; discriminate|].
  exists w', m. split; [reflexivity|].
  exact (proj1 (grid_all_or_nothing V8 text_score (loading "") w' m Hrun)).
Defined.

(** A score that is not a number stops the rows. *)
Lemma numeric_entries_bad l label v :
  In (label, v) l -> (forall n, v <> JNum n) ->
  exists bad, numeric_entries l = inl bad.
Proof.
  intros Hin Hv. induction l as [|[k x] l IH]; [contradiction|].
  cbn [numeric_entries].
  destruct Hin as [[= -> ->] | Hin].
  - destruct v; eauto. exfalso. eapply Hv. reflexivity.
  - destruct (IH Hin) as (bad & ->). destruct x; eauto.
Qed.

Lemma render_rows_bad E scores label v :
  In (label, v) scores -> (forall n, v <> JNum n) ->
  exists m, render_rows E (JObj scores) = Throw m.
Proof.
  intros Hin Hv. unfold render_rows. cbn [Object_entries].
  destruct (numeric_entries_bad _ _ _ Hin Hv) as (bad & ->).
  destruct bad; eauto.
Qed.

Lemma card_bad_score E key props scores label v cfg :
  assoc "confidences" props = Some (JObj scores) ->
  In (label, v) scores -> (forall n, v <> JNum n) ->
  exists m, renderModelCard E key (JObj props) cfg = Throw m.
Proof.
  intros Hc Hin Hv. unfold renderModelCard. cbn [get bind]. rewrite Hc.
  cbn [or_else truthy].
  rewrite ResultsProps.get_length
    by (eapply ResultsProps.or_else_truthy; reflexivity).
  cbn [bind]. destruct (render_rows_bad E _ _ _ Hin Hv) as (m & Hm).
  destruct (gt0 _).
  - destruct (render_badges E _); cbn [bind]; [|eauto].
    rewrite Hm. eauto.
  - rewrite Hm. eauto.
Qed.

(** The loop throws when it reaches a source whose card throws, unless
    it threw before. *)
Lemma render_each_throws E ps key data entries :
  assoc key ps = Some data -> truthy data = true ->
  (forall cfg, exists m, renderModelCard E key data cfg = Throw m) ->
  In key (keys entries) ->
  forall html w, exists w' m,
    render_each E (Some (JObj ps)) entries html w = (w', Throw m).
Proof.
  intros Ha Ht Hthrow. induction entries as [|[k cfg] rest IH]; [contradiction|].
  intros Hin html w. cbn [render_each]. unfold mbind, eval, exec.
  cbn [get_val get].
  destruct (String.eqb_spec k key) as [-> | Hne].
  - rewrite Ha, Ht. cbn [negb]. destruct (Hthrow cfg) as (m & ->). eauto.
  - assert (Hrest : In key (keys rest)).
    { destruct Hin as [Hk | Hin]; [cbn in Hk; congruence | exact Hin]. }
    destruct (assoc k ps) as [d|]; [|apply (IH Hrest)].
    destruct (truthy d); cbn [negb]; [|apply (IH Hrest)].
    destruct (renderModelCard E k d cfg); [apply (IH Hrest) | eauto].
Qed.

(** X11. One score that is not a number, in any one of the configured
    sources, hides every card: the load binds the images, then ends in
    the notice and the redirect, with the container as it was and no
    animation scheduled. *)
Theorem bad_score_hides_all_cards (E : Engine) (w : world) (text : string)
    (fields ps props scores : list (string * json)) (key label : string)
    (v : json) :
  getItem "detectionResult" w = Some text ->
  JSON.parse text = Some (JObj fields) ->
  assoc "predictions" fields = Some (JObj ps) ->
  In key (keys MODEL_CONFIG) ->
  assoc key ps = Some (JObj props) ->
  assoc "confidences" props = Some (JObj scores) ->
  In (label, v) scores -> (forall n, v <> JNum n) ->
  model_comparison_innerHTML (init E w) = model_comparison_innerHTML w /\
  count is_timer (trace (env_of (init E w))) =
    count is_timer (trace (env_of w)) /\
  alerts (trace (env_of (init E w))) =
    (alerts (trace (env_of w)) ++
     ["Error loading results. Please try again."])%list /\
  navigations (trace (env_of (init E w))) =
    (navigations (trace (env_of w)) ++ ["detection.html"])%list.
Proof.
  intros Hs Hparse Hp Hkey Hsrc Hc Hin Hv.
  assert (Hne : exists ch s', text = String ch s').
  { destruct text; [vm_compute in Hparse; discriminate | eauto]. }
  destruct Hne as (ch & s' & ->).
  unfold init. rewrite Hs. unfold try_catch, mbind, eval, exec, parse_results.
  rewrite Hparse.
  unfold displayImages, mbind, eval, exec. cbn [get].
  destruct (render_each_throws E ps key (JObj props) MODEL_CONFIG Hsrc eq_refl
              (fun cfg => card_bad_score E key props scores label v cfg Hc Hin Hv)
              Hkey []
              (set_processed_image_src
                 (API_URL +:+ ToString_val (assoc "processed_image" fields))
                 (set_original_image_src
                    (API_URL +:+ ToString_val (assoc "original_image" fields))
                    (console Log [AStr "Loaded multi-model results:";
                                  AJson (JObj fields)] w)))) as (w1 & m & Hloop).
  unfold displayModelComparison, mbind, eval, exec. cbn [get]. rewrite Hp, Hloop.
  destruct (render_each_frame _ _ _ _ _ _ _ Hloop)
    as (_ & _ & H3 & _ & new & H5 & H6).
  cbn in H3, H5 |- *. rewrite H3. split; [reflexivity|].
  assert (Hq : alerts new = [] /\ navigations new = []).
  { clear H5. induction H6 as [|e l (a & ->) _ [IH1 IH2]];
      split; first [assumption | reflexivity]. }
  destruct Hq as [Ha Hn].
  rewrite H5. split; [|split].
  - match goal with
    | |- length (List.filter is_timer ?x) = _ =>
        change (count is_timer x = count is_timer (trace (page_env w)))
    end.
    rewrite !PageFacts.count_app.
    rewrite (count_warnings new _ H6) by reflexivity. cbn. lia.
  - unfold alerts in *. rewrite !omap_app, Ha. cbn. rewrite !app_nil_r.
    reflexivity.
  - unfold navigations in *. rewrite !omap_app, Hn. cbn. rewrite !app_nil_r.
    reflexivity.
Qed.

Lemma bad_score_hides_all_cards_witness :
  let w := loading (JSON.stringify text_score) in
  model_comparison_innerHTML (init V8 w) = [] /\
  navigations (trace (env_of (init V8 w))) = ["detection.html"].
Proof.
  cbv zeta.
  destruct (bad_score_hides_all_cards V8 (loading (JSON.stringify text_score))
    (JSON.stringify text_score) text_score_fields text_score_predictions
    text_score_source [("Epidural", JStr "80.0")] "model_b" "Epidural"
    (JStr "80.0")) as (H1 & _ & _ & H4);
    try (vm_compute; reflexivity).
  - right. left. reflexivity.
  - left. reflexivity.
  - discriminate.
  - split; [exact H1 | exact H4].
Defined.

(** Where a load ends, for the storage: it is never written. *)
Lemma init_frame E w : storage (env_of (init E w)) = storage (env_of w).
Proof.
  unfold init. destruct (getItem "detectionResult" w) as [[|ch s']|];
    [reflexivity| |reflexivity].
  unfold try_catch, mbind, eval, exec.
  destruct (parse_results E (String ch s')) as [results|m]; [|reflexivity].
  destruct (displayImages E results _) as [w1 [[]|m]] eqn:Himg.
  - apply displayImages_frame in Himg as (_ & Henv).
    destruct (displayModelComparison E results w1) as [w2 [[]|m]] eqn:Hcmp;
      apply displayModelComparison_frame in Hcmp as (_ & _ & Hsto & _);
      cbn in *; rewrite Hsto, Henv; reflexivity.
  - apply displayImages_frame in Himg as (_ & Henv).
    cbn in *. rewrite Henv. reflexivity.
Qed.

(** X12. The Result Renderer only reads the storage: whatever the slot
    holds and however the load ends, the storage after the load is the
    storage before it, so a reload finds the same payload. *)
Theorem load_keeps_storage (E : Engine) (w : world) :
  storage (env_of (init E w)) = storage (env_of w) /\
  getItem "detectionResult" (init E w) = getItem "detectionResult" w.
Proof.
  split; [apply init_frame|]. unfold getItem. rewrite init_frame. reflexivity.
Qed.

(** The loop over an object of predictions whose truthy sources are all
    renderable completes. *)
Lemma render_each_completes E ps entries :
  (forall key data, In key (keys entries) ->
     assoc key ps = Some data -> truthy data = true -> renderable data) ->
  forall html w, exists w' html',
    render_each E (Some (JObj ps)) entries html w = (w', Normal html').
Proof.
  induction entries as [|[key cfg] rest IH]; intros Hok html w.
  - cbn. eauto.
  - cbn [render_each]. unfold mbind, eval, exec. cbn [get_val get].
    assert (Hrest : forall k data, In k (keys rest) ->
      assoc k ps = Some data -> truthy data = true -> renderable data).
    { intros k data Hk. apply Hok. right. exact Hk. }
    destruct (assoc key ps) as [data|] eqn:Ha; [|apply (IH Hrest)].
    destruct (truthy data) eqn:Ht; cbn [negb]; [|apply (IH Hrest)].
    destruct (Hok key data (or_introl eq_refl) Ha Ht)
      as (props & labels & entries & -> & Hd & Hc).
    rewrite (ResultsProps.render_card E key cfg props labels entries Hd Hc).
    apply (IH Hrest).
Qed.



(** The loop looks up the configured keys and no other. *)
Lemma render_each_configured E ps ps' entries :
  (forall key, In key (keys entries) -> assoc key ps = assoc key ps') ->
  forall html w,
    render_each E (Some (JObj ps)) entries html w =
    render_each E (Some (JObj ps')) entries html w.
Proof.
  induction entries as [|[key cfg] rest IH]; intros Hsame html w;
    [reflexivity|].
  assert (Hrest : forall k, In k (keys rest) -> assoc k ps = assoc k ps').
  { intros k Hk. apply Hsame. right. exact Hk. }
  cbn [render_each]. unfold mbind, eval, exec. cbn [get_val get].
  rewrite <- (Hsame key (or_introl eq_refl)).
  destruct (assoc key ps) as [data|]; [|apply (IH Hrest)].
  destruct (truthy data); cbn [negb]; [|apply (IH Hrest)].
  destruct (renderModelCard E key data cfg); [apply (IH Hrest) | reflexivity].
Qed.

(** X17. The grid depends on the values of the three configured keys
    only: two payloads whose predictions agree on "model_a", "model_b"
    and "model_c" give the same page, whatever else the predictions
    hold (an ensemble, say) and in whatever order. *)
Theorem grid_reads_configured_keys_only (E : Engine) (results results' : json)
    (ps ps' : list (string * json)) (w : world) :
  get E results "predictions" = Normal (Some (JObj ps)) ->
  get E results' "predictions" = Normal (Some (JObj ps')) ->
  (forall key, In key ["model_a"; "model_b"; "model_c"] ->
     assoc key ps = assoc key ps') ->
  displayModelComparison E results w = displayModelComparison E results' w.
Proof.
  intros Hp Hp' Hsame. unfold displayModelComparison, mbind, eval, exec.
  rewrite Hp, Hp'.
  rewrite (render_each_configured E ps ps' MODEL_CONFIG Hsame). reflexivity.
Qed.

Lemma grid_reads_configured_keys_only_witness :
  displayModelComparison V8 four_sources (loading "") =
  displayModelComparison V8
    (JObj [("predictions",
            JObj [("model_a", source "Epidural" 95);
                  ("model_b", source "Epidural" 80);
                  ("model_c", source "Epidural" 70)])])
    (loading "").
Proof.
  refine (grid_reads_configured_keys_only V8 four_sources
            (JObj [("predictions",
                    JObj [("model_a", source "Epidural" 95);
                          ("model_b", source "Epidural" 80);
                          ("model_c", source "Epidural" 70)])])
            [("ensemble", source "Epidural" 90);
             ("model_c", source "Epidural" 70);
             ("model_b", source "Epidural" 80);
             ("model_a", source "Epidural" 95)]
            [("model_a", source "Epidural" 95);
             ("model_b", source "Epidural" 80);
             ("model_c", source "Epidural" 70)]
            (loading "") eq_refl eq_refl _).
  intros key [<- | [<- | [<- | []]]]; reflexivity.
Defined.

(** X18. A [detected] that is truthy but not a list. With a positive
    [length] (a non-empty string, an object with such a property) the
    card throws, [map] not being a function of it; otherwise (a number,
    [true], an object without [length]) a card that is rendered shows
    no hemorrhage and no label. *)
Theorem detected_not_a_list (E : Engine) (key : string) (cfg : config)
    (props : list (string * json)) (d : json) :
  assoc "detected" props = Some d ->
  truthy d = true ->
  (forall items, d <> JArr items) ->
  (gt0 (own_length d) = true ->
   renderModelCard E key (JObj props) cfg =
     Throw (msg_not_function E "detected.map")) /\
  (gt0 (own_length d) = false ->
   forall c, renderModelCard E key (JObj props) cfg = Normal c ->
     card_headline c = NoHemorrhageDetected /\ card_detected c = []).
Proof.
  intros Hd Ht Hlist. unfold renderModelCard. cbn [get bind]. rewrite Hd.
  cbn [or_else]. rewrite Ht.
  rewrite ResultsProps.get_length by (intros ->; discriminate).
  cbn [bind]. split; intros Hg; rewrite Hg.
  - destruct d; try reflexivity. exfalso. eapply Hlist. reflexivity.
  - intros c. destruct (render_rows E _); [|discriminate].
    cbn [bind]. intros [= <-]. split; reflexivity.
Qed.

Lemma detected_not_a_list_witness :
  renderModelCard V8 "model_a"
    (JObj [("detected", JStr "Epidural"); ("confidences", JObj [])])
    (Config "EfficientNet V2" "Primary" "First detection model") =
  Throw "detected.map is not a function" /\
  renderModelCard V8 "model_a"
    (JObj [("detected", JObj [("length", JStr "0x10")])])
    (Config "EfficientNet V2" "Primary" "First detection model") =
  Throw "detected.map is not a function".
Proof.
  split.
  - refine (proj1 (detected_not_a_list V8 "model_a"
      (Config "EfficientNet V2" "Primary" "First detection model")
      [("detected", JStr "Epidural"); ("confidences", JObj [])]
      (JStr "Epidural") eq_refl eq_refl _) _).
    + discriminate.
    + vm_compute. reflexivity.
  - refine (proj1 (detected_not_a_list V8 "model_a"
      (Config "EfficientNet V2" "Primary" "First detection model")
      [("detected", JObj [("length", JStr "0x10")])]
      (JObj [("length", JStr "0x10")]) eq_refl eq_refl _) _).
    + discriminate.
    + vm_compute. reflexivity.
Defined.



End GridFacts.

(** ** results-multimodel.js: the colour scale and the bar animation *)

Module BarFacts.
Import JS Browser OrderSpec Results ResultsPage GridSpec.

Lemma num_geb_false a b : num_geb a b = false <-> num_lt a b.
Proof. unfold num_geb, num_lt. rewrite Z.leb_gt. reflexivity. Qed.

(** X14. The colour scale splits the scores at 30 and at 50: red from 50
    on, amber from 30 to below 50, green below 30; and a score is red
    exactly when [renderModelCard] marks its row. *)
Theorem confidence_colour_scale (confidence : number) :
  (getConfidenceColor confidence = "#ef4444" <->
   num_le (num_of_Z 50) confidence) /\
  (getConfidenceColor confidence = "#f59e0b" <->
   num_le (num_of_Z 30) confidence /\ num_lt confidence (num_of_Z 50)) /\
  (getConfidenceColor confidence = "#10b981" <->
   num_lt confidence (num_of_Z 30)) /\
  (forall label,
     getConfidenceColor confidence = "#ef4444" <->
     row_flagged (render_row (label, confidence)) = true).
Proof.
  unfold getConfidenceColor, DETECTION_THRESHOLD. cbn [render_row row_flagged].
  unfold DETECTION_THRESHOLD.
  destruct (num_geb confidence (num_of_Z 50)) eqn:H50.
  - apply NumberFacts.num_geb_le in H50.
    assert (H50' := H50). unfold num_le, num_of_Z in H50'. cbn in H50'.
    repeat split; try discriminate; try (intros; assumption);
      try reflexivity.
    + intros (_ & Hlt). unfold num_lt, num_of_Z in Hlt. cbn in Hlt. lia.
    + intros Hlt. unfold num_lt, num_of_Z in Hlt. cbn in Hlt.
      pose proof (NumberFacts.pow10_pos (scale confidence)). lia.
  - apply num_geb_false in H50.
    assert (H50' := H50). unfold num_lt, num_of_Z in H50'. cbn in H50'.
    assert (Hno : ~ num_le (num_of_Z 50) confidence).
    { unfold num_le, num_of_Z. cbn. lia. }
    destruct (num_geb confidence (num_of_Z 30)) eqn:H30.
    + apply NumberFacts.num_geb_le in H30.
      assert (H30' := H30). unfold num_le, num_of_Z in H30'. cbn in H30'.
      repeat split; try discriminate; try (intros; assumption);
        try reflexivity; try (intros; contradiction).
      intros Hlt. unfold num_lt, num_of_Z in Hlt. cbn in Hlt. lia.
    + apply num_geb_false in H30.
      assert (H30' := H30). unfold num_lt, num_of_Z in H30'. cbn in H30'.
      repeat split; try discriminate; try (intros; assumption);
        try reflexivity; try (intros; contradiction).
      intros (Hle & _). unfold num_le, num_of_Z in Hle. cbn in Hle. lia.
Qed.

Lemma fire_length css t bars : length (fire css t bars) = length bars.
Proof. apply length_alter. Qed.

Lemma set_style_width_data css text b :
  data_width (set_style_width css text b) = data_width b.
Proof. unfold set_style_width. destruct (css text); reflexivity. Qed.

Lemma set_style_width_twice css text b :
  set_style_width css text (set_style_width css text b) =
  set_style_width css text b.
Proof.
  unfold set_style_width. destruct (css text) eqn:Hc; cbn; rewrite ?Hc;
    reflexivity.
Qed.

(** Timers that carry each bar's own [data-width], fired in the order
    given: a bar that has a timer got its width set from its
    [data-width], every other bar is as it was. *)
Lemma fire_all css (bars : list bar) (ts : list timer) : forall cur,
  (forall t, In t ts ->
     exists b, bars !! target t = Some b /\ width t = data_width b) ->
  (forall i b, bars !! i = Some b ->
     exists c, cur !! i = Some c /\ data_width c = data_width b) ->
  forall i b c, bars !! i = Some b -> cur !! i = Some c ->
    (In i (map target ts) ->
     fold_left (fun bs t => fire css t bs) ts cur !! i =
       Some (set_style_width css (attr_text (data_width b) +:+ "%") c)) /\
    (~ In i (map target ts) ->
     fold_left (fun bs t => fire css t bs) ts cur !! i = Some c).
Proof.
  induction ts as [|t ts IH]; intros cur Hts Hcur i b c Hb Hc.
  - cbn. split; [contradiction | intros _; exact Hc].
  - cbn [fold_left map].
    assert (Hts' : forall t', In t' ts ->
      exists b', bars !! target t' = Some b' /\ width t' = data_width b').
    { intros t' Ht'. apply Hts. right. exact Ht'. }
    destruct (Hts t (or_introl eq_refl)) as (bt & Hbt & Hwt).
    assert (Hcur' : forall j b', bars !! j = Some b' ->
      exists c', fire css t cur !! j = Some c' /\
                 data_width c' = data_width b').
    { intros j b' Hj. destruct (Hcur j b' Hj) as (c' & Hc' & Hd).
      unfold fire. destruct (decide (target t = j)) as [<- | Hne].
      - rewrite list_lookup_alter_eq, Hc'. cbn.
        eexists. split; [reflexivity|]. rewrite set_style_width_data.
        exact Hd.
      - rewrite list_lookup_alter_ne by exact Hne. eauto. }
    destruct (decide (target t = i)) as [Heq | Hne].
    + assert (Hfire : fire css t cur !! i =
        Some (set_style_width css (attr_text (data_width b) +:+ "%") c)).
      { subst i. unfold fire. rewrite list_lookup_alter_eq, Hc. cbn.
        assert (bt = b) as -> by congruence. rewrite Hwt. reflexivity. }
      destruct (IH (fire css t cur) Hts' Hcur' i b _ Hb Hfire)
        as (IHin & IHout).
      split; [|intros Hno; exfalso; apply Hno; left; exact Heq].
      intros _.
      destruct (in_dec Nat.eq_dec i (map target ts)) as [Hin | Hout].
      * rewrite (IHin Hin). rewrite set_style_width_twice. reflexivity.
      * exact (IHout Hout).
    + assert (Hsame : fire css t cur !! i = Some c).
      { unfold fire. rewrite list_lookup_alter_ne by exact Hne. exact Hc. }
      destruct (IH (fire css t cur) Hts' Hcur' i b c Hb Hsame)
        as (IHin & IHout).
      split.
      * intros [Hi | Hi]; [contradiction | exact (IHin Hi)].
      * intros Hno. apply IHout. intros Hi. apply Hno. right. exact Hi.
Qed.

Lemma fold_fire_length css ts : forall cur,
  length (fold_left (fun bs t => fire css t bs) ts cur) = length cur.
Proof.
  induction ts as [|t ts IH]; intros cur; [reflexivity|].
  cbn [fold_left]. rewrite IH. apply fire_length.
Qed.

(** The bars once every timer set by [animateScoreBars] has fired, in
    whatever order. *)
Lemma animation_ends css (bars : list bar) (ts : list timer) :
  css "0%" = Some "0%" ->
  Permutation ts (snd (animateScoreBars css bars)) ->
  fold_left (fun bs t => fire css t bs) ts (fst (animateScoreBars css bars)) =
  map (animated css) bars.
Proof.
  intros Hzero Hperm. cbn [animateScoreBars fst snd] in *.
  apply list_eq. intros i. rewrite list_lookup_fmap.
  destruct (bars !! i) as [b|] eqn:Hb; cbn.
  - assert (Hts : forall t, In t ts ->
      exists b', bars !! target t = Some b' /\ width t = data_width b').
    { intros t Ht. apply list_elem_of_In in Ht. rewrite Hperm in Ht.
      apply elem_of_lookup_imap in Ht as (j & y & -> & Hy). eauto. }
    assert (Hcur : forall j b', bars !! j = Some b' ->
      exists c, map (set_style_width css "0%") bars !! j = Some c /\
                data_width c = data_width b').
    { intros j b' Hj. rewrite list_lookup_fmap, Hj. cbn.
      eexists. split; [reflexivity | apply set_style_width_data]. }
    assert (Hc : map (set_style_width css "0%") bars !! i =
                 Some (set_style_width css "0%" b)).
    { rewrite list_lookup_fmap, Hb. reflexivity. }
    destruct (fire_all css bars ts _ Hts Hcur i b _ Hb Hc) as (Hin & _).
    rewrite Hin.
    + unfold set_style_width, animated. rewrite Hzero. cbn.
      destruct (css (attr_text (data_width b) +:+ "%")); reflexivity.
    + apply in_map_iff. exists (Timer i (data_width b) 50).
      split; [reflexivity|]. apply list_elem_of_In. rewrite Hperm.
      apply (elem_of_lookup_imap_2 (fun i b => Timer i (data_width b) 50)).
      exact Hb.
  - apply lookup_ge_None. rewrite fold_fire_length, length_map.
    apply lookup_ge_None. exact Hb.
Qed.

(** X15. [animateScoreBars] first sets every bar to "0%" and sets one
    timer of 50 ms per bar; once the timers have fired, in whatever
    order, every bar whose [data-width] followed by "%" is a width is
    as wide as that says, every other bar (one without the attribute,
    whose text is "null%", say) is still at "0%", and no attribute has
    changed. What is a width is the CSS parser's to say; that "0%" is
    one is taken for granted. *)
Theorem bars_animate_in_any_order (css_width : string -> option string)
    (bars : list bar) (ts : list timer) :
  css_width "0%" = Some "0%" ->
  Permutation ts (snd (animateScoreBars css_width bars)) ->
  Forall (fun b => style_width b = "0%")
    (fst (animateScoreBars css_width bars)) /\
  length ts = length bars /\
  Forall (fun t => delay t = 50%Z) ts /\
  fold_left (fun bs t => fire css_width t bs) ts
    (fst (animateScoreBars css_width bars)) =
    map (fun b =>
           Bar (data_width b)
             (match css_width (attr_text (data_width b) +:+ "%") with
              | Some value => value
              | None => "0%"
              end)) bars.
Proof.
  intros Hzero Hperm. split; [|split; [|split]].
  - cbn. apply Forall_forall. intros b Hb.
    apply list_elem_of_fmap in Hb as (b0 & -> & _).
    unfold set_style_width. rewrite Hzero. reflexivity.
  - rewrite Hperm. cbn. apply length_imap.
  - rewrite Hperm. cbn. apply Forall_forall. intros t Ht.
    apply elem_of_lookup_imap in Ht as (j & y & -> & _). reflexivity.
  - exact (animation_ends css_width bars ts Hzero Hperm).
Qed.

Lemma bars_animate_in_any_order_witness :
  let bars := [Bar (Some "91.5") ""; Bar None "40%"; Bar (Some "72") ""] in
  fold_left (fun bs t => fire css_but_null t bs)
    [Timer 2 (Some "72") 50; Timer 0 (Some "91.5") 50; Timer 1 None 50]
    (fst (animateScoreBars css_but_null bars)) =
  [Bar (Some "91.5") "91.5%"; Bar None "0%"; Bar (Some "72") "72%"].
Proof.
  cbv zeta.
  refine (proj2 (proj2 (proj2 (bars_animate_in_any_order css_but_null
    [Bar (Some "91.5") ""; Bar None "40%"; Bar (Some "72") ""]
    [Timer 2 (Some "72") 50; Timer 0 (Some "91.5") 50; Timer 1 None 50]
    eq_refl _)))).
  cbn. apply Permutation_sym.
  apply perm_trans with [Timer 0 (Some "91.5") 50; Timer 2 (Some "72") 50;
                         Timer 1 None 50].
  - apply perm_skip, perm_swap.
  - apply perm_swap.
Defined.

(** X16. The bars of the rendered cards end as wide as their scores say.
    For scores that are plain numbers (those the model writes as the
    engine does), once the animation's timers have fired, in whatever
    order, the width of each bar is the score's text followed by "%" as
    the CSS parser reads it back, or "0%" when that is not a width (a
    negative score), in the order of the rows. *)
Theorem rendered_bars_show_scores (css_width : string -> option string)
    (html : list card) (ts : list timer) :
  css_width "0%" = Some "0%" ->
  Forall (fun r => HandoffSpec.plain_number (row_width r) = true)
    (flat_map card_rows html) ->
  Permutation ts (snd (animateScoreBars css_width (bars_of html))) ->
  map style_width
    (fold_left (fun bs t => fire css_width t bs) ts
       (fst (animateScoreBars css_width (bars_of html)))) =
  map (fun r =>
         match css_width (Number_toString (row_width r) +:+ "%") with
         | Some value => value
         | None => "0%"
         end)
    (flat_map card_rows html).
Proof.
  intros Hzero _ Hperm. rewrite (animation_ends _ _ _ Hzero Hperm).
  clear Hperm ts.
  unfold bars_of. induction html as [|c html IH]; [reflexivity|].
  cbn [flat_map]. rewrite !map_app, IH, !map_map. reflexivity.
Qed.

Lemma rendered_bars_show_scores_witness :
  map style_width
    (fold_left (fun bs t => fire css_but_null t bs)
       (snd (animateScoreBars css_but_null
          (bars_of [Card false "t" "b" NoHemorrhageDetected []
                      [render_row ("Epidural", Num 915 1)]])))
       (fst (animateScoreBars css_but_null
          (bars_of [Card false "t" "b" NoHemorrhageDetected []
                      [render_row ("Epidural", Num 915 1)]])))) =
  ["91.5%"].
Proof.
  refine (rendered_bars_show_scores css_but_null
    [Card false "t" "b" NoHemorrhageDetected []
       [render_row ("Epidural", Num 915 1)]] _ eq_refl _ (Permutation_refl _)).
  repeat constructor.
Defined.

End BarFacts.
